(** * Job queue, credential lifecycle and OAuth handshake of the relay

    A shallow embedding of the storage layer ([storage/db.ts]), the queue
    wrappers ([scheduler/queue.ts]), the dispatch loop ([scheduler/cron.ts]),
    the token manager ([auth/token-manager.ts]) and the OAuth callback server
    ([auth/oauth-server.ts]), followed by the properties stated about them.

    Conventions.
    - A JavaScript [Date] is its time value: milliseconds since the Unix
      epoch, a [Z].  Invalid dates and numbers that are not integers are
      outside the model.
    - The clock is never read implicitly: every function that calls
      [Date.now()], [new Date()] or SQLite's [datetime('now')] takes the
      reading as an argument.
    - The TIMESTAMP columns of the two tables hold text.  A cell is
      represented by the instant whose rendering it holds, and every SQL
      comparison and ORDER BY is made on the rendered text, byte by byte,
      as SQLite does for TEXT values. *)

From Stdlib Require Import ZArith NArith String Ascii Lia Sorted.
From stdpp Require Import gmap strings list pretty.
Open Scope Z_scope.

(* ================================================================== *)
(** * Timestamps as text *)
(* ================================================================== *)

Module Time.

(** Days since 1970-01-01 to the proleptic Gregorian (year, month, day),
    the calendar both [Date.prototype.toISOString] and SQLite print.  The
    computation counts years from 1 March so that the leap day comes last. *)
Definition civil_from_days (z : Z) : Z * Z * Z :=
  let z := z + 719468 in
  let era := z / 146097 in
  let doe := z mod 146097 in
  let yoe := (doe - doe / 1460 + doe / 36524 - doe / 146096) / 365 in
  let doy := doe - (365 * yoe + yoe / 4 - yoe / 100) in
  let mp := (5 * doy + 2) / 153 in
  let d := doy - (153 * mp + 2) / 5 + 1 in
  let m := if mp <? 10 then mp + 3 else mp - 9 in
  let y := yoe + era * 400 in
  (if m <=? 2 then y + 1 else y, m, d).

(** First day of the March-based year [Y], and of its [mp]-th month. *)
Definition mys (Y : Z) : Z := 365 * Y + Y / 4 - Y / 100 + Y / 400.
Definition mstart (mp : Z) : Z := (153 * mp + 2) / 5.

Definition lexc (c1 c2 : comparison) : comparison :=
  match c1 with Eq => c2 | _ => c1 end.

Definition date_lt (a b : Z * Z * Z) : Prop :=
  let '(y1, m1, d1) := a in
  let '(y2, m2, d2) := b in
  y1 < y2 \/ (y1 = y2 /\ (m1 < m2 \/ (m1 = m2 /\ d1 < d2))).

Definition date_compare (a b : Z * Z * Z) : comparison :=
  let '(y1, m1, d1) := a in
  let '(y2, m2, d2) := b in
  lexc (y1 ?= y2) (lexc (m1 ?= m2) (d1 ?= d2)).

(** Fixed-width decimal fields. *)
Definition digit (n : Z) : ascii := ascii_of_N (Z.to_N (48 + n)).
Definition pad2 (n : Z) : string :=
  String (digit (n / 10)) (String (digit (n mod 10)) EmptyString).
Definition pad3 (n : Z) : string := String (digit (n / 100)) (pad2 (n mod 100)).
Definition pad4 (n : Z) : string := pad2 (n / 100) +:+ pad2 (n mod 100).

Definition date_text (days : Z) : string :=
  let '(y, m, d) := civil_from_days days in
  pad4 y +:+ "-" +:+ pad2 m +:+ "-" +:+ pad2 d.

(** [Date.prototype.toISOString]: "YYYY-MM-DDTHH:MM:SS.sssZ".  Years outside
    0000..9999 are printed by JavaScript in an expanded six-digit form that
    is not modelled; the lemmas below are stated for [in_range] instants. *)
Definition toISOString (ms : Z) : string :=
  let tod := ms mod 86400000 in
  date_text (ms / 86400000) +:+ "T" +:+ pad2 (tod / 3600000) +:+ ":"
    +:+ pad2 (tod / 60000 mod 60) +:+ ":" +:+ pad2 (tod / 1000 mod 60)
    +:+ "." +:+ pad3 (tod mod 1000) +:+ "Z".

(** The text SQLite's [datetime()] and [CURRENT_TIMESTAMP] produce for the
    Unix second [s]: "YYYY-MM-DD HH:MM:SS". *)
Definition sql_text (s : Z) : string :=
  let tod := s mod 86400 in
  date_text (s / 86400) +:+ " " +:+ pad2 (tod / 3600) +:+ ":"
    +:+ pad2 (tod / 60 mod 60) +:+ ":" +:+ pad2 (tod mod 60).

(** [datetime('now')] when the clock reads [now] milliseconds: the second
    is truncated. *)
Definition unix_seconds (now : Z) : Z := now / 1000.
Definition sqlite_datetime (now : Z) : string := sql_text (unix_seconds now).

(** 0000-01-01T00:00:00.000Z and 9999-12-31T23:59:59.999Z. *)
Definition min_ms : Z := -62167219200000.
Definition max_ms : Z := 253402300799999.
Definition in_range (ms : Z) : Prop := min_ms <= ms <= max_ms.
Definition min_s : Z := -62167219200.
Definition max_s : Z := 253402300799.
Definition in_range_s (s : Z) : Prop := min_s <= s <= max_s.
Definition min_day : Z := -719528.
Definition max_day : Z := 2932896.

(** Byte-wise text comparison, SQLite's BINARY collation. *)
Definition text_le (a b : string) : bool := String.leb a b.
Definition text_lt (a b : string) : bool := String.ltb a b.

(** ** Dates read from zone-less text

    [new Date("YYYY-MM-DD HH:MM:SS")], the text SQLite writes for
    [CURRENT_TIMESTAMP] and [datetime('now')], has no zone: the engine
    reads it as a time of the zone the process runs in.  Such a Date is
    kept as the wall-clock second [wall] the text spells (counted as
    [sql_text] counts it); the instant it stands for is [zone wall],
    where [zone] is how the process's zone reads wall-clock seconds, in
    milliseconds since the epoch. *)
Record LocalDate : Type := local { wall : Z }.

Definition instant (zone : Z -> Z) (d : LocalDate) : Z := zone (wall d).

(** A process in UTC, and one in a zone a fixed number of minutes east
    of UTC (west when negative). *)
Definition utc : Z -> Z := fun w => w * 1000.
Definition east (minutes : Z) : Z -> Z := fun w => w * 1000 - minutes * 60000.

End Time.

(* ================================================================== *)
(** * Shared interfaces ([platforms/types.ts]) *)
(* ================================================================== *)

Inductive Status : Set := pending | completed | failed.

#[global] Instance Status_eq_dec : EqDecision Status.
Proof. solve_decision. Defined.

(** JavaScript truthiness of an optional string: [undefined], [null] and
    the empty string are falsy. *)
Definition truthy (o : option string) : option string :=
  match o with
  | Some EmptyString => None
  | other => other
  end.

Module TokenData.
Record t : Type := mk {
    platform : string;
    accessToken : string;
    refreshToken : option string;
    expiresAt : option Z;
    updatedAt : option Time.LocalDate }.
End TokenData.

Module OAuthState.
Record t : Type := mk {
    platform : string;
    userId : string;
    codeVerifier : option string;
    redirectPath : option string }.
End OAuthState.

Module SkillResult.
Record t : Type := mk {
    success : bool;
    platform : string;
    action : string;
    postId : option string;
    videoId : option string;
    url : option string;
    message : option string;
    jobId : option Z;
    error : option string;
    needsAuth : option bool }.
End SkillResult.

Module ScheduledJob.
Record t : Type := mk {
    id : Z;
    platform : string;
    action : string;
    status : Status;
    scheduledAt : Z;
    contentJson : string;
    filePath : option string;
    resultJson : option string;
    errorMessage : option string;
    retryCount : Z;
    createdAt : Time.LocalDate;
    updatedAt : Time.LocalDate }.
End ScheduledJob.

Module QueueListOptions.
Record t : Type := mk {
    status : option Status;
    platform : option string;
    limit : option Z }.
End QueueListOptions.

(* ================================================================== *)
(** * The SQLite store ([storage/db.ts]) *)
(* ================================================================== *)

(** A row of [posts].  [scheduled_at] is NULL or the text
    [toISOString t] of the instant [t] (the only writer is [addPost]);
    [created_at] and [updated_at] are the text [sql_text s] of the Unix
    second [s] (written by [CURRENT_TIMESTAMP] and [datetime('now')]). *)
Module PostRow.
Record t : Type := mk {
    id : Z;
    platform : string;
    action : string;
    status : Status;
    scheduled_at : option Z;
    content_json : string;
    file_path : option string;
    result_json : option string;
    error_message : option string;
    retry_count : Z;
    created_at : Z;
    updated_at : Z }.
End PostRow.

(** A row of [tokens]; [platform] is the primary key.  [expires_at] is
    NULL or [toISOString t], [updated_at] is [sql_text s]. *)
Module TokenRow.
Record t : Type := mk {
    platform : string;
    access_token : string;
    refresh_token : option string;
    expires_at : option Z;
    updated_at : Z }.
End TokenRow.

Module DbStats.
Record t : Type := mk {
  posts : Z;
  pending : Z;
  tokens : Z }.
End DbStats.

Module QueueStats.
Record t : Type := mk {
  total : Z;
  pending : Z;
  completed : Z;
  failed : Z }.
End QueueStats.

Module Db.
Import Time.

(** The database: [posts] in rowid order, the AUTOINCREMENT counter of
    [posts] (the largest rowid ever used), and [tokens] keyed by platform. *)
Record t : Type := mk {
  posts : list PostRow.t;
  posts_seq : Z;
  tokens : gmap string TokenRow.t }.

Definition ids (db : t) : list Z := PostRow.id <$> posts db.

(** What SQLite maintains on [posts]: [id] is a key, and no id exceeds the
    AUTOINCREMENT counter. *)
Definition valid (db : t) : Prop :=
  NoDup (ids db) /\ Forall (fun i => i <= posts_seq db) (ids db).

Definition empty : t := mk [] 0 ∅.

Definition set_posts (rows : list PostRow.t) (db : t) : t :=
  mk rows (posts_seq db) (tokens db).

Definition set_tokens (tk : gmap string TokenRow.t) (db : t) : t :=
  mk (posts db) (posts_seq db) tk.

(** ** SQL building blocks *)

(** [UPDATE posts SET ... WHERE p]: the rows after the statement and the
    number of rows it changed. *)
Definition update_where (p : PostRow.t -> bool) (f : PostRow.t -> PostRow.t)
    (rows : list PostRow.t) : list PostRow.t :=
  map (fun r => if p r then f r else r) rows.

Definition changes (p : PostRow.t -> bool) (rows : list PostRow.t) : Z :=
  Z.of_nat (length (filter (fun r => p r = true) rows)).

(** [ORDER BY]: a stable insertion sort of the scanned rows under a
    three-way comparison. *)
Fixpoint insert_by {A} (cmp : A -> A -> comparison) (x : A) (l : list A) : list A :=
  match l with
  | [] => [x]
  | y :: l' =>
      match cmp x y with
      | Gt => y :: insert_by cmp x l'
      | _ => x :: l
      end
  end.

Definition order_by {A} (cmp : A -> A -> comparison) (l : list A) : list A :=
  foldr (insert_by cmp) [] l.

(** NULL sorts before every value in ascending order. *)
Definition nulls_first (a b : option string) : comparison :=
  match a, b with
  | None, None => Eq
  | None, Some _ => Lt
  | Some _, None => Gt
  | Some x, Some y => String.compare x y
  end.

Definition scheduled_text (r : PostRow.t) : option string :=
  toISOString <$> PostRow.scheduled_at r.

Definition created_text (r : PostRow.t) : string :=
  sql_text (PostRow.created_at r).

(** ** Helpers *)

(** [rowToJob]; [now] is the reading of [new Date()] taken when the row's
    [scheduled_at] is NULL.  [scheduled_at] holds ISO text with its "Z",
    which [new Date] reads as that instant in any zone; [created_at] and
    [updated_at] hold zone-less text, which it reads as local time. *)
Definition rowToJob (now : Z) (row : PostRow.t) : ScheduledJob.t :=
  {| ScheduledJob.id := PostRow.id row;
     ScheduledJob.platform := PostRow.platform row;
     ScheduledJob.action := PostRow.action row;
     ScheduledJob.status := PostRow.status row;
     ScheduledJob.scheduledAt :=
       match PostRow.scheduled_at row with
       | Some t => t
       | None => now
       end;
     ScheduledJob.contentJson := PostRow.content_json row;
     ScheduledJob.filePath := PostRow.file_path row;
     ScheduledJob.resultJson := PostRow.result_json row;
     ScheduledJob.errorMessage := PostRow.error_message row;
     ScheduledJob.retryCount := PostRow.retry_count row;
     ScheduledJob.createdAt := local (PostRow.created_at row);
     ScheduledJob.updatedAt := local (PostRow.updated_at row) |}.

(** [stmt.all().map(rowToJob)]: the [k]-th row is converted at clock
    reading [clock k]. *)
Definition rowsToJobs (clock : nat -> Z) (rows : list PostRow.t) : list ScheduledJob.t :=
  imap (fun k row => rowToJob (clock k) row) rows.

(** ** Posts CRUD *)

Definition addPost (now : Z) (platform action contentJson : string)
    (scheduledAt : option Z) (filePath : option string) (db : t) : Z * t :=
  let rowid := posts_seq db + 1 in
  let row :=
    {| PostRow.id := rowid;
       PostRow.platform := platform;
       PostRow.action := action;
       PostRow.status := pending;
       PostRow.scheduled_at := scheduledAt;
       PostRow.content_json := contentJson;
       PostRow.file_path := truthy filePath;
       PostRow.result_json := None;
       PostRow.error_message := None;
       PostRow.retry_count := 0;
       PostRow.created_at := unix_seconds now;
       PostRow.updated_at := unix_seconds now |} in
  (rowid, mk (posts db ++ [row]) rowid (tokens db)).

(** [scheduled_at IS NULL OR scheduled_at <= datetime('now')].  The column
    is declared TIMESTAMP, which gives it NUMERIC affinity; an ISO string
    is not a number, so it is stored as TEXT, and so is the result of
    [datetime]: the two are compared as text. *)
Definition due (now : Z) (r : PostRow.t) : bool :=
  match PostRow.scheduled_at r with
  | None => true
  | Some t => text_le (toISOString t) (sqlite_datetime now)
  end.

Definition ready (now : Z) (r : PostRow.t) : bool :=
  bool_decide (PostRow.status r = pending) && due now r
    && (PostRow.retry_count r <? 3).

(** [ORDER BY scheduled_at ASC, created_at ASC] *)
Definition ready_order (a b : PostRow.t) : comparison :=
  lexc (nulls_first (scheduled_text a) (scheduled_text b))
       (String.compare (created_text a) (created_text b)).

Definition ready_rows (now : Z) (db : t) : list PostRow.t :=
  order_by ready_order (filter (fun r => ready now r = true) (posts db)).

Definition getPendingJobs (now : Z) (clock : nat -> Z) (db : t) : list ScheduledJob.t :=
  rowsToJobs clock (ready_rows now db).

Definition getJobById (now : Z) (id : Z) (db : t) : option ScheduledJob.t :=
  rowToJob now <$> head (filter (fun r => PostRow.id r = id) (posts db)).

(** [ORDER BY created_at DESC] *)
Definition newest_first (a b : PostRow.t) : comparison :=
  String.compare (created_text b) (created_text a).

Definition listJobs (clock : nat -> Z) (options : option QueueListOptions.t)
    (db : t) : list ScheduledJob.t :=
  let rows := posts db in
  let rows :=
    match options ≫= QueueListOptions.status with
    | Some s => filter (fun r => PostRow.status r = s) rows
    | None => rows
    end in
  let rows :=
    match truthy (options ≫= QueueListOptions.platform) with
    | Some p => filter (fun r => PostRow.platform r = p) rows
    | None => rows
    end in
  let rows := order_by newest_first rows in
  let rows :=
    match options ≫= QueueListOptions.limit with
    | Some n => if (n <=? 0) then rows else take (Z.to_nat n) rows
    | None => rows
    end in
  rowsToJobs clock rows.

Definition has_id (id : Z) (r : PostRow.t) : bool := PostRow.id r =? id.

Definition markComplete (now : Z) (id : Z) (resultJson : string) (db : t) : t :=
  set_posts
    (update_where (has_id id)
       (fun r =>
          {| PostRow.id := PostRow.id r;
             PostRow.platform := PostRow.platform r;
             PostRow.action := PostRow.action r;
             PostRow.status := completed;
             PostRow.scheduled_at := PostRow.scheduled_at r;
             PostRow.content_json := PostRow.content_json r;
             PostRow.file_path := PostRow.file_path r;
             PostRow.result_json := Some resultJson;
             PostRow.error_message := PostRow.error_message r;
             PostRow.retry_count := PostRow.retry_count r;
             PostRow.created_at := PostRow.created_at r;
             PostRow.updated_at := unix_seconds now |})
       (posts db)) db.

Definition fail_row (now : Z) (errorMessage : string) (r : PostRow.t) : PostRow.t :=
  {| PostRow.id := PostRow.id r;
     PostRow.platform := PostRow.platform r;
     PostRow.action := PostRow.action r;
     PostRow.status := failed;
     PostRow.scheduled_at := PostRow.scheduled_at r;
     PostRow.content_json := PostRow.content_json r;
     PostRow.file_path := PostRow.file_path r;
     PostRow.result_json := PostRow.result_json r;
     PostRow.error_message := Some errorMessage;
     PostRow.retry_count := PostRow.retry_count r + 1;
     PostRow.created_at := PostRow.created_at r;
     PostRow.updated_at := unix_seconds now |}.

Definition markFailed (now : Z) (id : Z) (errorMessage : string) (db : t) : t :=
  set_posts (update_where (has_id id) (fail_row now errorMessage) (posts db)) db.

Definition cancel_row (now : Z) (r : PostRow.t) : PostRow.t :=
  {| PostRow.id := PostRow.id r;
     PostRow.platform := PostRow.platform r;
     PostRow.action := PostRow.action r;
     PostRow.status := failed;
     PostRow.scheduled_at := PostRow.scheduled_at r;
     PostRow.content_json := PostRow.content_json r;
     PostRow.file_path := PostRow.file_path r;
     PostRow.result_json := PostRow.result_json r;
     PostRow.error_message := Some "Cancelled by user";
     PostRow.retry_count := PostRow.retry_count r;
     PostRow.created_at := PostRow.created_at r;
     PostRow.updated_at := unix_seconds now |}.

Definition id_and_status (id : Z) (s : Status) (r : PostRow.t) : bool :=
  has_id id r && bool_decide (PostRow.status r = s).

Definition cancelJob (now : Z) (id : Z) (db : t) : bool * t :=
  (0 <? changes (id_and_status id pending) (posts db),
   set_posts (update_where (id_and_status id pending) (cancel_row now) (posts db)) db).

Definition retry_row (now : Z) (r : PostRow.t) : PostRow.t :=
  {| PostRow.id := PostRow.id r;
     PostRow.platform := PostRow.platform r;
     PostRow.action := PostRow.action r;
     PostRow.status := pending;
     PostRow.scheduled_at := PostRow.scheduled_at r;
     PostRow.content_json := PostRow.content_json r;
     PostRow.file_path := PostRow.file_path r;
     PostRow.result_json := PostRow.result_json r;
     PostRow.error_message := None;
     PostRow.retry_count := PostRow.retry_count r;
     PostRow.created_at := PostRow.created_at r;
     PostRow.updated_at := unix_seconds now |}.

Definition retryJob (now : Z) (id : Z) (db : t) : bool * t :=
  (0 <? changes (id_and_status id failed) (posts db),
   set_posts (update_where (id_and_status id failed) (retry_row now) (posts db)) db).

(** [datetime('now', '-${days} days')].  The template prints a negative
    [days] as "--n days", which SQLite rejects: the function is then NULL
    and the comparison with it is never true. *)
Definition cutoff_seconds (now : Z) (days : Z) : option Z :=
  if days <? 0 then None else Some (unix_seconds (now - days * 86400000)).

(** [created_at < datetime('now', '-N days') AND status IN ('completed', 'failed')] *)
Definition purgeable (now : Z) (days : Z) (r : PostRow.t) : bool :=
  match cutoff_seconds now days with
  | None => false
  | Some c => text_lt (created_text r) (sql_text c)
  end
  && (bool_decide (PostRow.status r = completed)
      || bool_decide (PostRow.status r = failed)).

Definition deleteOldPosts (now : Z) (days : Z) (db : t) : Z * t :=
  (changes (purgeable now days) (posts db),
   set_posts (filter (fun r => purgeable now days r = false) (posts db)) db).

(** ** Tokens CRUD *)

Definition saveToken (now : Z) (data : TokenData.t) (db : t) : t :=
  set_tokens
    (<[ TokenData.platform data :=
        {| TokenRow.platform := TokenData.platform data;
           TokenRow.access_token := TokenData.accessToken data;
           TokenRow.refresh_token := truthy (TokenData.refreshToken data);
           TokenRow.expires_at := TokenData.expiresAt data;
           TokenRow.updated_at := unix_seconds now |} ]> (tokens db)) db.

(** The conversion of [getToken] and [listTokens]: [expires_at] holds ISO
    text, [updated_at] zone-less text, read as local time. *)
Definition tokenOfRow (row : TokenRow.t) : TokenData.t :=
  {| TokenData.platform := TokenRow.platform row;
     TokenData.accessToken := TokenRow.access_token row;
     TokenData.refreshToken := TokenRow.refresh_token row;
     TokenData.expiresAt := TokenRow.expires_at row;
     TokenData.updatedAt := Some (local (TokenRow.updated_at row)) |}.

Definition getToken (platform : string) (db : t) : option TokenData.t :=
  tokenOfRow <$> tokens db !! platform.

Definition deleteToken (platform : string) (db : t) : bool * t :=
  (bool_decide (is_Some (tokens db !! platform)),
   set_tokens (delete platform (tokens db)) db).

(** [SELECT * FROM tokens ORDER BY platform] *)
Definition by_platform (a b : TokenRow.t) : comparison :=
  String.compare (TokenRow.platform a) (TokenRow.platform b).

Definition listTokens (db : t) : list TokenData.t :=
  tokenOfRow <$> order_by by_platform (snd <$> map_to_list (tokens db)).

(** ** Database health *)

Definition getDbStats (db : t) : DbStats.t :=
  {| DbStats.posts := Z.of_nat (length (posts db));
     DbStats.pending :=
       Z.of_nat (length (filter (fun r => PostRow.status r = pending) (posts db)));
     DbStats.tokens := Z.of_nat (size (tokens db)) |}.

End Db.

(* ================================================================== *)
(** * Queue operations ([scheduler/queue.ts]) *)
(* ================================================================== *)

(** [content] is the JSON text of the request's content object;
    [scheduledAt] is the instant its ISO-8601 string denotes, [None] when
    the string is absent or empty. *)
Module QueueAddRequest.
Record t : Type := mk {
  platform : string;
  action : string;
  content : string;
  scheduledAt : option Z;
  filePath : option string }.
End QueueAddRequest.

Module Queue.

(** [jsNow] is the reading of [new Date()], [now] the store's clock. *)
Definition addJob (jsNow now : Z) (request : QueueAddRequest.t) (db : Db.t) : Z * Db.t :=
  let scheduledAt :=
    match QueueAddRequest.scheduledAt request with
    | Some t => t
    | None => jsNow
    end in
  Db.addPost now (QueueAddRequest.platform request) (QueueAddRequest.action request)
    (QueueAddRequest.content request) (Some scheduledAt)
    (QueueAddRequest.filePath request) db.

Definition getReadyJobs (now : Z) (clock : nat -> Z) (db : Db.t) : list ScheduledJob.t :=
  Db.getPendingJobs now clock db.

Definition getJob (now : Z) (id : Z) (db : Db.t) : option ScheduledJob.t :=
  Db.getJobById now id db.

Definition listQueue (clock : nat -> Z) (options : option QueueListOptions.t)
    (db : Db.t) : list ScheduledJob.t :=
  Db.listJobs clock options db.

(** [resultJson] is [JSON.stringify(result)]. *)
Definition completeJob (now : Z) (id : Z) (resultJson : string) (db : Db.t) : Db.t :=
  Db.markComplete now id resultJson db.

Definition failJob (now : Z) (id : Z) (error : string) (db : Db.t) : Db.t :=
  Db.markFailed now id error db.

Definition cancel (now : Z) (id : Z) (db : Db.t) : bool * Db.t :=
  Db.cancelJob now id db.

Definition retry (now : Z) (id : Z) (db : Db.t) : bool * Db.t :=
  Db.retryJob now id db.

Definition cleanup (now : Z) (days : Z) (db : Db.t) : Z * Db.t :=
  Db.deleteOldPosts now days db.

Definition getStats (clock : nat -> Z) (db : Db.t) : QueueStats.t :=
  let all := Db.listJobs clock None db in
  {| QueueStats.total := Z.of_nat (length all);
     QueueStats.pending :=
       Z.of_nat (length (filter (fun j => ScheduledJob.status j = pending) all));
     QueueStats.completed :=
       Z.of_nat (length (filter (fun j => ScheduledJob.status j = completed) all));
     QueueStats.failed :=
       Z.of_nat (length (filter (fun j => ScheduledJob.status j = failed) all)) |}.

End Queue.

(* ================================================================== *)
(** * The dispatch loop ([scheduler/cron.ts]) *)
(* ================================================================== *)

Module Scheduler.

(** What [await executeSkill(job)] does: it resolves to a result, or it
    throws; [Threw (Some m)] is an [Error] with message [m], [Threw None]
    any other thrown value. *)
Inductive Outcome : Type :=
  | Returned (result : SkillResult.t)
  | Threw (message : option string).

(** A finished skill process. *)
Record Exited : Type := mkExited {
  exitCode : Z;
  output : string;
  stderr : string }.

(** The database and the files removed so far. *)
Record World : Type := mkWorld {
  db : Db.t;
  unlinked : list string }.

(** How a template literal prints an optional string. *)
Definition interpolate (o : option string) : string :=
  match o with
  | Some s => s
  | None => "undefined"
  end.

Section Dispatch.

(** The configured retry ceiling; the skill process spawned for a job;
    [JSON.parse] on a job's content ([Some m] when it throws a
    [SyntaxError] with message [m]) and on a skill's output ([None] when it
    throws); and [JSON.stringify] on skill results. *)
Variable MAX_RETRIES : Z.
Variable spawn : ScheduledJob.t -> Exited.
Variable parse_content : string -> option string.
Variable parse_result : string -> option SkillResult.t.
Variable JSON_stringify : SkillResult.t -> string.

Definition failure (job : ScheduledJob.t) (error : string) : SkillResult.t :=
  SkillResult.mk false (ScheduledJob.platform job) (ScheduledJob.action job)
    None None None None None (Some error) None.

Definition executeSkill (job : ScheduledJob.t) : Outcome :=
  match parse_content (ScheduledJob.contentJson job) with
  | Some message => Threw (Some message)
  | None =>
      let proc := spawn job in
      if negb (exitCode proc =? 0) then
        Returned
          (failure job
             (default ("Skill exited with code " +:+ pretty (exitCode proc))
                (truthy (Some (stderr proc)))))
      else
        match parse_result (output proc) with
        | Some result => Returned result
        | None => Returned (failure job ("Invalid JSON output: " +:+ output proc))
        end
  end.

Definition fail (now : Z) (job : ScheduledJob.t) (error : string) (w : World) : World :=
  mkWorld (Queue.failJob now (ScheduledJob.id job) error (db w)) (unlinked w).

(** The body of the [for] loop of [processJobs]. *)
Definition process_job (now : Z) (job : ScheduledJob.t) (w : World) : World :=
  if MAX_RETRIES <=? ScheduledJob.retryCount job then
    fail now job "Max retries exceeded" w
  else
    match executeSkill job with
    | Returned result =>
        if SkillResult.success result then
          let db' :=
            Queue.completeJob now (ScheduledJob.id job) (JSON_stringify result) (db w) in
          match truthy (ScheduledJob.filePath job) with
          | Some path => mkWorld db' (path :: unlinked w)
          | None => mkWorld db' (unlinked w)
          end
        else if bool_decide (SkillResult.needsAuth result = Some true) then
          fail now job ("Authentication required: " +:+ interpolate (SkillResult.error result)) w
        else
          fail now job (default "Unknown error" (truthy (SkillResult.error result))) w
    | Threw message =>
        fail now job (default "Unknown error" message) w
    end.

Fixpoint run_jobs (clock : nat -> Z) (k : nat) (jobs : list ScheduledJob.t)
    (w : World) : World :=
  match jobs with
  | [] => w
  | job :: rest => run_jobs clock (S k) rest (process_job (clock k) job w)
  end.

(** [processJobs]: [now] is the store's clock at the ready-set query,
    [jsClock] the readings of [new Date()] while the rows are converted,
    [clock k] the store's clock when the [k]-th job is settled. *)
Definition processJobs (now : Z) (jsClock clock : nat -> Z) (w : World) : World :=
  run_jobs clock 0 (Queue.getReadyJobs now jsClock (db w)) w.

Definition runCleanup (RETENTION_DAYS : Z) (now : Z) (w : World) : World :=
  mkWorld (snd (Queue.cleanup now RETENTION_DAYS (db w))) (unlinked w).

End Dispatch.

End Scheduler.

(* ================================================================== *)
(** * Credential lifecycle ([auth/token-manager.ts]) *)
(* ================================================================== *)

Module TokenManager.

Definition REFRESH_BUFFER_MS : Z := 5 * 60 * 1000.

Definition needsRefresh (now : Z) (token : TokenData.t) : bool :=
  match TokenData.expiresAt token with
  | None => false
  | Some e => e - now <? REFRESH_BUFFER_MS
  end.

Definition isExpired (now : Z) (token : TokenData.t) : bool :=
  match TokenData.expiresAt token with
  | None => false
  | Some e => e <=? now
  end.

(** What awaiting [refreshFn(token)] does: the promise resolves to a
    token or to [null], or it rejects. *)
Inductive Refreshed : Type :=
  | Resolved (newToken : option TokenData.t)
  | Rejected.

(** The result of [getValidToken], the store afterwards, and the arguments
    of the calls made to [refreshFn], in order.  [clock 0] and [clock 1]
    are the readings of [Date.now()] in [needsRefresh] and [isExpired],
    [clock 2] the store's clock in [saveToken]. *)
Definition getValidToken (clock : nat -> Z) (platform : string)
    (refreshFn : option (TokenData.t -> Refreshed)) (db : Db.t)
    : option TokenData.t * Db.t * list TokenData.t :=
  match Db.getToken platform db with
  | None => (None, db, [])
  | Some token =>
      if negb (needsRefresh (clock 0%nat) token) && negb (isExpired (clock 1%nat) token)
      then (Some token, db, [])
      else
        match truthy (TokenData.refreshToken token) with
        | None => (None, db, [])
        | Some _ =>
            match refreshFn with
            | None => (None, db, [])
            | Some fn =>
                match fn token with
                | Resolved (Some newToken) =>
                    (Some newToken, Db.saveToken (clock 2%nat) newToken db, [token])
                | Resolved None => (None, db, [token])
                | Rejected => (None, db, [token])
                end
            end
        end
  end.

Definition storeToken (now : Z) (data : TokenData.t) (db : Db.t) : Db.t :=
  Db.saveToken now data db.

Definition removeToken (platform : string) (db : Db.t) : bool * Db.t :=
  Db.deleteToken platform db.

(** [getTokenStatus]; [clock 0] and [clock 1] are the readings of
    [Date.now()] in [isExpired] and [needsRefresh]. *)
Record TokenStatus : Type := mkStatus {
  exists_ : bool;
  expired : bool;
  needsRefresh_ : bool;
  expiresAt : option Z }.

Definition getTokenStatus (clock : nat -> Z) (platform : string) (db : Db.t)
    : TokenStatus :=
  match Db.getToken platform db with
  | None => mkStatus false true true None
  | Some token =>
      mkStatus true (isExpired (clock 0%nat) token) (needsRefresh (clock 1%nat) token)
        (TokenData.expiresAt token)
  end.

Definition calculateExpiration (now : Z) (expiresIn : Z) : Z :=
  now + expiresIn * 1000.

(** [expiresIn ? calculateExpiration(expiresIn) : undefined]: zero is falsy. *)
Definition createTokenData (now : Z) (platform accessToken : string)
    (refreshToken : option string) (expiresIn : option Z) : TokenData.t :=
  {| TokenData.platform := platform;
     TokenData.accessToken := accessToken;
     TokenData.refreshToken := refreshToken;
     TokenData.expiresAt :=
       match expiresIn with
       | Some n => if n =? 0 then None else Some (calculateExpiration now n)
       | None => None
       end;
     TokenData.updatedAt := None |}.

End TokenManager.

(* ================================================================== *)
(** * Node's [crypto] and [Buffer] encodings used by the OAuth server *)
(* ================================================================== *)

Module Crypto.
Open Scope N_scope.

(** ** Encodings of [Buffer.toString] *)

Definition hex_digit (n : N) : ascii :=
  ascii_of_N (if n <? 10 then 48 + n else 87 + n).

Fixpoint hex (bytes : list Byte.byte) : string :=
  match bytes with
  | [] => EmptyString
  | b :: rest =>
      let n := Byte.to_N b in
      String (hex_digit (n / 16)) (String (hex_digit (n mod 16)) (hex rest))
  end.

(** The URL-safe base64 alphabet: A-Z a-z 0-9 - _ *)
Definition b64_char (n : N) : ascii :=
  ascii_of_N
    (if n <? 26 then 65 + n
     else if n <? 52 then 71 + n
     else if n <? 62 then n - 4
     else if n =? 62 then 45 else 95).

(** [toString('base64url')]: three bytes to four characters, no padding. *)
Fixpoint base64url_N (bytes : list N) : string :=
  match bytes with
  | [] => EmptyString
  | [a] =>
      String (b64_char (a / 4)) (String (b64_char (a mod 4 * 16)) EmptyString)
  | [a; b] =>
      String (b64_char (a / 4))
        (String (b64_char (a mod 4 * 16 + b / 16))
           (String (b64_char (b mod 16 * 4)) EmptyString))
  | a :: b :: c :: rest =>
      String (b64_char (a / 4))
        (String (b64_char (a mod 4 * 16 + b / 16))
           (String (b64_char (b mod 16 * 4 + c / 64))
              (String (b64_char (c mod 64)) (base64url_N rest))))
  end.

Definition base64url (bytes : list Byte.byte) : string :=
  base64url_N (map Byte.to_N bytes).

(** ** SHA-256 (FIPS 180-4) on 32-bit words held in [N] *)

Definition add32 (a b : N) : N := (a + b) mod 4294967296.
Definition rotr (n x : N) : N :=
  N.lor (N.shiftr x n) (N.shiftl x (32 - n) mod 4294967296).
Definition not32 (x : N) : N := N.lxor x 4294967295.
Definition Ch (x y z : N) : N := N.lxor (N.land x y) (N.land (not32 x) z).
Definition Maj (x y z : N) : N :=
  N.lxor (N.lxor (N.land x y) (N.land x z)) (N.land y z).
Definition bsig0 (x : N) : N := N.lxor (N.lxor (rotr 2 x) (rotr 13 x)) (rotr 22 x).
Definition bsig1 (x : N) : N := N.lxor (N.lxor (rotr 6 x) (rotr 11 x)) (rotr 25 x).
Definition ssig0 (x : N) : N := N.lxor (N.lxor (rotr 7 x) (rotr 18 x)) (N.shiftr x 3).
Definition ssig1 (x : N) : N := N.lxor (N.lxor (rotr 17 x) (rotr 19 x)) (N.shiftr x 10).

Definition K256 : list N :=
  [1116352408; 1899447441; 3049323471; 3921009573; 961987163; 1508970993;
   2453635748; 2870763221; 3624381080; 310598401; 607225278; 1426881987;
   1925078388; 2162078206; 2614888103; 3248222580; 3835390401; 4022224774;
   264347078; 604807628; 770255983; 1249150122; 1555081692; 1996064986;
   2554220882; 2821834349; 2952996808; 3210313671; 3336571891; 3584528711;
   113926993; 338241895; 666307205; 773529912; 1294757372; 1396182291;
   1695183700; 1986661051; 2177026350; 2456956037; 2730485921; 2820302411;
   3259730800; 3345764771; 3516065817; 3600352804; 4094571909; 275423344;
   430227734; 506948616; 659060556; 883997877; 958139571; 1322822218;
   1537002063; 1747873779; 1955562222; 2024104815; 2227730452; 2361852424;
   2428436474; 2756734187; 3204031479; 3329325298].

Definition H256 : list N :=
  [1779033703; 3144134277; 1013904242; 2773480762; 1359893119; 2600822924;
   528734635; 1541459225].

(** Big-endian words of a byte sequence, four bytes at a time. *)
Fixpoint words_of (bytes : list N) : list N :=
  match bytes with
  | a :: b :: c :: d :: rest =>
      (((a * 256 + b) * 256 + c) * 256 + d) :: words_of rest
  | _ => []
  end.

Definition bytes_of_word (w : N) : list N :=
  [w / 16777216; w / 65536 mod 256; w / 256 mod 256; w mod 256].

(** The message followed by the bit 1, zeros, and its length in bits as a
    64-bit big-endian number, to a multiple of 64 bytes. *)
Definition pad (msg : list N) : list N :=
  let len := N.of_nat (length msg) in
  let zeros := (64 - (len + 9) mod 64) mod 64 in
  let bits := len * 8 in
  msg ++ [128] ++ repeat 0 (N.to_nat zeros)
      ++ bytes_of_word (bits / 4294967296) ++ bytes_of_word (bits mod 4294967296).

(** The message schedule, most recent word first. *)
Fixpoint schedule (n : nat) (rev_w : list N) : list N :=
  match n with
  | O => rev_w
  | S n' =>
      let w := add32 (add32 (ssig1 (nth 1 rev_w 0)) (nth 6 rev_w 0))
                     (add32 (ssig0 (nth 14 rev_w 0)) (nth 15 rev_w 0)) in
      schedule n' (w :: rev_w)
  end.

Definition round (s : list N) (kw : N * N) : list N :=
  match s with
  | [a; b; c; d; e; f; g; h] =>
      let t1 := add32 (add32 (add32 h (bsig1 e)) (add32 (Ch e f g) (fst kw))) (snd kw) in
      let t2 := add32 (bsig0 a) (Maj a b c) in
      [add32 t1 t2; a; b; c; add32 d t1; e; f; g]
  | _ => s
  end.

Definition compress (h : list N) (block : list N) : list N :=
  let w := rev (schedule 48 (rev block)) in
  zip_with add32 h (fold_left round (zip K256 w) h).

Fixpoint blocks (n : nat) (ws : list N) : list (list N) :=
  match n with
  | O => []
  | S n' => take 16 ws :: blocks n' (drop 16 ws)
  end.

Definition sha256 (msg : list N) : list N :=
  let ws := words_of (pad msg) in
  concat (map bytes_of_word
            (fold_left compress (blocks (length ws / 16) ws) H256)).

Definition bytes_of_string (s : string) : list N :=
  map N_of_ascii (list_ascii_of_string s).

(** [createHash('sha256').update(s).digest('base64url')] *)
Definition sha256_base64url (s : string) : string :=
  base64url_N (sha256 (bytes_of_string s)).

End Crypto.

(* ================================================================== *)
(** * The OAuth callback server ([auth/oauth-server.ts]) *)
(* ================================================================== *)

Module OAuth.

(** The environment variables the server reads. *)
Record Env : Type := mkEnv {
  YOUTUBE_CLIENT_ID : option string;
  YOUTUBE_CLIENT_SECRET : option string;
  YOUTUBE_REDIRECT_URI : option string;
  FACEBOOK_APP_ID : option string;
  FACEBOOK_APP_SECRET : option string;
  FACEBOOK_REDIRECT_URI : option string;
  TIKTOK_CLIENT_KEY : option string;
  TIKTOK_CLIENT_SECRET : option string;
  TIKTOK_REDIRECT_URI : option string }.

(** A URL or request with its [URLSearchParams], kept as the list of
    key-value pairs before percent-encoding. *)
Record AuthUrl : Type := mkUrl {
  endpoint : string;
  params : list (string * string) }.

Record TokenRequest : Type := mkRequest {
  target : string;
  method : string;
  fields : list (string * string) }.

(** [URLSearchParams.get]: the first value under a key. *)
Fixpoint get_param (key : string) (l : list (string * string)) : option string :=
  match l with
  | [] => None
  | (k, v) :: rest => if String.eqb k key then Some v else get_param key rest
  end.

(** The token endpoint's JSON reply, and what [await fetch(...)] does. *)
Record TokenResponse : Type := mkTokenResponse {
  access_token : option string;
  refresh_token : option string;
  expires_in : option Z }.

Inductive Fetched : Type :=
  | NetworkError
  | Replied (ok : bool) (text : string) (json : option TokenResponse).

Inductive Exc (A : Type) : Type :=
  | Ok (a : A)
  | Throw (message : string).
Arguments Ok {A} a.
Arguments Throw {A} message.

(** The module-level state: the [oauthStates] map, the pending
    [setTimeout] callbacks (due time and the state token each deletes),
    and the number of [randomBytes] calls made so far. *)
Record Server : Type := mkServer {
  oauthStates : gmap string OAuthState.t;
  timers : list (Z * string);
  draws : nat }.

(** The server state, the database, and the requests sent to the
    providers so far, latest first. *)
Record World : Type := mkWorld {
  server : Server;
  store : Db.t;
  sent : list TokenRequest }.

Record Request : Type := mkReq {
  pathname : string;
  code : option string;
  state : option string;
  error : option string }.

Inductive Page : Type :=
  | HealthOk
  | AuthenticationFailed (error : string)
  | InvalidRequest
  | InvalidState
  | AuthenticationSuccessful (platform : string)
  | AuthenticationError (message : string)
  | NotFound.

Record Response : Type := mkResponse {
  status : Z;
  page : Page }.

(** [/^\/auth\/(\w+)\/callback$/] *)
Definition is_word (c : ascii) : bool :=
  let n := N_of_ascii c in
  ((48 <=? n) && (n <=? 57) || (65 <=? n) && (n <=? 90)
   || (n =? 95) || (97 <=? n) && (n <=? 122))%N.

Fixpoint span_word (s : string) : string * string :=
  match s with
  | String c rest =>
      if is_word c then
        let '(w, tail) := span_word rest in (String c w, tail)
      else (EmptyString, s)
  | EmptyString => (EmptyString, EmptyString)
  end.

Fixpoint strip_prefix (p s : string) : option string :=
  match p, s with
  | EmptyString, _ => Some s
  | String a p', String b s' => if Ascii.eqb a b then strip_prefix p' s' else None
  | String _ _, EmptyString => None
  end.

Definition callback_platform (pathname : string) : option string :=
  match strip_prefix "/auth/" pathname with
  | Some rest =>
      let '(w, tail) := span_word rest in
      if negb (String.eqb w "") && String.eqb tail "/callback" then Some w else None
  | None => None
  end.

Section Server.

(** [randomBytes k n]: the bytes the [k]-th call of [crypto.randomBytes]
    returns when asked for [n] of them. *)
Variable randomBytes : nat -> nat -> list Byte.byte.

(** [fetch]: the reply of the network to a request. *)
Variable fetch : TokenRequest -> Fetched.

Variable env : Env.

Definition generatePKCE (srv : Server) : (string * string) * Server :=
  let codeVerifier := Crypto.base64url (randomBytes (draws srv) 32) in
  let codeChallenge := Crypto.sha256_base64url codeVerifier in
  ((codeVerifier, codeChallenge),
   mkServer (oauthStates srv) (timers srv) (S (draws srv))).

Definition generateState (now : Z) (platform userId : string) (srv : Server)
    : string * Server :=
  let state := Crypto.hex (randomBytes (draws srv) 16) in
  (state,
   mkServer
     (<[ state := OAuthState.mk platform userId None None ]> (oauthStates srv))
     (timers srv ++ [(now + 10 * 60 * 1000, state)])
     (S (draws srv))).

Definition verifyState (state : string) (srv : Server) : option OAuthState.t * Server :=
  match oauthStates srv !! state with
  | Some data =>
      (Some data, mkServer (delete state (oauthStates srv)) (timers srv) (draws srv))
  | None => (None, srv)
  end.

(** The event loop running the [setTimeout] callbacks that are due. *)
Definition runTimers (now : Z) (srv : Server) : Server :=
  mkServer
    (foldr (fun '(due, state) m => if due <=? now then delete state m else m)
       (oauthStates srv) (timers srv))
    (filter (fun '(due, _) => now < due) (timers srv))
    (draws srv).

Definition generateYouTubeAuthUrl (now : Z) (userId : string) (srv : Server)
    : Exc AuthUrl * Server :=
  match truthy (YOUTUBE_CLIENT_ID env), truthy (YOUTUBE_REDIRECT_URI env) with
  | Some clientId, Some redirectUri =>
      let '((_, codeChallenge), srv1) := generatePKCE srv in
      let '(state, srv2) := generateState now "youtube" userId srv1 in
      let srv3 :=
        match oauthStates srv2 !! state with
        | Some stateData =>
            let '((codeVerifier, _), srv') := generatePKCE srv2 in
            mkServer
              (<[ state := OAuthState.mk (OAuthState.platform stateData)
                             (OAuthState.userId stateData) (Some codeVerifier)
                             (OAuthState.redirectPath stateData) ]> (oauthStates srv'))
              (timers srv') (draws srv')
        | None => srv2
        end in
      (Ok (mkUrl "https://accounts.google.com/o/oauth2/v2/auth"
             [("client_id", clientId);
              ("redirect_uri", redirectUri);
              ("response_type", "code");
              ("scope", "https://www.googleapis.com/auth/youtube.upload https://www.googleapis.com/auth/youtube.readonly");
              ("access_type", "offline");
              ("state", state);
              ("code_challenge", codeChallenge);
              ("code_challenge_method", "S256");
              ("prompt", "consent")]),
       srv3)
  | _, _ => (Throw "YouTube OAuth credentials not configured", srv)
  end.

Definition generateFacebookAuthUrl (now : Z) (userId : string) (srv : Server)
    : Exc AuthUrl * Server :=
  match truthy (FACEBOOK_APP_ID env), truthy (FACEBOOK_REDIRECT_URI env) with
  | Some appId, Some redirectUri =>
      let '(state, srv1) := generateState now "facebook" userId srv in
      (Ok (mkUrl "https://www.facebook.com/v18.0/dialog/oauth"
             [("client_id", appId);
              ("redirect_uri", redirectUri);
              ("response_type", "code");
              ("scope", "pages_manage_posts,pages_read_engagement,instagram_basic,instagram_content_publish");
              ("state", state)]),
       srv1)
  | _, _ => (Throw "Facebook OAuth credentials not configured", srv)
  end.

Definition generateTikTokAuthUrl (now : Z) (userId : string) (srv : Server)
    : Exc AuthUrl * Server :=
  match truthy (TIKTOK_CLIENT_KEY env), truthy (TIKTOK_REDIRECT_URI env) with
  | Some clientKey, Some redirectUri =>
      let '(state, srv1) := generateState now "tiktok" userId srv in
      (Ok (mkUrl "https://www.tiktok.com/v2/auth/authorize"
             [("client_key", clientKey);
              ("redirect_uri", redirectUri);
              ("response_type", "code");
              ("scope", "video.upload,video.publish");
              ("state", state)]),
       srv1)
  | _, _ => (Throw "TikTok OAuth credentials not configured", srv)
  end.

Definition generateAuthUrl (now : Z) (platform userId : string) (srv : Server)
    : Exc AuthUrl * Server :=
  if String.eqb platform "youtube" then generateYouTubeAuthUrl now userId srv
  else if String.eqb platform "facebook" then generateFacebookAuthUrl now userId srv
  else if String.eqb platform "tiktok" then generateTikTokAuthUrl now userId srv
  else (Throw ("Unknown platform: " +:+ platform), srv).

(** ** Token exchange *)

(** The common tail of the three exchanges: read the reply, build the
    token and store it.  A reply that is not JSON, or that carries no
    access token for the NOT NULL column, makes the exchange throw. *)
Definition settle (now : Z) (platform : string) (keepRefresh : bool)
    (reply : Fetched) (w : World) : Exc unit * World :=
  match reply with
  | NetworkError => (Throw "fetch failed", w)
  | Replied false text _ => (Throw ("Token exchange failed: " +:+ text), w)
  | Replied true _ None => (Throw "Unexpected end of JSON input", w)
  | Replied true _ (Some data) =>
      match access_token data with
      | None => (Throw "NOT NULL constraint failed: tokens.access_token", w)
      | Some accessToken =>
          let tokenData :=
            TokenManager.createTokenData now platform accessToken
              (if keepRefresh then refresh_token data else None)
              (expires_in data) in
          (Ok tt, mkWorld (server w) (TokenManager.storeToken now tokenData (store w)) (sent w))
      end
  end.

Definition send (request : TokenRequest) (w : World) : World :=
  mkWorld (server w) (store w) (request :: sent w).

Definition exchangeYouTubeCode (now : Z) (code state : string) (w : World)
    : Exc unit * World :=
  match truthy (YOUTUBE_CLIENT_ID env), truthy (YOUTUBE_CLIENT_SECRET env),
        truthy (YOUTUBE_REDIRECT_URI env) with
  | Some clientId, Some clientSecret, Some redirectUri =>
      let stateData := oauthStates (server w) !! state in
      let codeVerifier := stateData ≫= OAuthState.codeVerifier in
      let request :=
        mkRequest "https://oauth2.googleapis.com/token" "POST"
          ([("client_id", clientId);
            ("client_secret", clientSecret);
            ("code", code);
            ("redirect_uri", redirectUri);
            ("grant_type", "authorization_code")]
           ++ match truthy codeVerifier with
              | Some v => [("code_verifier", v)]
              | None => []
              end) in
      settle now "youtube" true (fetch request) (send request w)
  | _, _, _ => (Throw "YouTube OAuth credentials not configured", w)
  end.

Definition exchangeFacebookCode (now : Z) (code : string) (w : World)
    : Exc unit * World :=
  match truthy (FACEBOOK_APP_ID env), truthy (FACEBOOK_APP_SECRET env),
        truthy (FACEBOOK_REDIRECT_URI env) with
  | Some appId, Some appSecret, Some redirectUri =>
      let bare := mkRequest "https://graph.facebook.com/v18.0/oauth/access_token" "GET" [] in
      match fetch bare with
      | NetworkError => (Throw "fetch failed", send bare w)
      | Replied _ _ _ =>
          let request :=
            mkRequest "https://graph.facebook.com/v18.0/oauth/access_token" "GET"
              [("client_id", appId);
               ("client_secret", appSecret);
               ("code", code);
               ("redirect_uri", redirectUri)] in
          settle now "facebook" false (fetch request) (send request (send bare w))
      end
  | _, _, _ => (Throw "Facebook OAuth credentials not configured", w)
  end.

Definition exchangeTikTokCode (now : Z) (code : string) (w : World)
    : Exc unit * World :=
  match truthy (TIKTOK_CLIENT_KEY env), truthy (TIKTOK_CLIENT_SECRET env),
        truthy (TIKTOK_REDIRECT_URI env) with
  | Some clientKey, Some clientSecret, Some redirectUri =>
      let request :=
        mkRequest "https://open.tiktokapis.com/v2/oauth/token/" "POST"
          [("client_key", clientKey);
           ("client_secret", clientSecret);
           ("code", code);
           ("redirect_uri", redirectUri);
           ("grant_type", "authorization_code")] in
      settle now "tiktok" true (fetch request) (send request w)
  | _, _, _ => (Throw "TikTok OAuth credentials not configured", w)
  end.

(** ** The HTTP request handler of [startOAuthServer] *)

Definition exchange (now : Z) (platform code state : string) (w : World)
    : Exc unit * World :=
  if String.eqb platform "youtube" then exchangeYouTubeCode now code state w
  else if String.eqb platform "facebook" then exchangeFacebookCode now code w
  else if String.eqb platform "tiktok" then exchangeTikTokCode now code w
  else (Throw ("Unknown platform: " +:+ platform), w).

Definition handle (now : Z) (req : Request) (w : World) : Response * World :=
  if String.eqb (pathname req) "/health" then (mkResponse 200 HealthOk, w)
  else
    match callback_platform (pathname req) with
    | Some platform =>
        match truthy (error req) with
        | Some e => (mkResponse 400 (AuthenticationFailed e), w)
        | None =>
            match truthy (code req), truthy (state req) with
            | Some code, Some state =>
                let '(stateData, srv) := verifyState state (server w) in
                let w1 := mkWorld srv (store w) (sent w) in
                match stateData with
                | None => (mkResponse 400 InvalidState, w1)
                | Some _ =>
                    match exchange now platform code state w1 with
                    | (Ok _, w2) =>
                        (mkResponse 200 (AuthenticationSuccessful platform), w2)
                    | (Throw message, w2) =>
                        (mkResponse 500 (AuthenticationError message), w2)
                    end
                end
            | _, _ => (mkResponse 400 InvalidRequest, w)
            end
        end
    | None => (mkResponse 404 NotFound, w)
    end.

End Server.

End OAuth.

(* ================================================================== *)
(** * Three-way comparisons *)
(* ================================================================== *)

(** A three-way comparison that behaves like one: swapping the arguments
    flips the answer, [Eq] arguments are interchangeable, [Lt] is
    transitive. *)
Class Comparator {A : Type} (c : A -> A -> comparison) : Prop := {
  cmp_antisym : forall x y, c x y = CompOpp (c y x);
  cmp_eq_l : forall x y z, c x y = Eq -> c x z = c y z;
  cmp_lt_trans : forall x y z, c x y = Lt -> c y z = Lt -> c x z = Lt }.

(** [x] does not compare greater than [y]. *)
Definition cmp_le {A} (c : A -> A -> comparison) (x y : A) : Prop := c x y <> Gt.

(* ================================================================== *)
(** * Runs: repeated operations and server events *)
(* ================================================================== *)

Module Runs.

(** [markFailed] called once per element of [calls], each with its own
    clock reading and message. *)
Definition fail_all (id : Z) (calls : list (Z * string)) (db : Db.t) : Db.t :=
  foldl (fun d '(now, msg) => Db.markFailed now id msg d) db calls.

(** What the OAuth server does between two callbacks of interest: it
    serves further requests, the event loop runs due timers, and new
    handshakes are begun. *)
Inductive Event : Type :=
  | Incoming (now : Z) (req : OAuth.Request)
  | Tick (now : Z)
  | Begin (now : Z) (platform userId : string).

Definition step (randomBytes : nat -> nat -> list Byte.byte)
    (fetch : OAuth.TokenRequest -> OAuth.Fetched) (env : OAuth.Env)
    (w : OAuth.World) (e : Event) : OAuth.World :=
  match e with
  | Incoming now req => snd (OAuth.handle fetch env now req w)
  | Tick now =>
      OAuth.mkWorld (OAuth.runTimers now (OAuth.server w)) (OAuth.store w) (OAuth.sent w)
  | Begin now platform userId =>
      OAuth.mkWorld
        (snd (OAuth.generateAuthUrl randomBytes env now platform userId (OAuth.server w)))
        (OAuth.store w) (OAuth.sent w)
  end.

Definition run (randomBytes : nat -> nat -> list Byte.byte)
    (fetch : OAuth.TokenRequest -> OAuth.Fetched) (env : OAuth.Env)
    (events : list Event) (w : OAuth.World) : OAuth.World :=
  foldl (step randomBytes fetch env) w events.

(** A state token the generator does not issue from its [d]-th call on,
    and a server in which the token names no session after at least [d]
    calls of the generator. *)
Definition not_reissued (randomBytes : nat -> nat -> list Byte.byte) (d : nat)
    (token : string) : Prop :=
  forall k : nat, (d <= k)%nat -> Crypto.hex (randomBytes k 16%nat) <> token.

Definition consumed (d : nat) (token : string) (srv : OAuth.Server) : Prop :=
  OAuth.oauthStates srv !! token = None /\ (d <= OAuth.draws srv)%nat.

End Runs.

(* ================================================================== *)
(** * Sample data for the worked instances *)
(* ================================================================== *)

Module Samples.

(** 2024-01-01T12:00:00.000Z, and the same instant in Unix seconds. *)
Definition noon : Z := 1704110400000.
Definition noon_s : Z := 1704110400.
Definition hour : Z := 3600000.
Definition day : Z := 86400000.

Definition row (id : Z) (st : Status) (scheduled : option Z) (retries : Z)
    (created : Z) : PostRow.t :=
  PostRow.mk id "youtube" "upload" st scheduled "{}" None None None
    retries created created.

Definition store (rows : list PostRow.t) : Db.t :=
  Db.mk rows (foldr Z.max 0 (PostRow.id <$> rows)) ∅.

Definition steady (t : Z) : nat -> Z := fun _ => t.

Definition result (ok : bool) (error : option string) (needsAuth : option bool)
    : SkillResult.t :=
  SkillResult.mk ok "youtube" "upload" None None None None None error needsAuth.

Definition token (expiresAt : option Z) (refreshToken : option string) : TokenData.t :=
  TokenData.mk "youtube" "access-0" refreshToken expiresAt None.

Definition with_token (t : TokenData.t) : Db.t :=
  Db.saveToken noon t (store []).

(** The bytes the [k]-th call of [randomBytes] returns. *)
Definition entropy (k n : nat) : list Byte.byte :=
  repeat (match k with
          | O => Byte.x11
          | S O => Byte.x22
          | _ => Byte.x33
          end) n.

Definition env : OAuth.Env :=
  OAuth.mkEnv (Some "client-id") (Some "client-secret")
    (Some "http://localhost:3000/auth/youtube/callback")
    None None None None None None.

(** A network on which every token request succeeds. *)
Definition network (request : OAuth.TokenRequest) : OAuth.Fetched :=
  OAuth.Replied true ""
    (Some (OAuth.mkTokenResponse (Some "access-1") (Some "refresh-1") (Some 3600))).

Definition idle : OAuth.World :=
  OAuth.mkWorld (OAuth.mkServer ∅ [] 0) (store []) [].

Definition callback (state : string) : OAuth.Request :=
  OAuth.mkReq "/auth/youtube/callback" (Some "code-1") (Some state) None.

(** Rows used below: a job that has failed three times and one that has
    failed twice, both waiting again; a job due two hours ago; jobs
    scheduled two and three days ago; an unscheduled job and another
    added in the same second; and old and recent settled jobs. *)
Definition failed_thrice : PostRow.t := row 1 pending None 3 noon_s.
Definition failed_twice : PostRow.t := row 1 pending None 2 noon_s.
Definition due_this_morning : PostRow.t :=
  row 1 pending (Some (noon - 2 * hour)) 0 (noon_s - 86400).
Definition two_days_ago : PostRow.t :=
  row 1 pending (Some (noon - 2 * day)) 0 (noon_s - 300).
Definition unscheduled : PostRow.t := row 2 pending None 0 (noon_s - 200).
Definition twin : PostRow.t := row 4 pending None 0 (noon_s - 200).
Definition three_days_ago : PostRow.t :=
  row 3 pending (Some (noon - 3 * day)) 0 (noon_s - 100).
Definition old_completed : PostRow.t := row 1 completed None 0 (noon_s - 8 * 86400).
Definition old_pending : PostRow.t := row 2 pending None 0 (noon_s - 8 * 86400).
Definition recent_failed : PostRow.t := row 3 failed None 1 (noon_s - 86400).
Definition once_failed : PostRow.t := row 1 failed None 1 noon_s.

(** Four waiting jobs in the order of their ids. *)
Definition four_waiting : Db.t :=
  store [two_days_ago; unscheduled; three_days_ago; twin].

(** A skill that exits normally after printing that authentication is
    needed, and the JSON parser on the texts it is given here. *)
Definition unauthenticated (job : ScheduledJob.t) : Scheduler.Exited :=
  Scheduler.mkExited 0 "{needsAuth}" "".
Definition content_ok (text : string) : option string := None.
Definition parse (text : string) : option SkillResult.t :=
  if String.eqb text "{needsAuth}"
  then Some (result false (Some "token expired") (Some true))
  else None.

Definition stringify (r : SkillResult.t) : string := "{}".

(** A refresh function that resolves to a new credential. *)
Definition renewed : TokenData.t :=
  TokenData.mk "youtube" "access-1" (Some "refresh-1") (Some (noon + hour)) None.
Definition renew (t : TokenData.t) : TokenManager.Refreshed :=
  TokenManager.Resolved (Some renewed).

(** A server holding one session, under the state token "s1". *)
Definition waiting : OAuth.World :=
  OAuth.mkWorld
    (OAuth.mkServer {[ "s1" := OAuthState.mk "youtube" "user-1" None None ]}
       [(noon + 600000, "s1")] 1)
    (store []) [].

End Samples.

(* ================================================================== *)
(** * Credential helpers of the platform modules
      ([platforms/youtube.ts], [platforms/facebook.ts], [platforms/tiktok.ts]) *)
(* ================================================================== *)

Module Platforms.

(** What the providers answer to a refresh: [None] when the HTTP call
    throws. *)
Record GoogleCredentials : Type := mkGoogle {
  access_token : string;
  refresh_token : option string;
  expiry_date : option Z }.

Module YouTube.
Section Refresh.

(** [oauth2Client.refreshAccessToken()] for a refresh token. *)
Variable refreshAccessToken : string -> option GoogleCredentials.

(** [refreshYouTubeToken]; [now] is the reading of [Date.now()] in the
    expression of the remaining seconds, [now'] the one in
    [calculateExpiration].  [Math.floor] of a quotient is [Z.div]. *)
Definition refreshYouTubeToken (now now' : Z) (token : TokenData.t)
    : TokenManager.Refreshed :=
  match truthy (TokenData.refreshToken token) with
  | None => TokenManager.Resolved None
  | Some refreshToken =>
      match refreshAccessToken refreshToken with
      | None => TokenManager.Resolved None
      | Some credentials =>
          TokenManager.Resolved
            (Some
               (TokenManager.createTokenData now' "youtube" (access_token credentials)
                  (match truthy (refresh_token credentials) with
                   | Some r => Some r
                   | None => TokenData.refreshToken token
                   end)
                  (match expiry_date credentials with
                   | Some e => if e =? 0 then None else Some ((e - now) / 1000)
                   | None => None
                   end)))
      end
  end.

(** [getYouTubeClient], as the credential the client is built from. *)
Definition getYouTubeClient (clock : nat -> Z) (now now' : Z) (db : Db.t)
    : option TokenData.t * Db.t * list TokenData.t :=
  TokenManager.getValidToken clock "youtube" (Some (refreshYouTubeToken now now')) db.

Definition isAuthenticated (clock : nat -> Z) (now now' : Z) (db : Db.t) : bool :=
  bool_decide (is_Some (fst (fst (getYouTubeClient clock now now' db)))).

End Refresh.
End YouTube.

Module Facebook.
Section Refresh.

(** The Graph API's answer to [fb_exchange_token]: the new access token
    and [expires_in]. *)
Variable exchangeToken : string -> option (string * option Z).

Definition refreshFacebookToken (now : Z) (token : TokenData.t)
    : TokenManager.Refreshed :=
  match exchangeToken (TokenData.accessToken token) with
  | Some (access_token, expires_in) =>
      TokenManager.Resolved
        (Some (TokenManager.createTokenData now "facebook" access_token None expires_in))
  | None => TokenManager.Resolved None
  end.

(** [getAccessToken]: [token?.accessToken || null]. *)
Definition getAccessToken (clock : nat -> Z) (now : Z) (db : Db.t)
    : option string * Db.t * list TokenData.t :=
  let '(token, db', calls) :=
    TokenManager.getValidToken clock "facebook" (Some (refreshFacebookToken now)) db in
  (truthy (TokenData.accessToken <$> token), db', calls).

Definition isAuthenticated (clock : nat -> Z) (now : Z) (db : Db.t) : bool :=
  bool_decide (is_Some (fst (fst (getAccessToken clock now db)))).

End Refresh.
End Facebook.

Module TikTok.
Section Refresh.

(** TikTok's answer to a [refresh_token] grant: access token, refresh
    token and [expires_in]. *)
Variable refreshGrant : string -> option (string * option string * option Z).

Definition refreshTikTokToken (now : Z) (token : TokenData.t)
    : TokenManager.Refreshed :=
  match truthy (TokenData.refreshToken token) with
  | None => TokenManager.Resolved None
  | Some refreshToken =>
      match refreshGrant refreshToken with
      | Some (access_token, refresh_token, expires_in) =>
          TokenManager.Resolved
            (Some (TokenManager.createTokenData now "tiktok" access_token
                     refresh_token expires_in))
      | None => TokenManager.Resolved None
      end
  end.

Definition getAccessToken (clock : nat -> Z) (now : Z) (db : Db.t)
    : option string * Db.t * list TokenData.t :=
  let '(token, db', calls) :=
    TokenManager.getValidToken clock "tiktok" (Some (refreshTikTokToken now)) db in
  (truthy (TokenData.accessToken <$> token), db', calls).

Definition isAuthenticated (clock : nat -> Z) (now : Z) (db : Db.t) : bool :=
  bool_decide (is_Some (fst (fst (getAccessToken clock now db)))).

End Refresh.
End TikTok.

End Platforms.

(* ================================================================== *)
(** * The scheduler skill ([skills/scheduler-skill.ts]) *)
(* ================================================================== *)

Module SchedulerSkill.

(** The [scheduledAt] string of a request as [new Date] reads it. *)
Inductive When : Type :=
  | Unscheduled
  | At (t : Z)
  | Unparsable.

(** The object [JSON.parse(argsJson)] yields, by the fields [main] reads;
    [content] is the JSON text of the content object. *)
Record Args : Type := mkArgs {
  platform : option string;
  action : option string;
  content : option string;
  scheduledAt : When;
  filePath : option string;
  status : option Status;
  limit : option Z;
  id : option Z;
  days : option Z }.

(** [JSON.parse(argsJson)]: an object (the fields are taken to have the
    types of [QueueAddRequest] and of the options of [listJobs]; a JSON
    number, string or array reads as an object with none of them), [null],
    or a thrown [SyntaxError]. *)
Inductive Parsed : Type :=
  | Object (args : Args)
  | Null
  | Malformed (message : string).

(** What the process prints and how it exits. *)
Record Exit : Type := mkExit {
  result : SkillResult.t;
  code : Z }.

Definition nl : string := String (ascii_of_N 10) EmptyString.

(** A falsy number is absent or zero. *)
Definition truthy_num (o : option Z) : option Z :=
  match o with
  | Some n => if n =? 0 then None else Some n
  | None => None
  end.

Definition succeed (action : string) (message : string) (jobId : option Z)
    : SkillResult.t :=
  SkillResult.mk true "scheduler" action None None None (Some message) jobId None None.

Definition refuse (action : string) (error : string) : SkillResult.t :=
  SkillResult.mk false "scheduler" action None None None None None (Some error) None.

Section Main.

(** [JSON.stringify(jobs, null, 2)] and [JSON.stringify(job, null, 2)];
    the message of the [TypeError] thrown on reading a property of [null],
    and of the one thrown by the driver on binding [undefined]. *)
Variable show_jobs : list ScheduledJob.t -> string.
Variable show_job : ScheduledJob.t -> string.
Variable null_read : string.
Variable unbound : string.

(** The [catch] of [main]. *)
Definition caught (verb : option string) (message : string) : SkillResult.t :=
  refuse (default "unknown" (truthy verb)) message.

Definition is_verb (verb : option string) (name : string) : bool :=
  match verb with
  | Some v => String.eqb v name
  | None => false
  end.

(** The [try] block of [main] with its [catch]: the result printed and
    the database afterwards.  [verb] is [process.argv[2]], [parsed] what
    [JSON.parse] makes of the argument text, [now] the store's clock and
    [clock] the readings of [new Date()]. *)
Definition run (now : Z) (clock : nat -> Z) (verb : option string)
    (parsed : Parsed) (db : Db.t) : SkillResult.t * Db.t :=
  if is_verb verb "add" then
    match parsed with
    | Malformed message => (caught verb message, db)
    | Null => (caught verb null_read, db)
    | Object args =>
        match truthy (platform args), truthy (action args) with
        | Some p, Some a =>
            match scheduledAt args, content args with
            | Unparsable, _ => (caught verb "Invalid time value", db)
            | _, None => (caught verb unbound, db)
            | when, Some c =>
                let request :=
                  {| QueueAddRequest.platform := p;
                     QueueAddRequest.action := a;
                     QueueAddRequest.content := c;
                     QueueAddRequest.scheduledAt :=
                       match when with
                       | At t => Some t
                       | _ => None
                       end;
                     QueueAddRequest.filePath := filePath args |} in
                let '(jobId, db') := Queue.addJob (clock 0%nat) now request db in
                (succeed "add" ("Job " +:+ pretty jobId +:+ " added to queue") (Some jobId),
                 db')
            end
        | _, _ => (refuse "add" "Missing required fields: platform, action", db)
        end
    end
  else if is_verb verb "list" then
    match parsed with
    | Malformed message => (caught verb message, db)
    | Null => (succeed "list" (show_jobs (Queue.listQueue clock None db)) None, db)
    | Object args =>
        let options :=
          {| QueueListOptions.status := status args;
             QueueListOptions.platform := platform args;
             QueueListOptions.limit := limit args |} in
        (succeed "list" (show_jobs (Queue.listQueue clock (Some options) db)) None, db)
    end
  else if is_verb verb "get" then
    match parsed with
    | Malformed message => (caught verb message, db)
    | Null => (caught verb null_read, db)
    | Object args =>
        match truthy_num (id args) with
        | None => (refuse "get" "Missing required field: id", db)
        | Some i =>
            match Queue.getJob (clock 0%nat) i db with
            | Some job => (succeed "get" (show_job job) None, db)
            | None => (refuse "get" ("Job " +:+ pretty i +:+ " not found"), db)
            end
        end
    end
  else if is_verb verb "cancel" then
    match parsed with
    | Malformed message => (caught verb message, db)
    | Null => (caught verb null_read, db)
    | Object args =>
        match truthy_num (id args) with
        | None => (refuse "cancel" "Missing required field: id", db)
        | Some i =>
            let '(success, db') := Queue.cancel now i db in
            (SkillResult.mk success "scheduler" "cancel" None None None
               (Some (if success then "Job " +:+ pretty i +:+ " cancelled"
                      else "Job " +:+ pretty i +:+ " not found or already processed"))
               None None None,
             db')
        end
    end
  else if is_verb verb "retry" then
    match parsed with
    | Malformed message => (caught verb message, db)
    | Null => (caught verb null_read, db)
    | Object args =>
        match truthy_num (id args) with
        | None => (refuse "retry" "Missing required field: id", db)
        | Some i =>
            let '(success, db') := Queue.retry now i db in
            (SkillResult.mk success "scheduler" "retry" None None None
               (Some (if success then "Job " +:+ pretty i +:+ " queued for retry"
                      else "Job " +:+ pretty i +:+ " not found or not failed"))
               None None None,
             db')
        end
    end
  else if is_verb verb "stats" then
    let stats := Queue.getStats clock db in
    (succeed "stats"
       ("Queue stats:" +:+ nl +:+ "Total: " +:+ pretty (QueueStats.total stats)
        +:+ nl +:+ "Pending: " +:+ pretty (QueueStats.pending stats)
        +:+ nl +:+ "Completed: " +:+ pretty (QueueStats.completed stats)
        +:+ nl +:+ "Failed: " +:+ pretty (QueueStats.failed stats)) None,
     db)
  else if is_verb verb "cleanup" then
    match parsed with
    | Malformed message => (caught verb message, db)
    | Null => (caught verb null_read, db)
    | Object args =>
        let '(deleted, db') := Queue.cleanup now (default 7 (truthy_num (days args))) db in
        (succeed "cleanup" ("Cleaned up " +:+ pretty deleted +:+ " old posts") None, db')
    end
  else
    (refuse (default "unknown" (truthy verb))
       ("Unknown action: " +:+ Scheduler.interpolate verb
        +:+ ". Available: add, list, get, cancel, retry, stats, cleanup"),
     db).

(** [main]: print the result, exit with 0 on success and 1 otherwise. *)
Definition main (now : Z) (clock : nat -> Z) (verb : option string)
    (parsed : Parsed) (db : Db.t) : Exit * Db.t :=
  let '(r, db') := run now clock verb parsed db in
  (mkExit r (if SkillResult.success r then 0 else 1), db').

End Main.

End SchedulerSkill.

(* ================================================================== *)
(** * Histories of store operations *)
(* ================================================================== *)

Module Ops.

(** A call of one of the writing functions of [storage/db.ts]. *)
Inductive Op : Type :=
  | AddPost (now : Z) (platform action contentJson : string)
      (scheduledAt : option Z) (filePath : option string)
  | MarkComplete (now : Z) (id : Z) (resultJson : string)
  | MarkFailed (now : Z) (id : Z) (errorMessage : string)
  | CancelJob (now : Z) (id : Z)
  | RetryJob (now : Z) (id : Z)
  | DeleteOldPosts (now : Z) (days : Z)
  | SaveToken (now : Z) (data : TokenData.t)
  | DeleteToken (platform : string).

Definition apply (db : Db.t) (op : Op) : Db.t :=
  match op with
  | AddPost now platform action contentJson scheduledAt filePath =>
      snd (Db.addPost now platform action contentJson scheduledAt filePath db)
  | MarkComplete now id resultJson => Db.markComplete now id resultJson db
  | MarkFailed now id errorMessage => Db.markFailed now id errorMessage db
  | CancelJob now id => snd (Db.cancelJob now id db)
  | RetryJob now id => snd (Db.retryJob now id db)
  | DeleteOldPosts now days => snd (Db.deleteOldPosts now days db)
  | SaveToken now data => Db.saveToken now data db
  | DeleteToken platform => snd (Db.deleteToken platform db)
  end.

Definition run (ops : list Op) (db : Db.t) : Db.t := foldl apply db ops.

(** The columns of [posts] that no statement of the module updates. *)
Definition same_job (r r' : PostRow.t) : Prop :=
  PostRow.id r' = PostRow.id r
  /\ PostRow.platform r' = PostRow.platform r
  /\ PostRow.action r' = PostRow.action r
  /\ PostRow.scheduled_at r' = PostRow.scheduled_at r
  /\ PostRow.content_json r' = PostRow.content_json r
  /\ PostRow.file_path r' = PostRow.file_path r
  /\ PostRow.created_at r' = PostRow.created_at r.

(** [db'] is a later state of [db]: the counter has not gone back, and
    every row of [db'] is a row of [db] with at least as many retries, or
    was inserted since. *)
Definition descends (db db' : Db.t) : Prop :=
  Db.posts_seq db <= Db.posts_seq db'
  /\ forall r',
       r' ∈ Db.posts db' ->
       (exists r, r ∈ Db.posts db /\ same_job r r'
                  /\ PostRow.retry_count r <= PostRow.retry_count r')
       \/ Db.posts_seq db < PostRow.id r'.

(** What SQLite maintains on [tokens]: [platform] is the key. *)
Definition keyed (db : Db.t) : Prop :=
  forall platform row,
    Db.tokens db !! platform = Some row -> TokenRow.platform row = platform.

End Ops.

(* ================================================================== *)
(** * Further sample data *)
(* ================================================================== *)

Module Cases.

(** Google answering a refresh with a new access token, no refresh
    token, and an expiry one hour after noon. *)
Definition google (refreshToken : string) : option Platforms.GoogleCredentials :=
  Some (Platforms.mkGoogle "access-2" None (Some (Samples.noon + Samples.hour))).

(** The Graph API answering [fb_exchange_token] with a sixty-day token. *)
Definition graph (accessToken : string) : option (string * option Z) :=
  Some ("access-3", Some 5184000).

Definition facebook_env : OAuth.Env :=
  OAuth.mkEnv None None None (Some "app-id") (Some "app-secret")
    (Some "http://localhost:3000/auth/facebook/callback") None None None.

(** A skill that fails with exit code 1 and a message on stderr. *)
Definition over_quota (job : ScheduledJob.t) : Scheduler.Exited :=
  Scheduler.mkExited 1 "" "quota exceeded".

(** A job that has failed three times, failed once more and retried. *)
Definition worn_out : PostRow.t :=
  Db.retry_row Samples.noon (Db.fail_row Samples.noon "timeout" Samples.failed_thrice).

Definition show_jobs (jobs : list ScheduledJob.t) : string := "[...]".
Definition show_job (job : ScheduledJob.t) : string := "{...}".

(** An [add] request that names no platform. *)
Definition no_platform : SchedulerSkill.Args :=
  SchedulerSkill.mkArgs None (Some "upload") (Some "{}") SchedulerSkill.Unscheduled
    None None None None None.

(** An [add] request for a YouTube upload with no schedule. *)
Definition upload_request : SchedulerSkill.Args :=
  SchedulerSkill.mkArgs (Some "youtube") (Some "upload") (Some "{}")
    SchedulerSkill.Unscheduled None None None None None.

(** The callback Facebook redirects to at the end of a handshake. *)
Definition facebook_callback (state : string) : OAuth.Request :=
  OAuth.mkReq "/auth/facebook/callback" (Some "code-1") (Some state) None.

(** A callback on the path of a platform the server does not know. *)
Definition stray_callback : OAuth.Request :=
  OAuth.mkReq "/auth/mastodon/callback" (Some "code-1") (Some "s1") None.

Definition bare_request : QueueAddRequest.t :=
  QueueAddRequest.mk "youtube" "upload" "{}" None None.

End Cases.

(* ================================================================== *)
(** * Properties of the timestamp texts *)
(* ================================================================== *)

Section TimeFacts.
Import Time.

Example iso_ex : toISOString 1704110400123 = "2024-01-01T12:00:00.123Z".
Proof. reflexivity. Qed.
Example iso_min : toISOString min_ms = "0000-01-01T00:00:00.000Z".
Proof. reflexivity. Qed.
Example iso_max : toISOString max_ms = "9999-12-31T23:59:59.999Z".
Proof. reflexivity. Qed.
Example sql_ex : sqlite_datetime 1709251199999 = "2024-02-29 23:59:59".
Proof. reflexivity. Qed.
Example sql_neg : sqlite_datetime (-1) = "1969-12-31 23:59:59".
Proof. reflexivity. Qed.
Example sql_leap_2000 : sql_text 951782400 = "2000-02-29 00:00:00".
Proof. reflexivity. Qed.
Example sql_no_leap_1900 :
  sql_text (-2203891201) = "1900-02-28 23:59:59"
  /\ sql_text (-2203891200) = "1900-03-01 00:00:00".
Proof. split; reflexivity. Qed.
Example sql_no_leap_2100 :
  sql_text 4107542399 = "2100-02-28 23:59:59"
  /\ sql_text 4107542400 = "2100-03-01 00:00:00".
Proof. split; reflexivity. Qed.

(** ** The calendar is monotone *)


Lemma mys_mono a b : a <= b -> mys a <= mys b.
Proof. unfold mys. intros. Z.to_euclidean_division_equations. lia. Qed.

Lemma mstart_mono a b : a <= b -> mstart a <= mstart b.
Proof. unfold mstart. intros. Z.to_euclidean_division_equations. lia. Qed.

Lemma year_of_era doe :
  0 <= doe < 146097 ->
  let yoe := (doe - doe / 1460 + doe / 36524 - doe / 146096) / 365 in
  0 <= yoe <= 399 /\ mys yoe <= doe < mys (yoe + 1).
Proof.
  unfold mys. intros H. cbv zeta. Z.to_euclidean_division_equations. lia.
Qed.

Lemma mys_era e yoe : 0 <= yoe <= 400 -> mys (yoe + e * 400) = mys yoe + e * 146097.
Proof.
  unfold mys. intros H. Z.to_euclidean_division_equations. lia.
Qed.

Lemma month_of_doy doy :
  0 <= doy <= 365 ->
  let mp := (5 * doy + 2) / 153 in
  0 <= mp <= 11 /\ mstart mp <= doy < mstart (mp + 1) /\ doy - mstart mp <= 30.
Proof.
  unfold mstart. intros H. cbv zeta. Z.to_euclidean_division_equations. lia.
Qed.

Lemma year_len Y : mys (Y + 1) - mys Y <= 366.
Proof. unfold mys. Z.to_euclidean_division_equations. lia. Qed.

(** What [civil_from_days] computes, in terms of the March-based year [Y],
    the month index [mp] counted from March, and the day of that year. *)
Lemma civil_spec z :
  exists Y mp doy,
    civil_from_days z =
      (if mp <? 10 then Y else Y + 1, if mp <? 10 then mp + 3 else mp - 9,
       doy - mstart mp + 1)
    /\ z + 719468 = mys Y + doy /\ mys Y + doy < mys (Y + 1) /\ 0 <= doy
    /\ 0 <= mp <= 11 /\ mstart mp <= doy < mstart (mp + 1)
    /\ doy - mstart mp <= 30.
Proof.
  unfold civil_from_days. cbv zeta.
  set (z' := z + 719468).
  pose proof (Z.mod_pos_bound z' 146097 ltac:(lia)) as Hdoe.
  pose proof (Z.div_mod z' 146097 ltac:(lia)) as Hz.
  set (doe := z' mod 146097) in *. set (era := z' / 146097) in *.
  destruct (year_of_era doe Hdoe) as (Hyoe & Hlo & Hhi).
  set (yoe := (doe - doe / 1460 + doe / 36524 - doe / 146096) / 365) in *.
  assert (Hm : 365 * yoe + yoe / 4 - yoe / 100 = mys yoe).
  { unfold mys. rewrite (Z.div_small yoe 400) by lia. lia. }
  rewrite Hm.
  pose proof (year_len yoe) as Hlen.
  set (doy := doe - mys yoe) in *.
  destruct (month_of_doy doy ltac:(lia)) as (Hmp & Hms & Hd).
  fold (mstart ((5 * doy + 2) / 153)).
  set (mp := (5 * doy + 2) / 153) in *.
  exists (yoe + era * 400), mp, doy.
  rewrite (mys_era era yoe) by lia.
  replace (yoe + era * 400 + 1) with ((yoe + 1) + era * 400) by lia.
  rewrite (mys_era era (yoe + 1)) by lia.
  repeat split; try lia.
  destruct (Z.ltb_spec mp 10) as [Hlt | Hge].
  - destruct (Z.leb_spec (mp + 3) 2); [lia | reflexivity].
  - destruct (Z.leb_spec (mp - 9) 2); [reflexivity | lia].
Qed.

(** A later day has a later date. *)
Lemma civil_lt z1 z2 :
  z1 < z2 -> date_lt (civil_from_days z1) (civil_from_days z2).
Proof.
  intros Hlt.
  destruct (civil_spec z1) as (Y1 & p1 & n1 & -> & E1 & U1 & L1 & P1 & M1 & _).
  destruct (civil_spec z2) as (Y2 & p2 & n2 & -> & E2 & U2 & L2 & P2 & M2 & _).
  unfold date_lt.
  assert (HY : Y1 <= Y2).
  { destruct (Z.le_gt_cases Y1 Y2) as [|Hgt]; [assumption|].
    pose proof (mys_mono (Y2 + 1) Y1 ltac:(lia)). lia. }
  assert (Hp : Y1 = Y2 -> p1 <= p2).
  { intros ->. destruct (Z.le_gt_cases p1 p2) as [|Hgt]; [assumption|].
    pose proof (mstart_mono (p2 + 1) p1 ltac:(lia)). lia. }
  destruct (Z.eq_dec Y1 Y2) as [-> | HneY].
  - specialize (Hp eq_refl).
    destruct (Z.eq_dec p1 p2) as [-> | Hnep].
    + destruct (Z.ltb_spec p2 10); lia.
    + destruct (Z.ltb_spec p1 10), (Z.ltb_spec p2 10); lia.
  - destruct (Z.ltb_spec p1 10), (Z.ltb_spec p2 10); lia.
Qed.

(** ** Fixed-width decimal texts compare as their numbers do *)

(** Comparing two numbers is comparing their quotients, then their
    remainders. *)
Lemma lex_div B a b :
  0 < B -> (a ?= b) = lexc (a / B ?= b / B) (a mod B ?= b mod B).
Proof.
  intros HB.
  pose proof (Z.div_mod a B ltac:(lia)). pose proof (Z.div_mod b B ltac:(lia)).
  pose proof (Z.mod_pos_bound a B HB). pose proof (Z.mod_pos_bound b B HB).
  unfold lexc.
  destruct (Z.compare_spec (a / B) (b / B)) as [E | L | G].
  - destruct (Z.compare_spec (a mod B) (b mod B)).
    + apply Z.compare_eq_iff. lia.
    + apply Z.compare_lt_iff. lia.
    + apply Z.compare_gt_iff. lia.
  - apply Z.compare_lt_iff. nia.
  - apply Z.compare_gt_iff. nia.
Qed.

Lemma compare_digit a b :
  0 <= a < 10 -> 0 <= b < 10 -> Ascii.compare (digit a) (digit b) = (a ?= b).
Proof.
  intros Ha Hb. unfold Ascii.compare, digit.
  rewrite !N_ascii_embedding by lia.
  rewrite Z2N.inj_compare by lia.
  apply Z.add_compare_mono_l.
Qed.

Lemma compare_same c s1 s2 : String.compare (String c s1) (String c s2) = String.compare s1 s2.
Proof.
  simpl. unfold Ascii.compare. now rewrite N.compare_refl.
Qed.

Lemma compare_sep c s1 s2 :
  String.compare (String c EmptyString +:+ s1) (String c EmptyString +:+ s2)
  = String.compare s1 s2.
Proof. apply compare_same. Qed.

Lemma compare_app p1 : forall p2 s1 s2,
  String.length p1 = String.length p2 ->
  String.compare (p1 +:+ s1) (p2 +:+ s2)
  = lexc (String.compare p1 p2) (String.compare s1 s2).
Proof.
  induction p1 as [|c p1 IH]; intros [|c' p2] s1 s2 Hlen; simpl in Hlen; try discriminate.
  - reflexivity.
  - simpl. destruct (Ascii.compare c c'); try reflexivity.
    apply IH. congruence.
Qed.

Lemma compare_pad2 a b :
  0 <= a < 100 -> 0 <= b < 100 -> String.compare (pad2 a) (pad2 b) = (a ?= b).
Proof.
  intros Ha Hb. unfold pad2. simpl.
  rewrite !compare_digit by (Z.to_euclidean_division_equations; lia).
  rewrite (lex_div 10 a b) by lia. unfold lexc.
  destruct (a / 10 ?= b / 10); try reflexivity.
  destruct (a mod 10 ?= b mod 10); reflexivity.
Qed.

Lemma compare_pad3 a b :
  0 <= a < 1000 -> 0 <= b < 1000 -> String.compare (pad3 a) (pad3 b) = (a ?= b).
Proof.
  intros Ha Hb. unfold pad3.
  change (String ?c ?s) with (String c EmptyString +:+ s) at 1.
  change (String (digit (b / 100)) ?s) with (String (digit (b / 100)) EmptyString +:+ s).
  rewrite compare_app by reflexivity.
  rewrite compare_pad2 by (Z.to_euclidean_division_equations; lia).
  simpl. rewrite compare_digit by (Z.to_euclidean_division_equations; lia).
  rewrite (lex_div 100 a b) by lia. unfold lexc.
  destruct (a / 100 ?= b / 100); reflexivity.
Qed.

Lemma compare_pad4 a b :
  0 <= a < 10000 -> 0 <= b < 10000 -> String.compare (pad4 a) (pad4 b) = (a ?= b).
Proof.
  intros Ha Hb. unfold pad4.
  rewrite compare_app by reflexivity.
  rewrite !compare_pad2 by (Z.to_euclidean_division_equations; lia).
  now rewrite <- (lex_div 100 a b) by lia.
Qed.

Lemma civil_le z1 z2 :
  z1 <= z2 -> civil_from_days z1 = civil_from_days z2 \/ date_lt (civil_from_days z1) (civil_from_days z2).
Proof.
  intros H. destruct (Z.eq_dec z1 z2) as [-> | Hne]; [now left | right].
  apply civil_lt. lia.
Qed.

(** Within the years 0000..9999 every field fits its width. *)
Lemma civil_fields z y m d :
  min_day <= z <= max_day -> civil_from_days z = (y, m, d) ->
  0 <= y < 10000 /\ 1 <= m <= 12 /\ 1 <= d <= 31.
Proof.
  intros [Hlo Hhi] E.
  destruct (civil_spec z) as (Y & p & n & E' & _ & _ & _ & Hp & Hn & Hd).
  rewrite E in E'.
  assert (Hm : 1 <= m <= 12 /\ 1 <= d <= 31).
  { destruct (Z.ltb_spec p 10); inversion E'; subst; lia. }
  split; [|exact Hm].
  pose proof (civil_le min_day z Hlo) as H1.
  pose proof (civil_le z max_day Hhi) as H2.
  rewrite E in H1, H2.
  change (civil_from_days min_day) with (0, 1, 1) in H1.
  change (civil_from_days max_day) with (9999, 12, 31) in H2.
  unfold date_lt in *.
  destruct H1 as [[= <- <- <-] | H1], H2 as [H2 | H2]; try lia.
  inversion H2; lia.
Qed.

Lemma date_lt_compare a b : date_lt a b -> date_compare a b = Lt.
Proof.
  destruct a as [[y1 m1] d1], b as [[y2 m2] d2]. unfold date_lt, date_compare, lexc.
  intros [H | [-> [H | [-> H]]]].
  - apply Z.compare_lt_iff in H. now rewrite H.
  - rewrite Z.compare_refl. apply Z.compare_lt_iff in H. now rewrite H.
  - rewrite !Z.compare_refl. now apply Z.compare_lt_iff.
Qed.

Lemma date_compare_refl a : date_compare a a = Eq.
Proof. destruct a as [[y m] d]. unfold date_compare, lexc. now rewrite !Z.compare_refl. Qed.

Lemma date_compare_antisym a b : date_compare a b = CompOpp (date_compare b a).
Proof.
  destruct a as [[y1 m1] d1], b as [[y2 m2] d2]. unfold date_compare, lexc.
  rewrite (Z.compare_antisym y2 y1), (Z.compare_antisym m2 m1), (Z.compare_antisym d2 d1).
  destruct (y2 ?= y1), (m2 ?= m1), (d2 ?= d1); reflexivity.
Qed.

Lemma civil_compare z1 z2 :
  date_compare (civil_from_days z1) (civil_from_days z2) = (z1 ?= z2).
Proof.
  destruct (Z.compare_spec z1 z2) as [-> | H | H].
  - apply date_compare_refl.
  - apply date_lt_compare, civil_lt, H.
  - rewrite date_compare_antisym, (date_lt_compare _ _ (civil_lt _ _ H)). reflexivity.
Qed.

Lemma date_text_length z : String.length (date_text z) = 10%nat.
Proof. unfold date_text. destruct (civil_from_days z) as [[y m] d]. reflexivity. Qed.

Lemma compare_date_text z1 z2 :
  min_day <= z1 <= max_day -> min_day <= z2 <= max_day ->
  String.compare (date_text z1) (date_text z2) = (z1 ?= z2).
Proof.
  intros H1 H2. rewrite <- civil_compare. unfold date_text.
  destruct (civil_from_days z1) as [[y1 m1] d1] eqn:E1.
  destruct (civil_from_days z2) as [[y2 m2] d2] eqn:E2.
  destruct (civil_fields _ _ _ _ H1 E1) as (Hy1 & Hm1 & Hd1).
  destruct (civil_fields _ _ _ _ H2 E2) as (Hy2 & Hm2 & Hd2).
  rewrite compare_app by reflexivity. rewrite compare_pad4 by lia.
  rewrite compare_sep.
  rewrite compare_app by reflexivity. rewrite compare_pad2 by lia.
  rewrite compare_sep. rewrite compare_pad2 by lia. reflexivity.
Qed.

Lemma in_range_day ms : in_range ms -> min_day <= ms / 86400000 <= max_day.
Proof.
  unfold in_range, min_ms, max_ms, min_day, max_day. intros H.
  Z.to_euclidean_division_equations. lia.
Qed.

Lemma tod_fields_ms t :
  (t mod 3600000) / 60000 = t / 60000 mod 60
  /\ (t mod 3600000) mod 60000 = t mod 60000
  /\ (t mod 60000) / 1000 = t / 1000 mod 60
  /\ (t mod 60000) mod 1000 = t mod 1000.
Proof. repeat split; Z.to_euclidean_division_equations; lia. Qed.

Lemma tod_compare_ms t1 t2 :
  lexc (t1 / 3600000 ?= t2 / 3600000)
    (lexc (t1 / 60000 mod 60 ?= t2 / 60000 mod 60)
      (lexc (t1 / 1000 mod 60 ?= t2 / 1000 mod 60) (t1 mod 1000 ?= t2 mod 1000)))
  = (t1 ?= t2).
Proof.
  destruct (tod_fields_ms t1) as (A1 & B1 & C1 & D1).
  destruct (tod_fields_ms t2) as (A2 & B2 & C2 & D2).
  rewrite (lex_div 3600000 t1 t2) by lia.
  rewrite (lex_div 60000 (t1 mod 3600000) (t2 mod 3600000)) by lia.
  rewrite A1, A2, B1, B2.
  rewrite (lex_div 1000 (t1 mod 60000) (t2 mod 60000)) by lia.
  rewrite C1, C2, D1, D2. reflexivity.
Qed.

Lemma tod_fields_s t :
  (t mod 3600) / 60 = t / 60 mod 60 /\ (t mod 3600) mod 60 = t mod 60.
Proof. repeat split; Z.to_euclidean_division_equations; lia. Qed.

Lemma tod_compare_s t1 t2 :
  lexc (t1 / 3600 ?= t2 / 3600) (lexc (t1 / 60 mod 60 ?= t2 / 60 mod 60) (t1 mod 60 ?= t2 mod 60))
  = (t1 ?= t2).
Proof.
  destruct (tod_fields_s t1) as (A1 & B1). destruct (tod_fields_s t2) as (A2 & B2).
  rewrite (lex_div 3600 t1 t2) by lia.
  rewrite (lex_div 60 (t1 mod 3600) (t2 mod 3600)) by lia.
  rewrite A1, A2, B1, B2. reflexivity.
Qed.

Ltac tod_bounds := Z.to_euclidean_division_equations; lia.

(** Two ISO timestamps compare as text the way their instants compare. *)
Theorem compare_toISOString a b :
  in_range a -> in_range b ->
  String.compare (toISOString a) (toISOString b) = (a ?= b).
Proof.
  intros Ha Hb. unfold toISOString. cbv zeta.
  rewrite compare_app by (now rewrite !date_text_length).
  rewrite compare_date_text by now apply in_range_day.
  rewrite compare_sep.
  rewrite compare_app by reflexivity. rewrite compare_pad2 by tod_bounds.
  rewrite compare_sep.
  rewrite compare_app by reflexivity. rewrite compare_pad2 by tod_bounds.
  rewrite compare_sep.
  rewrite compare_app by reflexivity. rewrite compare_pad2 by tod_bounds.
  rewrite compare_sep.
  rewrite compare_app by reflexivity. rewrite compare_pad3 by tod_bounds.
  replace (String.compare "Z" "Z") with Eq by reflexivity.
  rewrite (lex_div 86400000 a b) by lia.
  rewrite <- (tod_compare_ms (a mod 86400000) (b mod 86400000)).
  unfold lexc.
  repeat match goal with |- context [match ?c with _ => _ end] => destruct c end; reflexivity.
Qed.

Lemma in_range_s_day s : in_range_s s -> min_day <= s / 86400 <= max_day.
Proof.
  unfold in_range_s, min_s, max_s, min_day, max_day. intros H.
  Z.to_euclidean_division_equations. lia.
Qed.

Lemma in_range_seconds now : in_range now -> in_range_s (unix_seconds now).
Proof.
  unfold in_range, in_range_s, unix_seconds, min_ms, max_ms, min_s, max_s.
  intros H. Z.to_euclidean_division_equations. lia.
Qed.

(** Two SQLite timestamps compare as text the way their seconds compare. *)
Theorem compare_sql_text a b :
  in_range_s a -> in_range_s b ->
  String.compare (sql_text a) (sql_text b) = (a ?= b).
Proof.
  intros Ha Hb. unfold sql_text. cbv zeta.
  rewrite compare_app by (now rewrite !date_text_length).
  rewrite compare_date_text by now apply in_range_s_day.
  rewrite compare_sep.
  rewrite compare_app by reflexivity. rewrite compare_pad2 by tod_bounds.
  rewrite compare_sep.
  rewrite compare_app by reflexivity. rewrite compare_pad2 by tod_bounds.
  rewrite compare_sep.
  rewrite compare_pad2 by tod_bounds.
  rewrite (lex_div 86400 a b) by lia.
  rewrite <- (tod_compare_s (a mod 86400) (b mod 86400)).
  reflexivity.
Qed.

(** An ISO timestamp against a SQLite timestamp: the first ten characters
    are the two dates; on equal dates the eleventh is "T" against " ", and
    "T" is the larger byte. *)
Theorem compare_iso_sql a b :
  in_range a -> in_range_s b ->
  String.compare (toISOString a) (sql_text b)
  = if a / 86400000 <? b / 86400 then Lt else Gt.
Proof.
  intros Ha Hb. unfold toISOString, sql_text. cbv zeta.
  rewrite compare_app by (now rewrite !date_text_length).
  rewrite compare_date_text by (apply in_range_day || apply in_range_s_day; assumption).
  unfold lexc.
  destruct (Z.ltb_spec (a / 86400000) (b / 86400)) as [H | H].
  - apply Z.compare_lt_iff in H. now rewrite H.
  - destruct (Z.compare_spec (a / 86400000) (b / 86400)); try lia; reflexivity.
Qed.

End TimeFacts.

(* ================================================================== *)
(** * ORDER BY: three-way comparisons and the insertion sort *)
(* ================================================================== *)

Section Ordering.
Import Time Db.

Lemma cmp_eq_r {A} (c : A -> A -> comparison) `{!Comparator c} x y z :
  c x y = Eq -> c z x = c z y.
Proof.
  intros E. rewrite (cmp_antisym z x), (cmp_antisym z y).
  f_equal. now apply cmp_eq_l.
Qed.

Lemma cmp_refl {A} (c : A -> A -> comparison) `{!Comparator c} x : c x x = Eq.
Proof.
  pose proof (cmp_antisym x x) as H. destruct (c x x); simpl in H; congruence.
Qed.

Lemma cmp_le_trans {A} (c : A -> A -> comparison) `{!Comparator c} x y z :
  c x y <> Gt -> c y z <> Gt -> c x z <> Gt.
Proof.
  intros Hxy Hyz.
  destruct (c x y) eqn:Exy; [| |congruence].
  - now rewrite (cmp_eq_l x y z Exy).
  - destruct (c y z) eqn:Eyz; [| |congruence].
    + rewrite <- (cmp_eq_r c y z x Eyz). congruence.
    + rewrite (cmp_lt_trans x y z Exy Eyz). congruence.
Qed.

Lemma cmp_gt_flip {A} (c : A -> A -> comparison) `{!Comparator c} x y :
  c x y = Gt -> c y x = Lt.
Proof. intros H. rewrite cmp_antisym, H. reflexivity. Qed.

#[global] Instance ascii_comparator : Comparator Ascii.compare.
Proof.
  split.
  - apply Ascii.compare_antisym.
  - intros x y z E. apply Ascii.compare_eq_iff in E. now subst.
  - unfold Ascii.compare. intros x y z H1 H2.
    apply N.compare_lt_iff in H1. apply N.compare_lt_iff in H2.
    apply N.compare_lt_iff. eapply N.lt_trans; eassumption.
Qed.

#[global] Instance string_comparator : Comparator String.compare.
Proof.
  split.
  - apply String.compare_antisym.
  - intros x y z E. apply String.compare_eq_iff in E. now subst.
  - intros x. induction x as [|a x IH]; intros [|b y] [|d z]; simpl; try congruence.
    destruct (Ascii.compare a b) eqn:Eab; try discriminate.
    + apply Ascii.compare_eq_iff in Eab. subst b.
      destruct (Ascii.compare a d); try congruence. apply IH.
    + intros _. destruct (Ascii.compare b d) eqn:Ebd; try discriminate.
      * apply Ascii.compare_eq_iff in Ebd. subst d. now rewrite Eab.
      * now rewrite (cmp_lt_trans (c := Ascii.compare) a b d Eab Ebd).
Qed.

#[global] Instance nulls_first_comparator : Comparator nulls_first.
Proof.
  split.
  - intros [x|] [y|]; simpl; try reflexivity. apply String.compare_antisym.
  - intros [x|] [y|] [z|]; simpl; try congruence.
    apply (cmp_eq_l (c := String.compare)).
  - intros [x|] [y|] [z|]; simpl; try congruence.
    apply (cmp_lt_trans (c := String.compare)).
Qed.

Lemma comparator_on {A B} (f : A -> B) (c : B -> B -> comparison)
    (Hc : Comparator c) :
  Comparator (fun x y => c (f x) (f y)).
Proof.
  split; intros.
  - apply cmp_antisym.
  - now apply cmp_eq_l.
  - now apply (cmp_lt_trans _ (f y)).
Qed.

Lemma comparator_lex {A} (c1 c2 : A -> A -> comparison)
    (H1 : Comparator c1) (H2 : Comparator c2) :
  Comparator (fun x y => lexc (c1 x y) (c2 x y)).
Proof.
  split.
  - intros x y. rewrite (cmp_antisym (c := c1) x y), (cmp_antisym (c := c2) x y).
    destruct (c1 y x), (c2 y x); reflexivity.
  - intros x y z. unfold lexc.
    destruct (c1 x y) eqn:E1; try discriminate. intros E2.
    now rewrite (cmp_eq_l (c := c1) x y z E1), (cmp_eq_l (c := c2) x y z E2).
  - intros x y z. unfold lexc.
    destruct (c1 x y) eqn:E1; try discriminate.
    + intros E2. rewrite (cmp_eq_l (c := c1) x y z E1).
      destruct (c1 y z); try discriminate; [|reflexivity].
      now apply cmp_lt_trans.
    + intros _. destruct (c1 y z) eqn:E3; try discriminate.
      * intros _. rewrite <- (cmp_eq_r c1 y z x E3), E1. reflexivity.
      * intros _. now rewrite (cmp_lt_trans (c := c1) x y z E1 E3).
Qed.

Lemma comparator_flip {A} (c : A -> A -> comparison) (Hc : Comparator c) :
  Comparator (fun x y => c y x).
Proof.
  split; intros.
  - apply cmp_antisym.
  - symmetry. now apply (cmp_eq_r c).
  - now apply (cmp_lt_trans _ y).
Qed.

#[global] Instance ready_order_comparator : Comparator ready_order.
Proof.
  unfold ready_order.
  apply (comparator_lex
           (fun a b => nulls_first (scheduled_text a) (scheduled_text b))
           (fun a b => String.compare (created_text a) (created_text b)));
    apply comparator_on; apply _.
Qed.

#[global] Instance newest_first_comparator : Comparator newest_first.
Proof.
  unfold newest_first.
  apply (comparator_flip (fun a b => String.compare (created_text a) (created_text b))).
  apply comparator_on; apply _.
Qed.

(** The insertion sort returns a permutation of its input in which no
    element is followed, anywhere later, by one that compares smaller. *)
Lemma insert_by_perm {A} (c : A -> A -> comparison) x l :
  insert_by c x l ≡ₚ x :: l.
Proof.
  induction l as [|y l IH]; simpl; [reflexivity|].
  destruct (c x y); try reflexivity.
  rewrite IH. apply Permutation_swap.
Qed.

Lemma order_by_perm {A} (c : A -> A -> comparison) l : order_by c l ≡ₚ l.
Proof.
  induction l as [|x l IH]; simpl; [reflexivity|].
  unfold order_by in *. simpl. rewrite insert_by_perm. now rewrite IH.
Qed.

Lemma insert_by_sorted {A} (c : A -> A -> comparison) `{!Comparator c} x l :
  StronglySorted (cmp_le c) l -> StronglySorted (cmp_le c) (insert_by c x l).
Proof.
  induction l as [|y l IH]; intros Hs; simpl.
  - repeat constructor.
  - inversion Hs as [|? ? Hl Hy]; subst.
    destruct (c x y) eqn:E.
    + constructor; [assumption|]. constructor.
      * unfold cmp_le. congruence.
      * eapply Forall_impl; [exact Hy|]. intros z Hz.
        apply (cmp_le_trans c x y z); [congruence | exact Hz].
    + constructor; [assumption|]. constructor.
      * unfold cmp_le. congruence.
      * eapply Forall_impl; [exact Hy|]. intros z Hz.
        apply (cmp_le_trans c x y z); [congruence | exact Hz].
    + constructor; [now apply IH|].
      rewrite (insert_by_perm c x l). constructor; [|assumption].
      unfold cmp_le. rewrite (cmp_gt_flip c x y E). congruence.
Qed.

Lemma order_by_sorted {A} (c : A -> A -> comparison) `{!Comparator c} l :
  StronglySorted (cmp_le c) (order_by c l).
Proof.
  induction l as [|x l IH]; simpl; [constructor|].
  now apply insert_by_sorted.
Qed.

(** In a strongly sorted list, an element that compares strictly smaller
    than another stands before it. *)
Lemma sorted_lt_before {A} (c : A -> A -> comparison) `{!Comparator c}
    (l : list A) (i j : nat) a b :
  StronglySorted (cmp_le c) l ->
  l !! i = Some a -> l !! j = Some b -> c a b = Lt -> (i < j)%nat.
Proof.
  intros Hs. revert i j. induction Hs as [|x l Hs IH Hx]; intros i j Hi Hj Hlt.
  - rewrite lookup_nil in Hi. discriminate.
  - destruct i as [|i], j as [|j]; simpl in *.
    + injection Hi as <-. injection Hj as <-.
      rewrite (cmp_refl c) in Hlt. discriminate.
    + lia.
    + injection Hj as <-. exfalso.
      rewrite Forall_forall in Hx.
      assert (Hin : a ∈ l) by (eapply list_elem_of_lookup_2; eassumption).
      specialize (Hx a Hin).
      unfold cmp_le in Hx. rewrite cmp_antisym, Hlt in Hx. now apply Hx.
    + apply -> Nat.succ_lt_mono. eapply IH; eassumption.
Qed.

(** ** The sort is stable *)

(** [insert_by] puts the new element after the elements it compares
    greater than and before everything else. *)
Lemma insert_by_split {A} (c : A -> A -> comparison) x l :
  exists l1 l2,
    l = l1 ++ l2 /\ insert_by c x l = l1 ++ x :: l2
    /\ forall w, w ∈ l1 -> c x w = Gt.
Proof.
  induction l as [|y l IH]; simpl.
  - exists [], []. repeat split. intros w Hw. now apply elem_of_nil in Hw.
  - destruct (c x y) eqn:E.
    + exists [], (y :: l). repeat split. intros w Hw. now apply elem_of_nil in Hw.
    + exists [], (y :: l). repeat split. intros w Hw. now apply elem_of_nil in Hw.
    + destruct IH as (l1 & l2 & Heq & Hins & Hgt). exists (y :: l1), l2.
      split; [simpl; now rewrite <- Heq|]. split; [simpl; now rewrite Hins|].
      intros w Hw. apply elem_of_cons in Hw as [-> | Hw]; auto.
Qed.

Lemma insert_by_sublist {A} (c : A -> A -> comparison) x l k :
  k `sublist_of` l -> k `sublist_of` insert_by c x l.
Proof.
  destruct (insert_by_split c x l) as (l1 & l2 & Heq & Hins & _).
  intros H. rewrite Hins. rewrite Heq in H.
  transitivity (l1 ++ l2); [assumption|].
  apply sublist_app; [reflexivity|]. now apply sublist_cons.
Qed.

(** Of two elements the first of which does not compare greater than
    the second, the one scanned first is still first after the sort. *)
Lemma order_by_stable {A} (c : A -> A -> comparison) l x y :
  [x; y] `sublist_of` l -> c x y <> Gt -> [x; y] `sublist_of` order_by c l.
Proof.
  induction l as [|z l IH]; intros Hsub Hle.
  - apply sublist_nil_r in Hsub. discriminate.
  - change (order_by c (z :: l)) with (insert_by c z (order_by c l)).
    apply sublist_cons_r in Hsub. destruct Hsub as [Hsub | (l' & Heq & Hy)].
    + apply insert_by_sublist. now apply IH.
    + injection Heq as <- <-.
      destruct (insert_by_split c x (order_by c l)) as (l1 & l2 & Hl & Hins & Hgt).
      rewrite Hins. apply sublist_inserts_l, sublist_skip, singleton_sublist_l.
      assert (Hin : y ∈ l1 ++ l2).
      { rewrite <- Hl, order_by_perm. now apply singleton_sublist_l. }
      apply elem_of_app in Hin. destruct Hin as [Hin | Hin]; [|assumption].
      specialize (Hgt y Hin). contradiction.
Qed.

Lemma sublist_pair_lookup {A} (l : list A) :
  NoDup l ->
  forall (i j : nat) x y,
    [x; y] `sublist_of` l -> l !! i = Some x -> l !! j = Some y -> (i < j)%nat.
Proof.
  induction 1 as [|z l Hz Hnd IH]; intros i j x y Hsub Hi Hj.
  - now rewrite lookup_nil in Hi.
  - apply sublist_cons_r in Hsub. destruct Hsub as [Hsub | (l' & Heq & Hy)].
    + assert (Hx : x ∈ l).
      { eapply elem_of_sublist; [|exact Hsub]. apply list_elem_of_here. }
      assert (Hy : y ∈ l).
      { eapply elem_of_sublist; [|exact Hsub].
        apply list_elem_of_further, list_elem_of_here. }
      destruct i as [|i]; [simpl in Hi; congruence|].
      destruct j as [|j]; [simpl in Hj; congruence|].
      simpl in Hi, Hj. apply -> Nat.succ_lt_mono. now apply (IH i j x y).
    + injection Heq as <- <-. apply singleton_sublist_l in Hy.
      destruct j as [|j]; [simpl in Hj; congruence|].
      destruct i as [|i]; [lia|]. simpl in Hi.
      exfalso. apply Hz. eapply list_elem_of_lookup_2. exact Hi.
Qed.

Lemma sublist_pair_filter {A} (P : A -> Prop) `{forall x, Decision (P x)}
    (l : list A) x y :
  [x; y] `sublist_of` l -> P x -> P y -> [x; y] `sublist_of` filter P l.
Proof.
  intros Hsub Hx Hy. apply sublist_cons_l in Hsub.
  destruct Hsub as (k1 & k2 & -> & Hk).
  rewrite filter_app, filter_cons_True by assumption.
  apply sublist_inserts_l, sublist_skip, singleton_sublist_l.
  apply list_elem_of_filter. split; [assumption|]. now apply singleton_sublist_l.
Qed.

End Ordering.

(* ================================================================== *)
(** * The job store: state transitions *)
(* ================================================================== *)

Section JobStore.
Import Time Db.

Lemma update_where_lookup p f rows (k : nat) :
  update_where p f rows !! k = (fun r => if p r then f r else r) <$> rows !! k.
Proof. unfold update_where. apply list_lookup_fmap. Qed.

Lemma update_where_none p f rows :
  (forall r, r ∈ rows -> p r = false) -> update_where p f rows = rows.
Proof.
  intros H. unfold update_where. induction rows as [|r rows IH]; simpl; [reflexivity|].
  rewrite (H r) by apply list_elem_of_here. f_equal.
  apply IH. intros r' Hr'. apply H. now apply list_elem_of_further.
Qed.

Lemma changes_pos p rows :
  (0 <? changes p rows) = true <-> exists r, r ∈ rows /\ p r = true.
Proof.
  unfold changes. split.
  - intros H. apply Z.ltb_lt in H.
    destruct (filter (fun r => p r = true) rows) as [|x l] eqn:E; simpl in H; [lia|].
    assert (Hx : x ∈ filter (fun r => p r = true) rows) by (rewrite E; apply list_elem_of_here).
    apply list_elem_of_filter in Hx. destruct Hx as [Hp Hin]. eauto.
  - intros (r & Hin & Hp). apply Z.ltb_lt.
    assert (Hx : r ∈ filter (fun r => p r = true) rows) by (apply list_elem_of_filter; auto).
    destruct (filter (fun r => p r = true) rows); simpl; [|lia].
    now apply not_elem_of_nil in Hx.
Qed.

Lemma changes_zero p rows :
  (0 <? changes p rows) = false -> forall r, r ∈ rows -> p r = false.
Proof.
  intros H r Hin. destruct (p r) eqn:E; [|reflexivity].
  assert (Hpos : (0 <? changes p rows) = true) by (apply changes_pos; eauto).
  congruence.
Qed.

Lemma set_posts_same db : set_posts (posts db) db = db.
Proof. now destruct db. Qed.

Lemma has_id_true id r : has_id id r = true <-> PostRow.id r = id.
Proof. unfold has_id. apply Z.eqb_eq. Qed.

Lemma markFailed_lookup now id msg db (k : nat) :
  posts (markFailed now id msg db) !! k
  = (fun r => if has_id id r then fail_row now msg r else r) <$> posts db !! k.
Proof. unfold markFailed. simpl. apply update_where_lookup. Qed.

Lemma markFailed_hit now msg db (k : nat) r :
  posts db !! k = Some r ->
  posts (markFailed now (PostRow.id r) msg db) !! k = Some (fail_row now msg r).
Proof.
  intros H. rewrite markFailed_lookup, H. simpl.
  now rewrite (proj2 (has_id_true (PostRow.id r) r) eq_refl).
Qed.

Lemma fail_all_lookup id calls :
  forall db (k : nat) r,
    posts db !! k = Some r -> PostRow.id r = id ->
    exists r',
      posts (Runs.fail_all id calls db) !! k = Some r'
      /\ PostRow.id r' = id
      /\ PostRow.retry_count r' = PostRow.retry_count r + Z.of_nat (length calls)
      /\ (calls <> [] -> PostRow.status r' = failed)
      /\ (calls = [] -> r' = r).
Proof.
  induction calls as [|[now msg] calls IH]; intros db k r Hk Hid; simpl.
  - exists r. repeat split; try assumption; [lia | congruence].
  - subst id. pose proof (markFailed_hit now msg db k r Hk) as H1.
    destruct (IH _ k _ H1 eq_refl) as (r' & Hr' & Hid' & Hcnt & Hst & Hnil).
    exists r'. repeat split; try assumption.
    + rewrite Hcnt. simpl PostRow.retry_count. lia.
    + intros _. destruct calls as [|c calls].
      * now rewrite (Hnil eq_refl).
      * apply Hst. discriminate.
    + discriminate.
Qed.

Lemma addPost_lookup now platform action content scheduledAt filePath db :
  let '(id, db') := addPost now platform action content scheduledAt filePath db in
  exists r,
    posts db' !! length (posts db) = Some r
    /\ PostRow.id r = id
    /\ PostRow.status r = pending
    /\ PostRow.retry_count r = 0
    /\ PostRow.scheduled_at r = scheduledAt.
Proof.
  unfold addPost. simpl. eexists. split.
  - rewrite lookup_app_r by lia. rewrite Nat.sub_diag. reflexivity.
  - simpl. auto.
Qed.

(** C5. A call of [markFailed] on an existing job leaves it [failed]
    whatever its status was, with the given error message, a refreshed
    [updated_at] and [retry_count] one higher; after any number of calls
    the count has grown by that number, so a job enqueued by [addPost]
    (count 0) that is failed N times has count N. *)
Theorem fail_counts_every_failure db (k : nat) r :
  posts db !! k = Some r ->
  (forall now msg,
     exists r',
       posts (markFailed now (PostRow.id r) msg db) !! k = Some r'
       /\ PostRow.id r' = PostRow.id r
       /\ PostRow.status r' = failed
       /\ PostRow.error_message r' = Some msg
       /\ PostRow.updated_at r' = unix_seconds now
       /\ PostRow.retry_count r' = PostRow.retry_count r + 1)
  /\ (forall calls,
        exists r',
          posts (Runs.fail_all (PostRow.id r) calls db) !! k = Some r'
          /\ PostRow.retry_count r'
             = PostRow.retry_count r + Z.of_nat (length calls)
          /\ (calls <> [] -> PostRow.status r' = failed))
  /\ (forall now platform action content scheduledAt filePath calls,
        let '(id, db') := addPost now platform action content scheduledAt filePath db in
        exists r',
          posts (Runs.fail_all id calls db') !! length (posts db) = Some r'
          /\ PostRow.id r' = id
          /\ PostRow.retry_count r' = Z.of_nat (length calls)).
Proof.
  intros Hk. split; [|split].
  - intros now msg. exists (fail_row now msg r).
    split; [now apply markFailed_hit|]. simpl. auto.
  - intros calls.
    destruct (fail_all_lookup (PostRow.id r) calls db k r Hk eq_refl)
      as (r' & H1 & _ & H2 & H3 & _).
    exists r'. auto.
  - intros now platform action content scheduledAt filePath calls.
    pose proof (addPost_lookup now platform action content scheduledAt filePath db) as Ha.
    destruct (addPost now platform action content scheduledAt filePath db) as [id db'].
    destruct Ha as (r0 & Hr0 & Hid & _ & Hcnt & _).
    destruct (fail_all_lookup id calls db' _ r0 Hr0 Hid) as (r' & H1 & H2 & H3 & _).
    exists r'. repeat split; try assumption. lia.
Qed.

Lemma retry_hit_dec id (r : PostRow.t) :
  id_and_status id failed r = true <-> PostRow.id r = id /\ PostRow.status r = failed.
Proof.
  unfold id_and_status. rewrite andb_true_iff, has_id_true, bool_decide_eq_true.
  reflexivity.
Qed.

(** C6. [retryJob] answers [true] exactly when a job with that id is
    [failed]; that job becomes [pending] with no error message, a
    refreshed [updated_at] and the same [retry_count] (and every other
    column unchanged); any other job is left as it was, and when the
    answer is [false] the database is unchanged. *)
Theorem retry_only_from_failed now id db :
  (fst (retryJob now id db) = true
   <-> exists r, r ∈ posts db /\ PostRow.id r = id /\ PostRow.status r = failed)
  /\ (fst (retryJob now id db) = false -> snd (retryJob now id db) = db)
  /\ (forall (k : nat) r,
        posts db !! k = Some r ->
        PostRow.id r = id -> PostRow.status r = failed ->
        exists r',
          posts (snd (retryJob now id db)) !! k = Some r'
          /\ PostRow.status r' = pending
          /\ PostRow.error_message r' = None
          /\ PostRow.updated_at r' = unix_seconds now
          /\ PostRow.retry_count r' = PostRow.retry_count r
          /\ PostRow.id r' = PostRow.id r
          /\ PostRow.platform r' = PostRow.platform r
          /\ PostRow.action r' = PostRow.action r
          /\ PostRow.scheduled_at r' = PostRow.scheduled_at r
          /\ PostRow.content_json r' = PostRow.content_json r
          /\ PostRow.file_path r' = PostRow.file_path r
          /\ PostRow.result_json r' = PostRow.result_json r
          /\ PostRow.created_at r' = PostRow.created_at r)
  /\ (forall (k : nat) r,
        posts db !! k = Some r ->
        ~ (PostRow.id r = id /\ PostRow.status r = failed) ->
        posts (snd (retryJob now id db)) !! k = Some r)
  /\ tokens (snd (retryJob now id db)) = tokens db
  /\ posts_seq (snd (retryJob now id db)) = posts_seq db.
Proof.
  unfold retryJob. simpl. repeat split.
  - intros H. apply changes_pos in H. destruct H as (r & Hin & Hp).
    apply retry_hit_dec in Hp. exists r. tauto.
  - intros (r & Hin & Hid & Hst). apply changes_pos. exists r. split; [assumption|].
    now apply retry_hit_dec.
  - intros H. rewrite update_where_none; [apply set_posts_same|].
    now apply changes_zero.
  - intros k r Hk Hid Hst. exists (retry_row now r). split.
    + rewrite update_where_lookup, Hk. simpl.
      now rewrite (proj2 (retry_hit_dec id r) (conj Hid Hst)).
    + simpl. repeat split.
  - intros k r Hk Hno. rewrite update_where_lookup, Hk. simpl.
    destruct (id_and_status id failed r) eqn:E; [|reflexivity].
    apply retry_hit_dec in E. contradiction.
Qed.

(** ** The key constraint is kept by every operation *)

Lemma update_where_ids p f rows :
  (forall r, PostRow.id (f r) = PostRow.id r) ->
  PostRow.id <$> update_where p f rows = PostRow.id <$> rows.
Proof.
  intros Hf. apply list_eq. intros k.
  rewrite !list_lookup_fmap, update_where_lookup.
  destruct (rows !! k) as [r|]; [|reflexivity]. simpl.
  destruct (p r); [now rewrite Hf | reflexivity].
Qed.

Lemma valid_same_ids db db' :
  ids db' = ids db -> posts_seq db' = posts_seq db -> valid db -> valid db'.
Proof. unfold valid. now intros -> ->. Qed.

Lemma valid_empty : valid empty.
Proof. split; constructor. Qed.

Lemma addPost_valid now platform action content scheduledAt filePath db :
  valid db -> valid (snd (addPost now platform action content scheduledAt filePath db)).
Proof.
  intros [Hnd Hle]. unfold valid, ids, addPost. simpl. rewrite fmap_app. simpl.
  split.
  - apply NoDup_app. split; [assumption|]. split; [|apply NoDup_singleton].
    intros i Hi Hi'. apply list_elem_of_singleton in Hi'. subst i.
    rewrite Forall_forall in Hle. specialize (Hle _ Hi). lia.
  - apply Forall_app. split.
    + eapply Forall_impl; [exact Hle|]. simpl. intros. lia.
    + constructor; [lia | constructor].
Qed.

Lemma markComplete_valid now id json db : valid db -> valid (markComplete now id json db).
Proof.
  apply valid_same_ids; [|reflexivity].
  unfold ids, markComplete. simpl. now apply update_where_ids.
Qed.

Lemma markFailed_valid now id msg db : valid db -> valid (markFailed now id msg db).
Proof.
  apply valid_same_ids; [|reflexivity].
  unfold ids, markFailed. simpl. now apply update_where_ids.
Qed.

Lemma cancelJob_valid now id db : valid db -> valid (snd (cancelJob now id db)).
Proof.
  apply valid_same_ids; [|reflexivity].
  unfold ids, cancelJob. simpl. now apply update_where_ids.
Qed.

Lemma retryJob_valid now id db : valid db -> valid (snd (retryJob now id db)).
Proof.
  apply valid_same_ids; [|reflexivity].
  unfold ids, retryJob. simpl. now apply update_where_ids.
Qed.

Lemma NoDup_fmap_filter {A B} (f : A -> B) (P : A -> Prop)
    `{forall x, Decision (P x)} (l : list A) :
  NoDup (f <$> l) -> NoDup (f <$> filter P l).
Proof.
  induction l as [|a l IH]; intros Hnd; [constructor|].
  simpl in Hnd. apply NoDup_cons in Hnd. destruct Hnd as [Ha Hl].
  rewrite filter_cons. destruct (decide (P a)); [|auto].
  simpl. apply NoDup_cons. split; [|auto].
  intros Hin. apply Ha. apply list_elem_of_fmap in Hin.
  destruct Hin as (x & Hx & Hin). apply list_elem_of_filter in Hin.
  apply list_elem_of_fmap. exists x. tauto.
Qed.

Lemma deleteOldPosts_valid now days db : valid db -> valid (snd (deleteOldPosts now days db)).
Proof.
  intros [Hnd Hle]. unfold valid, ids, deleteOldPosts. simpl. split.
  - now apply NoDup_fmap_filter.
  - rewrite Forall_forall in *. intros i Hi. apply Hle.
    apply list_elem_of_fmap in Hi. destruct Hi as (r & -> & Hr).
    apply list_elem_of_filter in Hr. apply list_elem_of_fmap_2. tauto.
Qed.

(** ** Reading by id *)

Lemma same_id_same_row (rows : list PostRow.t) r1 r2 :
  NoDup (PostRow.id <$> rows) -> r1 ∈ rows -> r2 ∈ rows ->
  PostRow.id r1 = PostRow.id r2 -> r1 = r2.
Proof.
  intros Hnd H1 H2 Hid.
  apply list_elem_of_lookup in H1. destruct H1 as [i Hi].
  apply list_elem_of_lookup in H2. destruct H2 as [j Hj].
  assert (i = j).
  { eapply NoDup_lookup; [exact Hnd| |].
    - rewrite list_lookup_fmap, Hi. reflexivity.
    - rewrite list_lookup_fmap, Hj. simpl. now rewrite Hid. }
  subst j. congruence.
Qed.

Lemma head_filter_id (rows : list PostRow.t) r :
  NoDup (PostRow.id <$> rows) -> r ∈ rows ->
  head (filter (fun x => PostRow.id x = PostRow.id r) rows) = Some r.
Proof.
  intros Hnd Hin.
  destruct (filter (fun x => PostRow.id x = PostRow.id r) rows) as [|x l] eqn:E.
  - assert (Hr : r ∈ filter (fun x => PostRow.id x = PostRow.id r) rows)
      by (apply list_elem_of_filter; auto).
    rewrite E in Hr. now apply not_elem_of_nil in Hr.
  - simpl. f_equal.
    assert (Hx : x ∈ filter (fun x => PostRow.id x = PostRow.id r) rows)
      by (rewrite E; apply list_elem_of_here).
    apply list_elem_of_filter in Hx. destruct Hx as [Hid Hx].
    now apply (same_id_same_row rows).
Qed.

Lemma head_filter_absent (rows : list PostRow.t) id :
  id ∉ (PostRow.id <$> rows) ->
  head (filter (fun x => PostRow.id x = id) rows) = None.
Proof.
  intros Hno.
  destruct (filter (fun x => PostRow.id x = id) rows) as [|x l] eqn:E; [reflexivity|].
  exfalso. apply Hno.
  assert (Hx : x ∈ filter (fun x => PostRow.id x = id) rows)
    by (rewrite E; apply list_elem_of_here).
  apply list_elem_of_filter in Hx. destruct Hx as [Hid Hx].
  apply list_elem_of_fmap. exists x. auto.
Qed.

End JobStore.

(* ================================================================== *)
(** * The job store: retention sweep and read-back *)
(* ================================================================== *)

Section Retention.
Import Time Db.

Lemma filter_ext_in {A} (P Q : A -> Prop) `{forall x, Decision (P x)}
    `{forall x, Decision (Q x)} (l : list A) :
  (forall x, x ∈ l -> P x <-> Q x) -> filter P l = filter Q l.
Proof.
  induction l as [|x l IH]; intros Hext; [reflexivity|].
  assert (Hx : P x <-> Q x) by (apply Hext, list_elem_of_here).
  assert (Hl : filter P l = filter Q l).
  { apply IH. intros y Hy. apply Hext. now apply list_elem_of_further. }
  rewrite !filter_cons, Hl.
  destruct (decide (P x)), (decide (Q x)); tauto.
Qed.

Lemma text_lt_sql a b :
  in_range_s a -> in_range_s b -> text_lt (sql_text a) (sql_text b) = true <-> a < b.
Proof.
  intros Ha Hb. unfold text_lt, String.ltb. rewrite compare_sql_text by assumption.
  destruct (Z.compare_spec a b); split; intros; try lia; try discriminate; reflexivity.
Qed.

Lemma purgeable_spec now days r :
  0 <= days -> in_range (now - days * 86400000) ->
  in_range_s (PostRow.created_at r) ->
  purgeable now days r = true
  <-> (PostRow.status r = completed \/ PostRow.status r = failed)
      /\ PostRow.created_at r < unix_seconds (now - days * 86400000).
Proof.
  intros Hd Hn Hc. unfold purgeable, cutoff_seconds, created_text.
  destruct (Z.ltb_spec days 0) as [|_]; [lia|].
  rewrite andb_true_iff, orb_true_iff, !bool_decide_eq_true.
  rewrite text_lt_sql by (auto using in_range_seconds). tauto.
Qed.

(** C9. [deleteOldPosts] removes exactly the rows that are [completed] or
    [failed] and whose [created_at] is below the cutoff, the second of
    [now] minus [days] days, and answers how many there were; the rows
    kept stay in order; a [pending] row is kept whatever its age, and so
    is a row created at or after the cutoff. *)
Theorem purge_exactly_old_terminal now days db :
  0 <= days ->
  in_range (now - days * 86400000) ->
  (forall r, r ∈ posts db -> in_range_s (PostRow.created_at r)) ->
  posts (snd (deleteOldPosts now days db))
  = filter (fun r => ~ ((PostRow.status r = completed \/ PostRow.status r = failed)
                        /\ PostRow.created_at r < unix_seconds (now - days * 86400000)))
      (posts db)
  /\ fst (deleteOldPosts now days db)
     = Z.of_nat (length
         (filter (fun r => (PostRow.status r = completed \/ PostRow.status r = failed)
                           /\ PostRow.created_at r < unix_seconds (now - days * 86400000))
            (posts db)))
  /\ (forall r, r ∈ posts db -> PostRow.status r = pending ->
        r ∈ posts (snd (deleteOldPosts now days db)))
  /\ (forall r, r ∈ posts db ->
        unix_seconds (now - days * 86400000) <= PostRow.created_at r ->
        r ∈ posts (snd (deleteOldPosts now days db)))
  /\ (forall r, r ∈ posts db ->
        (PostRow.status r = completed \/ PostRow.status r = failed) ->
        PostRow.created_at r < unix_seconds (now - days * 86400000) ->
        r ∉ posts (snd (deleteOldPosts now days db)))
  /\ tokens (snd (deleteOldPosts now days db)) = tokens db.
Proof.
  intros Hd Hn Hwf.
  assert (Hkeep :
    posts (snd (deleteOldPosts now days db))
    = filter (fun r => ~ ((PostRow.status r = completed \/ PostRow.status r = failed)
                          /\ PostRow.created_at r < unix_seconds (now - days * 86400000)))
        (posts db)).
  { unfold deleteOldPosts. simpl. apply filter_ext_in. intros r Hr.
    rewrite <- (purgeable_spec now days r Hd Hn (Hwf r Hr)).
    destruct (purgeable now days r); split; congruence. }
  split; [exact Hkeep|]. split; [|split; [|split; [|split]]].
  - unfold deleteOldPosts, changes. simpl. f_equal. f_equal.
    apply filter_ext_in. intros r Hr.
    apply (purgeable_spec now days r Hd Hn (Hwf r Hr)).
  - intros r Hr Hp. rewrite Hkeep. apply list_elem_of_filter. split; [|assumption].
    intros [[Hs | Hs] _]; congruence.
  - intros r Hr Hc. rewrite Hkeep. apply list_elem_of_filter. split; [|assumption].
    intros [_ Hlt]. lia.
  - intros r Hr Hs Hc. rewrite Hkeep. intros Hin.
    apply list_elem_of_filter in Hin. destruct Hin as [Hno _]. apply Hno. auto.
  - reflexivity.
Qed.

Lemma rowsToJobs_lookup clock rows (k : nat) :
  rowsToJobs clock rows !! k = rowToJob (clock k) <$> rows !! k.
Proof. unfold rowsToJobs. now rewrite list_lookup_imap. Qed.

Lemma ready_rows_elem now db r :
  r ∈ ready_rows now db <-> r ∈ posts db /\ ready now r = true.
Proof.
  unfold ready_rows. rewrite (order_by_perm ready_order _).
  rewrite list_elem_of_filter. tauto.
Qed.

Lemma listJobs_rows clock options db :
  exists rows,
    listJobs clock options db = rowsToJobs clock rows
    /\ forall r, r ∈ rows -> r ∈ posts db.
Proof.
  unfold listJobs.
  set (r1 := match options ≫= QueueListOptions.status with
             | Some s => filter (fun r => PostRow.status r = s) (posts db)
             | None => posts db
             end).
  assert (H1 : forall r, r ∈ r1 -> r ∈ posts db).
  { subst r1. destruct (options ≫= QueueListOptions.status); [|auto].
    intros r Hr. now apply list_elem_of_filter in Hr. }
  set (r2 := match truthy (options ≫= QueueListOptions.platform) with
             | Some p => filter (fun r => PostRow.platform r = p) r1
             | None => r1
             end).
  assert (H2 : forall r, r ∈ r2 -> r ∈ posts db).
  { subst r2. destruct (truthy (options ≫= QueueListOptions.platform)); [|auto].
    intros r Hr. apply list_elem_of_filter in Hr. now apply H1. }
  set (r3 := order_by newest_first r2).
  assert (H3 : forall r, r ∈ r3 -> r ∈ posts db).
  { subst r3. intros r Hr. rewrite (order_by_perm newest_first r2) in Hr. auto. }
  destruct (options ≫= QueueListOptions.limit) as [n|].
  - destruct (n <=? 0).
    + exists r3. auto.
    + exists (take (Z.to_nat n) r3). split; [reflexivity|].
      intros r Hr. apply H3. now apply (subseteq_take (Z.to_nat n) r3).
  - exists r3. auto.
Qed.

(** C10. A row whose [scheduled_at] is NULL, as [addPost] stores it when
    no schedule time is given, is read back by [getJobById],
    [getPendingJobs] and [listJobs] with [scheduledAt] equal to the clock
    reading taken while the row is converted; the field is never absent;
    the job read is the very one a row scheduled at that reading would
    give; and two reads at different clock readings differ.  And the
    three read paths do report such a row: [getJobById] under its id,
    [getPendingJobs] while it is pending with fewer than three retries,
    [listJobs] always. *)
Theorem null_schedule_reads_as_now db :
  (forall now platform action content filePath,
     let '(id, db') := addPost now platform action content None filePath db in
     exists r, posts db' !! length (posts db) = Some r
               /\ PostRow.id r = id /\ PostRow.scheduled_at r = None)
  /\ (forall now id job,
        getJobById now id db = Some job ->
        exists r, r ∈ posts db /\ PostRow.id r = id /\ job = rowToJob now r
                  /\ (PostRow.scheduled_at r = None -> ScheduledJob.scheduledAt job = now))
  /\ (forall now clock (k : nat) job,
        getPendingJobs now clock db !! k = Some job ->
        exists r, r ∈ posts db /\ job = rowToJob (clock k) r
                  /\ (PostRow.scheduled_at r = None -> ScheduledJob.scheduledAt job = clock k))
  /\ (forall clock options (k : nat) job,
        listJobs clock options db !! k = Some job ->
        exists r, r ∈ posts db /\ job = rowToJob (clock k) r
                  /\ (PostRow.scheduled_at r = None -> ScheduledJob.scheduledAt job = clock k))
  /\ (forall now r,
        PostRow.scheduled_at r = None ->
        rowToJob now r
        = rowToJob now
            (PostRow.mk (PostRow.id r) (PostRow.platform r) (PostRow.action r)
               (PostRow.status r) (Some now) (PostRow.content_json r)
               (PostRow.file_path r) (PostRow.result_json r)
               (PostRow.error_message r) (PostRow.retry_count r)
               (PostRow.created_at r) (PostRow.updated_at r)))
  /\ (forall now1 now2 r,
        PostRow.scheduled_at r = None -> now1 <> now2 ->
        ScheduledJob.scheduledAt (rowToJob now1 r)
        <> ScheduledJob.scheduledAt (rowToJob now2 r))
  /\ (forall now r,
        NoDup (ids db) -> r ∈ posts db -> PostRow.scheduled_at r = None ->
        exists job,
          getJobById now (PostRow.id r) db = Some job
          /\ job = rowToJob now r /\ ScheduledJob.scheduledAt job = now)
  /\ (forall now clock r,
        r ∈ posts db -> PostRow.scheduled_at r = None ->
        PostRow.status r = pending -> PostRow.retry_count r < 3 ->
        exists (k : nat) job,
          getPendingJobs now clock db !! k = Some job
          /\ job = rowToJob (clock k) r /\ ScheduledJob.scheduledAt job = clock k)
  /\ (forall clock r,
        r ∈ posts db -> PostRow.scheduled_at r = None ->
        exists (k : nat) job,
          listJobs clock None db !! k = Some job
          /\ job = rowToJob (clock k) r /\ ScheduledJob.scheduledAt job = clock k).
Proof.
  split; [|split; [|split; [|split; [|split; [|split; [|split; [|split]]]]]]].
  - intros now platform action content filePath.
    pose proof (addPost_lookup now platform action content None filePath db) as H.
    destruct (addPost now platform action content None filePath db) as [id db'].
    destruct H as (r & H1 & H2 & _ & _ & H3). eauto.
  - intros now id job H. unfold getJobById in H.
    destruct (head (filter (fun r => PostRow.id r = id) (posts db))) as [r|] eqn:E;
      simpl in H; [|discriminate].
    injection H as <-. exists r.
    assert (Hin : r ∈ filter (fun r => PostRow.id r = id) (posts db)).
    { destruct (filter (fun r => PostRow.id r = id) (posts db)); simpl in E; [discriminate|].
      injection E as ->. apply list_elem_of_here. }
    apply list_elem_of_filter in Hin. destruct Hin as [Hid Hin].
    repeat split; try assumption. intros Hn. unfold rowToJob. simpl. now rewrite Hn.
  - intros now clock k job H. unfold getPendingJobs in H.
    rewrite rowsToJobs_lookup in H.
    destruct (ready_rows now db !! k) as [r|] eqn:E; simpl in H; [|discriminate].
    injection H as <-. exists r. split.
    + apply list_elem_of_lookup_2 in E. now apply ready_rows_elem in E.
    + split; [reflexivity|]. intros Hn. unfold rowToJob. simpl. now rewrite Hn.
  - intros clock options k job H.
    destruct (listJobs_rows clock options db) as (rows & Heq & Hrows).
    rewrite Heq, rowsToJobs_lookup in H.
    destruct (rows !! k) as [r|] eqn:E; simpl in H; [|discriminate].
    injection H as <-. exists r. split.
    + apply Hrows. eapply list_elem_of_lookup_2; eassumption.
    + split; [reflexivity|]. intros Hn. unfold rowToJob. simpl. now rewrite Hn.
  - intros now r Hn. unfold rowToJob. simpl. now rewrite Hn.
  - intros now1 now2 r Hn Hne. unfold rowToJob. simpl. now rewrite Hn.
  - intros now r Hnd Hin Hn. exists (rowToJob now r).
    split; [|split; [reflexivity|simpl; now rewrite Hn]].
    unfold getJobById. now rewrite (head_filter_id (posts db) r Hnd Hin).
  - intros now clock r Hin Hn Hst Hcnt.
    assert (Hr : r ∈ ready_rows now db).
    { apply ready_rows_elem. split; [assumption|]. unfold ready, due.
      rewrite Hn. apply Z.ltb_lt in Hcnt. rewrite Hcnt.
      now rewrite (bool_decide_eq_true_2 _ Hst). }
    apply list_elem_of_lookup in Hr. destruct Hr as [k Hk].
    exists k, (rowToJob (clock k) r).
    split; [|split; [reflexivity|simpl; now rewrite Hn]].
    unfold getPendingJobs. now rewrite rowsToJobs_lookup, Hk.
  - intros clock r Hin Hn.
    assert (Hr : r ∈ order_by newest_first (posts db))
      by now rewrite (order_by_perm newest_first (posts db)).
    apply list_elem_of_lookup in Hr. destruct Hr as [k Hk].
    exists k, (rowToJob (clock k) r).
    split; [|split; [reflexivity|simpl; now rewrite Hn]].
    unfold listJobs. simpl. now rewrite rowsToJobs_lookup, Hk.
Qed.

End Retention.

(* ================================================================== *)
(** * The job store: the ready set *)
(* ================================================================== *)

Section ReadySet.
Import Time Db.

Lemma day_of_unix_seconds now : unix_seconds now / 86400 = now / 86400000.
Proof. unfold unix_seconds. rewrite Z.div_div by lia. reflexivity. Qed.

(** The comparison [scheduled_at <= datetime('now')] is made between an
    ISO text and a SQLite text: it holds exactly when the scheduled UTC
    date is an earlier date than today's. *)
Lemma due_spec now r :
  in_range now ->
  (forall t, PostRow.scheduled_at r = Some t -> in_range t) ->
  due now r = true
  <-> PostRow.scheduled_at r = None
      \/ exists t, PostRow.scheduled_at r = Some t /\ t / 86400000 < now / 86400000.
Proof.
  intros Hn Hr. unfold due. destruct (PostRow.scheduled_at r) as [t|].
  - unfold text_le, String.leb, sqlite_datetime.
    rewrite compare_iso_sql by auto using in_range_seconds.
    rewrite day_of_unix_seconds.
    destruct (Z.ltb_spec (t / 86400000) (now / 86400000)); split.
    + intros _. right. exists t. auto.
    + reflexivity.
    + discriminate.
    + intros [? | (t' & [= <-] & ?)]; [discriminate | lia].
  - split; auto.
Qed.

Lemma earlier_day_earlier t now : t / 86400000 < now / 86400000 -> t < now.
Proof. intros H. Z.to_euclidean_division_equations. lia. Qed.

Lemma ready_spec now r :
  in_range now ->
  (forall t, PostRow.scheduled_at r = Some t -> in_range t) ->
  ready now r = true
  <-> PostRow.status r = pending
      /\ (PostRow.scheduled_at r = None
          \/ exists t, PostRow.scheduled_at r = Some t /\ t / 86400000 < now / 86400000)
      /\ PostRow.retry_count r < 3.
Proof.
  intros Hn Hr. unfold ready.
  rewrite !andb_true_iff, bool_decide_eq_true, Z.ltb_lt, (due_spec now r Hn Hr).
  tauto.
Qed.

Lemma getPendingJobs_lookup now clock db (k : nat) :
  getPendingJobs now clock db !! k = rowToJob (clock k) <$> ready_rows now db !! k.
Proof. unfold getPendingJobs. apply rowsToJobs_lookup. Qed.

(** What the ready set does hold.  Every job in it comes from a row that is
    [pending], has [retry_count] below 3 (the constant of the store's
    query, whatever ceiling the dispatcher is configured with) and a
    [scheduled_at] that is NULL or not after now; and every [pending] row
    with [retry_count] below 3 and no [scheduled_at] is in the ready set. *)
Theorem ready_set_fixed_ceiling now clock db :
  in_range now ->
  (forall r t, r ∈ posts db -> PostRow.scheduled_at r = Some t -> in_range t) ->
  (forall (k : nat) job,
     getPendingJobs now clock db !! k = Some job ->
     exists r,
       r ∈ posts db /\ job = rowToJob (clock k) r
       /\ PostRow.status r = pending
       /\ PostRow.retry_count r < 3
       /\ (PostRow.scheduled_at r = None
           \/ exists t, PostRow.scheduled_at r = Some t /\ t <= now))
  /\ (forall r,
        r ∈ posts db ->
        PostRow.status r = pending -> PostRow.retry_count r < 3 ->
        PostRow.scheduled_at r = None ->
        exists k : nat, getPendingJobs now clock db !! k = Some (rowToJob (clock k) r))
  /\ (forall job,
        job ∈ getPendingJobs now clock db ->
        ScheduledJob.status job = pending /\ ScheduledJob.retryCount job < 3).
Proof.
  intros Hn Hwf.
  assert (Hsound : forall (k : nat) job,
     getPendingJobs now clock db !! k = Some job ->
     exists r,
       r ∈ posts db /\ job = rowToJob (clock k) r
       /\ PostRow.status r = pending
       /\ PostRow.retry_count r < 3
       /\ (PostRow.scheduled_at r = None
           \/ exists t, PostRow.scheduled_at r = Some t /\ t <= now)).
  { intros k job H. rewrite getPendingJobs_lookup in H.
    destruct (ready_rows now db !! k) as [r|] eqn:E; simpl in H; [|discriminate].
    injection H as <-. exists r.
    apply list_elem_of_lookup_2, ready_rows_elem in E. destruct E as [Hin Hr].
    apply (ready_spec now r Hn (fun t => Hwf r t Hin)) in Hr. destruct Hr as (Hs & Hd & Hc).
    repeat split; try assumption.
    destruct Hd as [Hd | (t & Ht & Hlt)]; [now left | right].
    exists t. split; [assumption|]. apply earlier_day_earlier in Hlt. lia. }
  split; [exact Hsound|]. split.
  - intros r Hin Hs Hc Hnone.
    assert (Hr : r ∈ ready_rows now db).
    { apply ready_rows_elem. split; [assumption|].
      apply (ready_spec now r Hn (fun t => Hwf r t Hin)). auto. }
    apply list_elem_of_lookup_1 in Hr. destruct Hr as [k Hk]. exists k.
    now rewrite getPendingJobs_lookup, Hk.
  - intros job Hjob. apply list_elem_of_lookup_1 in Hjob. destruct Hjob as [k Hk].
    destruct (Hsound k job Hk) as (r & _ & -> & Hs & Hc & _). simpl. auto.
Qed.

Lemma ready_order_lt a b :
  (forall t, PostRow.scheduled_at a = Some t -> in_range t) ->
  (forall t, PostRow.scheduled_at b = Some t -> in_range t) ->
  in_range_s (PostRow.created_at a) -> in_range_s (PostRow.created_at b) ->
  (PostRow.scheduled_at a = None /\ PostRow.scheduled_at b <> None)
  \/ (exists t1 t2, PostRow.scheduled_at a = Some t1
                    /\ PostRow.scheduled_at b = Some t2 /\ t1 < t2)
  \/ (PostRow.scheduled_at a = PostRow.scheduled_at b
      /\ PostRow.created_at a < PostRow.created_at b) ->
  ready_order a b = Lt.
Proof.
  intros Ha Hb Hca Hcb. unfold ready_order, scheduled_text, created_text.
  intros [[E1 E2] | [(t1 & t2 & E1 & E2 & Hlt) | [E Hlt]]].
  - rewrite E1. destruct (PostRow.scheduled_at b); [reflexivity | congruence].
  - rewrite E1, E2.
    change (nulls_first (toISOString <$> Some t1) (toISOString <$> Some t2))
      with (String.compare (toISOString t1) (toISOString t2)).
    rewrite compare_toISOString by auto.
    apply Z.compare_lt_iff in Hlt. now rewrite Hlt.
  - rewrite E.
    rewrite (cmp_refl nulls_first). unfold lexc.
    rewrite compare_sql_text by assumption. now apply Z.compare_lt_iff.
Qed.

(** Rows whose ids ascend along the table stand in the table in the
    order of their ids. *)
Lemma ascending_ids_sublist (rows : list PostRow.t) a b :
  StronglySorted Z.lt (PostRow.id <$> rows) ->
  a ∈ rows -> b ∈ rows -> PostRow.id a < PostRow.id b ->
  [a; b] `sublist_of` rows.
Proof.
  induction rows as [|z rows IH]; intros Hs Ha Hb Hlt.
  - now apply elem_of_nil in Ha.
  - rewrite fmap_cons in Hs. apply StronglySorted_inv in Hs. destruct Hs as [Hs Hall].
    rewrite List.Forall_forall in Hall.
    assert (Hbelow : forall r, r ∈ rows -> PostRow.id z < PostRow.id r).
    { intros r Hr. apply Hall. apply list_elem_of_In, list_elem_of_fmap. eauto. }
    apply elem_of_cons in Ha. apply elem_of_cons in Hb.
    destruct Ha as [-> | Ha], Hb as [-> | Hb].
    + lia.
    + apply sublist_skip. now apply singleton_sublist_l.
    + specialize (Hbelow a Ha). lia.
    + apply sublist_cons. now apply IH.
Qed.

Lemma ascending_ids_NoDup (l : list Z) : StronglySorted Z.lt l -> NoDup l.
Proof.
  induction 1 as [|x l Hs IH Hall]; constructor; [|assumption].
  intros Hin. rewrite List.Forall_forall in Hall.
  apply list_elem_of_In in Hin. specialize (Hall x Hin). lia.
Qed.

(** The table is kept in the order of the ids: [addPost] appends a row
    with an id above all others, and no statement reorders the rows. *)
Lemma history_ids_ascending ops :
  StronglySorted Z.lt (ids (Ops.run ops empty)).
Proof.
  assert (Hinv : forall db,
            StronglySorted Z.lt (ids db) /\ Forall (fun i => i <= posts_seq db) (ids db) ->
            StronglySorted Z.lt (ids (Ops.run ops db))
            /\ Forall (fun i => i <= posts_seq (Ops.run ops db)) (ids (Ops.run ops db))).
  { unfold Ops.run. induction ops as [|op ops IH]; intros db [Hs Hle]; simpl; [auto|].
    apply IH. clear IH.
    assert (Hupd : forall p f,
              (forall r, PostRow.id (f r) = PostRow.id r) ->
              ids (set_posts (update_where p f (posts db)) db) = ids db).
    { intros p f Hf. unfold ids. simpl. now apply update_where_ids. }
    destruct op; simpl; unfold markComplete, markFailed;
      rewrite ?Hupd by (intros r; reflexivity); auto.
    - unfold ids. simpl. rewrite fmap_app. simpl. split.
      + clear Hupd. unfold ids in Hs, Hle.
        induction (PostRow.id <$> posts db) as [|x l IHl]; simpl.
        * repeat constructor.
        * apply StronglySorted_inv in Hs. destruct Hs as [Hs Hall].
          apply Forall_cons in Hle. destruct Hle as [Hx Hle].
          constructor; [now apply IHl|].
          apply List.Forall_app. split; [assumption|]. repeat constructor. lia.
      + apply Forall_app. split; [|repeat constructor; lia].
        eapply Forall_impl; [exact Hle|]. simpl. intros. lia.
    - unfold ids. simpl. split.
      + clear Hupd Hle. unfold ids in Hs.
        induction (posts db) as [|r rows IHr]; [constructor|].
        rewrite fmap_cons in Hs. apply StronglySorted_inv in Hs. destruct Hs as [Hs Hall].
        rewrite filter_cons. destruct (decide _); [|now apply IHr].
        rewrite fmap_cons. constructor; [now apply IHr|].
        rewrite List.Forall_forall in *. intros i Hi. apply Hall.
        apply list_elem_of_In in Hi. apply list_elem_of_In.
        apply list_elem_of_fmap in Hi. destruct Hi as (x & -> & Hx).
        apply list_elem_of_filter in Hx. apply list_elem_of_fmap. exists x. tauto.
      + unfold ids in Hle. rewrite Forall_forall in *. intros i Hi. apply Hle.
        apply list_elem_of_fmap in Hi. destruct Hi as (x & -> & Hx).
        apply list_elem_of_filter in Hx. apply list_elem_of_fmap. exists x. tauto. }
  apply Hinv. unfold empty, ids. simpl. split; constructor.
Qed.

(** C7. In the ready set a row with NULL [scheduled_at] stands before
    every row that has one; of two rows with schedule times t1 < t2 the
    first stands before the second; of two rows with the same
    [scheduled_at] the one created in an earlier second stands first; and
    of two rows with the same [scheduled_at] created in the same second
    the one added first, that is the one with the lower id, stands first
    (the table being in the order of its ids, as every history of the
    store's operations leaves it).  The jobs returned are these rows,
    position by position. *)
Theorem ready_set_is_ordered now clock db (i j : nat) a b :
  (forall r t, r ∈ posts db -> PostRow.scheduled_at r = Some t -> in_range t) ->
  (forall r, r ∈ posts db -> in_range_s (PostRow.created_at r)) ->
  ready_rows now db !! i = Some a ->
  ready_rows now db !! j = Some b ->
  (PostRow.scheduled_at a = None /\ PostRow.scheduled_at b <> None)
  \/ (exists t1 t2, PostRow.scheduled_at a = Some t1
                    /\ PostRow.scheduled_at b = Some t2 /\ t1 < t2)
  \/ (PostRow.scheduled_at a = PostRow.scheduled_at b
      /\ PostRow.created_at a < PostRow.created_at b)
  \/ (PostRow.scheduled_at a = PostRow.scheduled_at b
      /\ PostRow.created_at a = PostRow.created_at b
      /\ StronglySorted Z.lt (ids db)
      /\ PostRow.id a < PostRow.id b) ->
  (i < j)%nat
  /\ getPendingJobs now clock db !! i = Some (rowToJob (clock i) a)
  /\ getPendingJobs now clock db !! j = Some (rowToJob (clock j) b).
Proof.
  intros Hwf Hwc Hi Hj Hkey.
  assert (Ha : a ∈ posts db /\ ready now a = true).
  { apply list_elem_of_lookup_2, ready_rows_elem in Hi. tauto. }
  assert (Hb : b ∈ posts db /\ ready now b = true).
  { apply list_elem_of_lookup_2, ready_rows_elem in Hj. tauto. }
  destruct Ha as [Ha Hra], Hb as [Hb Hrb].
  split; [|split].
  - destruct Hkey as [Hk | [Hk | [Hk | (Es & Ec & Hasc & Hid)]]].
    + apply (sorted_lt_before ready_order (ready_rows now db) i j a b); try assumption.
      * apply order_by_sorted. apply _.
      * apply ready_order_lt; eauto.
    + apply (sorted_lt_before ready_order (ready_rows now db) i j a b); try assumption.
      * apply order_by_sorted. apply _.
      * apply ready_order_lt; eauto.
    + apply (sorted_lt_before ready_order (ready_rows now db) i j a b); try assumption.
      * apply order_by_sorted. apply _.
      * apply ready_order_lt; eauto.
    + assert (Heq : ready_order a b = Eq).
      { unfold ready_order, scheduled_text, created_text. rewrite Es, Ec.
        rewrite (cmp_refl nulls_first). unfold lexc. apply (cmp_refl String.compare). }
      assert (Hnd : NoDup (ready_rows now db)).
      { apply (NoDup_fmap_1 PostRow.id). unfold ready_rows.
        rewrite (order_by_perm ready_order _). apply NoDup_fmap_filter.
        now apply ascending_ids_NoDup. }
      apply (sublist_pair_lookup (ready_rows now db) Hnd i j a b); try assumption.
      unfold ready_rows. apply order_by_stable; [|congruence].
      apply sublist_pair_filter; try assumption.
      now apply ascending_ids_sublist.
  - now rewrite getPendingJobs_lookup, Hi.
  - now rewrite getPendingJobs_lookup, Hj.
Qed.

End ReadySet.

(* ================================================================== *)
(** * The dispatch loop *)
(* ================================================================== *)

Section DispatchFacts.
Import Time Db Scheduler.

Variable MAX_RETRIES : Z.
Variable spawn : ScheduledJob.t -> Exited.
Variable parse_content : string -> option string.
Variable parse_result : string -> option SkillResult.t.
Variable JSON_stringify : SkillResult.t -> string.

Lemma ready_ids_NoDup now db :
  valid db -> NoDup (PostRow.id <$> ready_rows now db).
Proof.
  intros [H _]. unfold ready_rows. rewrite (order_by_perm ready_order _).
  now apply NoDup_fmap_filter.
Qed.

Lemma fail_lookup now job msg w (p : nat) :
  posts (db (Scheduler.fail now job msg w)) !! p
  = (fun r => if has_id (ScheduledJob.id job) r then fail_row now msg r else r)
      <$> posts (db w) !! p.
Proof. unfold Scheduler.fail, Queue.failJob. simpl. apply markFailed_lookup. Qed.

Lemma markComplete_other now id json d (p : nat) r :
  posts d !! p = Some r -> PostRow.id r <> id ->
  posts (markComplete now id json d) !! p = Some r.
Proof.
  intros Hp Hne. unfold markComplete. simpl. rewrite update_where_lookup, Hp. simpl.
  destruct (has_id id r) eqn:E; [|reflexivity].
  apply has_id_true in E. contradiction.
Qed.

Lemma fail_other now job msg w (p : nat) r :
  posts (db w) !! p = Some r -> PostRow.id r <> ScheduledJob.id job ->
  posts (db (Scheduler.fail now job msg w)) !! p = Some r.
Proof.
  intros Hp Hne. rewrite fail_lookup, Hp. simpl.
  destruct (has_id (ScheduledJob.id job) r) eqn:E; [|reflexivity].
  apply has_id_true in E. contradiction.
Qed.

(** Settling one job touches no row with another id. *)
Lemma process_job_other now job w (p : nat) r :
  posts (db w) !! p = Some r -> PostRow.id r <> ScheduledJob.id job ->
  posts (db (process_job MAX_RETRIES spawn parse_content parse_result JSON_stringify now job w)) !! p
  = Some r.
Proof.
  intros Hp Hne. unfold process_job.
  destruct (MAX_RETRIES <=? ScheduledJob.retryCount job); [now apply fail_other|].
  destruct (executeSkill spawn parse_content parse_result job) as [result | message]; [|now apply fail_other].
  destruct (SkillResult.success result).
  - destruct (truthy (ScheduledJob.filePath job)); simpl;
      now apply markComplete_other.
  - destruct (bool_decide (SkillResult.needsAuth result = Some true));
      now apply fail_other.
Qed.

Lemma run_jobs_other clock jobs :
  forall (k : nat) w (p : nat) r,
    posts (db w) !! p = Some r ->
    (forall j, j ∈ jobs -> ScheduledJob.id j <> PostRow.id r) ->
    posts (db (run_jobs MAX_RETRIES spawn parse_content parse_result JSON_stringify clock k jobs w)) !! p
    = Some r.
Proof.
  induction jobs as [|job jobs IH]; intros k w p r Hp Hids; simpl; [assumption|].
  apply IH.
  - apply process_job_other; [assumption|].
    intros E. apply (Hids job); [apply list_elem_of_here | congruence].
  - intros j Hj. apply Hids. now apply list_elem_of_further.
Qed.

Lemma run_jobs_app clock l1 :
  forall l2 (k : nat) w,
    run_jobs MAX_RETRIES spawn parse_content parse_result JSON_stringify clock k (l1 ++ l2) w
    = run_jobs MAX_RETRIES spawn parse_content parse_result JSON_stringify clock (k + length l1) l2
        (run_jobs MAX_RETRIES spawn parse_content parse_result JSON_stringify clock k l1 w).
Proof.
  induction l1 as [|j l1 IH]; intros l2 k w; simpl.
  - now rewrite Nat.add_0_r.
  - rewrite IH. f_equal. lia.
Qed.

(** A result flagged [needsAuth] that is not a success is settled by
    [failJob], like any other failure; only the message differs. *)
Lemma process_job_needsAuth now job w result :
  ScheduledJob.retryCount job < MAX_RETRIES ->
  executeSkill spawn parse_content parse_result job = Returned result ->
  SkillResult.success result = false ->
  SkillResult.needsAuth result = Some true ->
  process_job MAX_RETRIES spawn parse_content parse_result JSON_stringify now job w
  = Scheduler.fail now job
      ("Authentication required: " +:+ interpolate (SkillResult.error result)) w.
Proof.
  intros Hc He Hs Ha. unfold process_job.
  destruct (Z.leb_spec MAX_RETRIES (ScheduledJob.retryCount job)); [lia|].
  rewrite He, Hs, Ha. now rewrite bool_decide_eq_true_2.
Qed.

Lemma process_job_failure now job w result :
  ScheduledJob.retryCount job < MAX_RETRIES ->
  executeSkill spawn parse_content parse_result job = Returned result ->
  SkillResult.success result = false ->
  SkillResult.needsAuth result <> Some true ->
  process_job MAX_RETRIES spawn parse_content parse_result JSON_stringify now job w
  = Scheduler.fail now job
      (default "Unknown error" (truthy (SkillResult.error result))) w.
Proof.
  intros Hc He Hs Ha. unfold process_job.
  destruct (Z.leb_spec MAX_RETRIES (ScheduledJob.retryCount job)); [lia|].
  rewrite He, Hs. now rewrite bool_decide_eq_false_2.
Qed.

(** A skill process that exits with a non-zero code is reported as a plain
    failure: nothing of what it printed, a [needsAuth] flag included,
    reaches the loop. *)
Lemma nonzero_exit_is_plain_failure job result :
  parse_content (ScheduledJob.contentJson job) = None ->
  exitCode (spawn job) <> 0 ->
  executeSkill spawn parse_content parse_result job = Returned result ->
  SkillResult.success result = false /\ SkillResult.needsAuth result = None.
Proof.
  intros Hc Hx. unfold executeSkill. rewrite Hc.
  destruct (Z.eqb_spec (exitCode (spawn job)) 0) as [|_]; [contradiction|].
  simpl. intros [= <-]. split; reflexivity.
Qed.

Lemma ready_job_row now jsClock d (k : nat) job :
  Queue.getReadyJobs now jsClock d !! k = Some job ->
  exists r, ready_rows now d !! k = Some r /\ job = rowToJob (jsClock k) r.
Proof.
  unfold Queue.getReadyJobs. rewrite getPendingJobs_lookup.
  destruct (ready_rows now d !! k) as [r|]; simpl; [|discriminate].
  intros [= <-]. eauto.
Qed.

Lemma ready_jobs_ids now jsClock d :
  ScheduledJob.id <$> Queue.getReadyJobs now jsClock d = PostRow.id <$> ready_rows now d.
Proof.
  unfold Queue.getReadyJobs, getPendingJobs, rowsToJobs.
  apply list_eq. intros i. rewrite !list_lookup_fmap, list_lookup_imap.
  destruct (ready_rows now d !! i); reflexivity.
Qed.

(** C2. A job of the ready set whose executor result is a failure flagged
    [needsAuth] is settled by [failJob] with the message
    "Authentication required: ...": after the tick its row is [failed],
    carries that message, and its [retry_count] is one more than the count
    the job was read with, exactly as for a failure without the flag, which
    is settled by the same [failJob] with another message. *)
Theorem needsAuth_counts_as_failure now jsClock clock w (k : nat) job result :
  valid (db w) ->
  Queue.getReadyJobs now jsClock (db w) !! k = Some job ->
  ScheduledJob.retryCount job < MAX_RETRIES ->
  executeSkill spawn parse_content parse_result job = Returned result ->
  SkillResult.success result = false ->
  SkillResult.needsAuth result = Some true ->
  (forall now' w',
     process_job MAX_RETRIES spawn parse_content parse_result JSON_stringify now' job w'
     = Scheduler.fail now' job
         ("Authentication required: " +:+ interpolate (SkillResult.error result)) w')
  /\ (exists (p : nat) r r',
        posts (db w) !! p = Some r
        /\ PostRow.id r = ScheduledJob.id job
        /\ PostRow.retry_count r = ScheduledJob.retryCount job
        /\ posts (db (processJobs MAX_RETRIES spawn parse_content parse_result JSON_stringify
                        now jsClock clock w)) !! p = Some r'
        /\ PostRow.id r' = ScheduledJob.id job
        /\ PostRow.status r' = failed
        /\ PostRow.error_message r'
           = Some ("Authentication required: " +:+ interpolate (SkillResult.error result))
        /\ PostRow.retry_count r' = ScheduledJob.retryCount job + 1
        /\ PostRow.updated_at r' = unix_seconds (clock k))
  /\ (forall spawn' parse_result' result',
        executeSkill spawn' parse_content parse_result' job = Returned result' ->
        SkillResult.success result' = false ->
        SkillResult.needsAuth result' <> Some true ->
        forall now' w',
          process_job MAX_RETRIES spawn' parse_content parse_result' JSON_stringify now' job w'
          = Scheduler.fail now' job
              (default "Unknown error" (truthy (SkillResult.error result'))) w')
  /\ (forall now' job' msg w' (p : nat) r,
        posts (db w') !! p = Some r -> PostRow.id r = ScheduledJob.id job' ->
        exists r',
          posts (db (Scheduler.fail now' job' msg w')) !! p = Some r'
          /\ PostRow.status r' = failed
          /\ PostRow.retry_count r' = PostRow.retry_count r + 1).
Proof.
  intros Hnd Hjob Hc He Hs Ha.
  split; [|split; [|split]].
  - intros now' w'. now apply process_job_needsAuth.
  - set (jobs := Queue.getReadyJobs now jsClock (db w)) in *.
    set (msg := "Authentication required: " +:+ interpolate (SkillResult.error result)).
    destruct (ready_job_row now jsClock (db w) k job Hjob) as (r & Hr & Hjr).
    assert (Hin : r ∈ posts (db w)).
    { apply list_elem_of_lookup_2, ready_rows_elem in Hr. tauto. }
    apply list_elem_of_lookup_1 in Hin. destruct Hin as [p Hp].
    assert (Hid : PostRow.id r = ScheduledJob.id job) by (now subst job).
    assert (Hids : NoDup (ScheduledJob.id <$> jobs)).
    { subst jobs. rewrite ready_jobs_ids. now apply ready_ids_NoDup. }
    assert (Hk : (ScheduledJob.id <$> jobs) !! k = Some (ScheduledJob.id job)).
    { now rewrite list_lookup_fmap, Hjob. }
    assert (Hothers : forall (i : nat) j,
              jobs !! i = Some j -> i <> k -> ScheduledJob.id j <> PostRow.id r).
    { intros i j Hi Hne E. apply Hne.
      apply (NoDup_lookup _ i k (ScheduledJob.id job) Hids); [|assumption].
      rewrite list_lookup_fmap, Hi. simpl. congruence. }
    exists p, r, (fail_row (clock k) msg r).
    split; [assumption|]. split; [assumption|]. split; [now subst job|].
    split; [|simpl; repeat split; (assumption || (subst job; simpl; reflexivity))].
    unfold processJobs. fold jobs.
    rewrite <- (take_drop_middle jobs k job Hjob).
    rewrite run_jobs_app. simpl.
    assert (Hlen : length (take k jobs) = k).
    { apply length_take_le. apply lookup_lt_Some in Hjob. lia. }
    rewrite Hlen.
    apply run_jobs_other.
    + rewrite (process_job_needsAuth _ job _ result) by assumption.
      rewrite fail_lookup.
      rewrite (run_jobs_other clock (take k jobs) 0%nat w p r Hp).
      * simpl. now rewrite (proj2 (has_id_true (ScheduledJob.id job) r) Hid).
      * intros j Hj. apply elem_of_take in Hj. destruct Hj as (i & Hi & Hlt).
        apply (Hothers i j Hi). lia.
    + intros j Hj. simpl. apply list_elem_of_lookup_1 in Hj. destruct Hj as [i Hi].
      rewrite lookup_drop in Hi. apply (Hothers _ j Hi). lia.
  - intros spawn' parse_result' result' He' Hs' Ha' now' w'. unfold process_job.
    destruct (Z.leb_spec MAX_RETRIES (ScheduledJob.retryCount job)); [lia|].
    rewrite He', Hs'. now rewrite bool_decide_eq_false_2.
  - intros now' job' msg w' p r Hp Hid. exists (fail_row now' msg r). split.
    + rewrite fail_lookup, Hp. simpl.
      now rewrite (proj2 (has_id_true (ScheduledJob.id job') r) Hid).
    + simpl. auto.
Qed.

Lemma process_job_valid now job w :
  valid (db w) ->
  valid (db (process_job MAX_RETRIES spawn parse_content parse_result JSON_stringify now job w)).
Proof.
  intros Hv. unfold process_job, Scheduler.fail, Queue.failJob, Queue.completeJob.
  destruct (MAX_RETRIES <=? ScheduledJob.retryCount job);
    [now apply markFailed_valid|].
  destruct (executeSkill spawn parse_content parse_result job) as [result | message]; [|now apply markFailed_valid].
  destruct (SkillResult.success result).
  - destruct (truthy (ScheduledJob.filePath job)); now apply markComplete_valid.
  - destruct (bool_decide (SkillResult.needsAuth result = Some true));
      now apply markFailed_valid.
Qed.

Lemma processJobs_valid now jsClock clock w :
  valid (db w) ->
  valid (db (processJobs MAX_RETRIES spawn parse_content parse_result JSON_stringify now jsClock clock w)).
Proof.
  unfold processJobs. generalize (Queue.getReadyJobs now jsClock (db w)) 0%nat.
  intros jobs. revert w.
  induction jobs as [|job jobs IH]; intros w k Hv; simpl; [assumption|].
  apply IH. now apply process_job_valid.
Qed.

End DispatchFacts.

(* ================================================================== *)
(** * Credential lifecycle *)
(* ================================================================== *)

Section TokenFacts.
Import Db TokenManager.

Lemma needsRefresh_false now token :
  needsRefresh now token = false
  <-> TokenData.expiresAt token = None
      \/ exists e, TokenData.expiresAt token = Some e /\ REFRESH_BUFFER_MS <= e - now.
Proof.
  unfold needsRefresh. destruct (TokenData.expiresAt token) as [e|].
  - rewrite Z.ltb_ge. split.
    + intros H. right. eauto.
    + intros [? | (e' & [= <-] & H)]; [discriminate | assumption].
  - split; auto.
Qed.

Lemma isExpired_false now token :
  isExpired now token = false
  <-> TokenData.expiresAt token = None
      \/ exists e, TokenData.expiresAt token = Some e /\ now < e.
Proof.
  unfold isExpired. destruct (TokenData.expiresAt token) as [e|].
  - rewrite Z.leb_gt. split.
    + intros H. right. eauto.
    + intros [? | (e' & [= <-] & H)]; [discriminate | assumption].
  - split; auto.
Qed.

Lemma saveToken_getToken now data db :
  getToken (TokenData.platform data) (saveToken now data db)
  = Some {| TokenData.platform := TokenData.platform data;
            TokenData.accessToken := TokenData.accessToken data;
            TokenData.refreshToken := truthy (TokenData.refreshToken data);
            TokenData.expiresAt := TokenData.expiresAt data;
            TokenData.updatedAt := Some (Time.local (Time.unix_seconds now)) |}.
Proof.
  unfold getToken, saveToken, set_tokens. simpl.
  now rewrite lookup_insert_eq.
Qed.

(** C8. [getValidToken] answers absent when no credential is stored; the
    stored credential, untouched, when it has no expiry or its expiry is
    at least the refresh buffer away and not yet passed; absent, without
    calling anything, when the credential is stale and has no refresh
    token or no refresh function is given; otherwise it calls the refresh
    function once, on the stored credential, and either stores and
    answers the credential it resolves to, or answers absent and leaves
    the store as it was when it resolves to null or rejects. *)
Theorem getValidToken_cases clock platform refreshFn db :
  (getToken platform db = None ->
   getValidToken clock platform refreshFn db = (None, db, []))
  /\ (forall token,
        getToken platform db = Some token ->
        ((TokenData.expiresAt token = None
          \/ exists e, TokenData.expiresAt token = Some e
                       /\ REFRESH_BUFFER_MS <= e - clock 0%nat /\ clock 1%nat < e) ->
         getValidToken clock platform refreshFn db = (Some token, db, []))
        /\ (forall e,
              TokenData.expiresAt token = Some e ->
              e - clock 0%nat < REFRESH_BUFFER_MS \/ e <= clock 1%nat ->
              (truthy (TokenData.refreshToken token) = None \/ refreshFn = None ->
               getValidToken clock platform refreshFn db = (None, db, []))
              /\ (forall fn,
                    is_Some (truthy (TokenData.refreshToken token)) ->
                    refreshFn = Some fn ->
                    snd (getValidToken clock platform refreshFn db) = [token]
                    /\ (forall newToken,
                          fn token = Resolved (Some newToken) ->
                          getValidToken clock platform refreshFn db
                          = (Some newToken, saveToken (clock 2%nat) newToken db, [token])
                          /\ getToken (TokenData.platform newToken)
                               (saveToken (clock 2%nat) newToken db)
                             = Some
                                 {| TokenData.platform := TokenData.platform newToken;
                                    TokenData.accessToken := TokenData.accessToken newToken;
                                    TokenData.refreshToken :=
                                      truthy (TokenData.refreshToken newToken);
                                    TokenData.expiresAt := TokenData.expiresAt newToken;
                                    TokenData.updatedAt :=
                                      Some (Time.local (Time.unix_seconds (clock 2%nat))) |})
                    /\ (fn token = Resolved None \/ fn token = Rejected ->
                        getValidToken clock platform refreshFn db
                        = (None, db, [token])))))
  /\ REFRESH_BUFFER_MS = 300000.
Proof.
  split; [|split; [|reflexivity]].
  - intros H. unfold getValidToken. now rewrite H.
  - intros token Htok. split.
    + intros Hfresh. unfold getValidToken. rewrite Htok.
      assert (H0 : needsRefresh (clock 0%nat) token = false).
      { apply needsRefresh_false. destruct Hfresh as [? | (e & ? & ? & ?)]; eauto. }
      assert (H1 : isExpired (clock 1%nat) token = false).
      { apply isExpired_false. destruct Hfresh as [? | (e & ? & ? & ?)]; eauto. }
      now rewrite H0, H1.
    + intros e He Hstale.
      assert (Hs : negb (needsRefresh (clock 0%nat) token)
                   && negb (isExpired (clock 1%nat) token) = false).
      { unfold needsRefresh, isExpired. rewrite He.
        destruct (Z.ltb_spec (e - clock 0%nat) REFRESH_BUFFER_MS); [reflexivity|].
        destruct (Z.leb_spec e (clock 1%nat)); [reflexivity | lia]. }
      split.
      * intros Hno. unfold getValidToken. rewrite Htok, Hs.
        destruct (truthy (TokenData.refreshToken token)); [|reflexivity].
        destruct Hno as [? | ->]; [discriminate | reflexivity].
      * intros fn [rt Hrt] ->. unfold getValidToken. rewrite Htok, Hs, Hrt.
        split; [|split].
        -- destruct (fn token) as [[newToken|]|]; reflexivity.
        -- intros newToken ->. split; [reflexivity|].
           apply saveToken_getToken.
        -- intros [-> | ->]; reflexivity.
Qed.

End TokenFacts.

(* ================================================================== *)
(** * The OAuth handshake *)
(* ================================================================== *)

Section HandshakeFacts.
Import OAuth.

Variable randomBytes : nat -> nat -> list Byte.byte.
Variable fetch : TokenRequest -> Fetched.
Variable env : Env.

Example callback_paths :
  callback_platform "/auth/youtube/callback" = Some "youtube"
  /\ callback_platform "/auth/tik_tok2/callback" = Some "tik_tok2"
  /\ callback_platform "/auth//callback" = None
  /\ callback_platform "/auth/you-tube/callback" = None
  /\ callback_platform "/auth/youtube/callback/" = None
  /\ callback_platform "/x/auth/youtube/callback" = None.
Proof. repeat split. Qed.

Lemma health_is_no_callback path :
  String.eqb path "/health" = true -> callback_platform path = None.
Proof. intros H. apply String.eqb_eq in H. subst path. reflexivity. Qed.

Lemma settle_server now platform keep reply w :
  server (snd (settle now platform keep reply w)) = server w.
Proof.
  unfold settle. destruct reply as [|[] text [data|]]; try reflexivity.
  destruct (access_token data); reflexivity.
Qed.

Lemma exchange_server now platform code state w :
  server (snd (exchange fetch env now platform code state w)) = server w.
Proof.
  unfold exchange, exchangeYouTubeCode, exchangeFacebookCode, exchangeTikTokCode.
  repeat match goal with
         | |- context [if ?b then _ else _] => destruct b
         | |- context [match truthy ?o with _ => _ end] => destruct (truthy o)
         | |- context [match fetch ?r with _ => _ end] => destruct (fetch r)
         end;
    try reflexivity; now rewrite settle_server.
Qed.

(** The handler never adds a session: it only ever deletes the one named
    by the request. *)
Lemma handle_sessions now req w :
  oauthStates (server (snd (handle fetch env now req w)))
  = oauthStates (server w)
  \/ exists token,
       oauthStates (server (snd (handle fetch env now req w)))
       = delete token (oauthStates (server w)).
Proof.
  unfold handle.
  destruct (String.eqb (pathname req) "/health"); [now left|].
  destruct (callback_platform (pathname req)) as [platform|]; [|now left].
  destruct (truthy (error req)); [now left|].
  destruct (truthy (code req)) as [c|]; [|now left].
  destruct (truthy (state req)) as [token|]; [|now left].
  unfold verifyState.
  destruct (oauthStates (server w) !! token) as [data|] eqn:E.
  - right. exists token.
    destruct (exchange fetch env now platform c token _) as [[[]|message] w2] eqn:Ex;
      simpl; apply (f_equal snd) in Ex; simpl in Ex; subst w2;
      now rewrite exchange_server.
  - now left.
Qed.

Lemma runTimers_absent now srv token :
  oauthStates srv !! token = None ->
  oauthStates (runTimers now srv) !! token = None.
Proof.
  intros H. unfold runTimers. simpl.
  induction (timers srv) as [|[due s] l IH]; simpl; [assumption|].
  destruct (due <=? now); [|assumption].
  destruct (decide (s = token)) as [-> | Hne].
  - apply lookup_delete_eq.
  - now rewrite lookup_delete_ne.
Qed.

Lemma generateState_consumed d token now platform userId srv :
  Runs.not_reissued randomBytes d token -> Runs.consumed d token srv ->
  Runs.consumed d token (snd (generateState randomBytes now platform userId srv)).
Proof.
  intros Hfresh [Hnone Hd]. unfold generateState, Runs.consumed. simpl. split; [|lia].
  rewrite lookup_insert_ne; [assumption|]. now apply Hfresh.
Qed.

Lemma generateAuthUrl_consumed d token now platform userId srv :
  Runs.not_reissued randomBytes d token -> Runs.consumed d token srv ->
  Runs.consumed d token (snd (generateAuthUrl randomBytes env now platform userId srv)).
Proof.
  intros Hfresh Hc. unfold generateAuthUrl.
  destruct (String.eqb platform "youtube").
  - unfold generateYouTubeAuthUrl.
    destruct (truthy (YOUTUBE_CLIENT_ID env)); [|exact Hc].
    destruct (truthy (YOUTUBE_REDIRECT_URI env)); [|exact Hc].
    unfold generatePKCE. simpl. rewrite lookup_insert_eq. simpl.
    destruct Hc as [Hnone Hd]. unfold Runs.consumed. simpl. split; [|lia].
    assert (Hne : Crypto.hex (randomBytes (S (draws srv)) 16) <> token)
      by (apply Hfresh; lia).
    now rewrite !lookup_insert_ne.
  - destruct (String.eqb platform "facebook").
    + unfold generateFacebookAuthUrl.
      destruct (truthy (FACEBOOK_APP_ID env)); [|exact Hc].
      destruct (truthy (FACEBOOK_REDIRECT_URI env)); [|exact Hc].
      now apply generateState_consumed.
    + destruct (String.eqb platform "tiktok"); [|exact Hc].
      unfold generateTikTokAuthUrl.
      destruct (truthy (TIKTOK_CLIENT_KEY env)); [|exact Hc].
      destruct (truthy (TIKTOK_REDIRECT_URI env)); [|exact Hc].
      now apply generateState_consumed.
Qed.

Lemma handle_draws now req w :
  draws (server (snd (handle fetch env now req w))) = draws (server w).
Proof.
  unfold handle.
  destruct (String.eqb (pathname req) "/health"); [reflexivity|].
  destruct (callback_platform (pathname req)) as [platform|]; [|reflexivity].
  destruct (truthy (error req)); [reflexivity|].
  destruct (truthy (code req)) as [c|]; [|reflexivity].
  destruct (truthy (state req)) as [token|]; [|reflexivity].
  unfold verifyState.
  destruct (oauthStates (server w) !! token) as [data|] eqn:E; [|reflexivity].
  destruct (exchange fetch env now platform c token _) as [[[]|message] w2] eqn:Ex;
    simpl; apply (f_equal snd) in Ex; simpl in Ex; subst w2;
    now rewrite exchange_server.
Qed.

Lemma step_consumed d token w e :
  Runs.not_reissued randomBytes d token ->
  Runs.consumed d token (server w) ->
  Runs.consumed d token (server (Runs.step randomBytes fetch env w e)).
Proof.
  intros Hfresh [Hnone Hd]. destruct e as [now req | now | now platform userId]; simpl.
  - split; [|now rewrite handle_draws].
    destruct (handle_sessions now req w) as [-> | (t & ->)]; [assumption|].
    destruct (decide (t = token)) as [-> | Hne].
    + apply lookup_delete_eq.
    + now rewrite lookup_delete_ne.
  - split; [now apply runTimers_absent | assumption].
  - apply generateAuthUrl_consumed; [assumption | now split].
Qed.

Lemma run_consumed d token events :
  Runs.not_reissued randomBytes d token ->
  forall w,
    Runs.consumed d token (server w) ->
    Runs.consumed d token (server (Runs.run randomBytes fetch env events w)).
Proof.
  intros Hfresh. unfold Runs.run.
  induction events as [|e events IH]; intros w H; simpl; [assumption|].
  apply IH. now apply step_consumed.
Qed.

(** A callback whose state token names no session is refused and changes
    nothing. *)
Lemma handle_unknown_state now req w platform c token :
  callback_platform (pathname req) = Some platform ->
  truthy (error req) = None ->
  truthy (code req) = Some c ->
  truthy (state req) = Some token ->
  oauthStates (server w) !! token = None ->
  handle fetch env now req w = (mkResponse 400 InvalidState, w).
Proof.
  intros Hp He Hc Hs Hnone. unfold handle.
  destruct (String.eqb (pathname req) "/health") eqn:Eh.
  - apply health_is_no_callback in Eh. congruence.
  - rewrite Hp, He, Hc, Hs. unfold verifyState. rewrite Hnone.
    now destruct w.
Qed.

(** A callback whose state token names a session consumes it and goes on
    to the exchange. *)
Lemma handle_known_state now req w platform c token data :
  callback_platform (pathname req) = Some platform ->
  truthy (error req) = None ->
  truthy (code req) = Some c ->
  truthy (state req) = Some token ->
  oauthStates (server w) !! token = Some data ->
  handle fetch env now req w
  = match exchange fetch env now platform c token
            (mkWorld (mkServer (delete token (oauthStates (server w)))
                        (timers (server w)) (draws (server w)))
               (store w) (sent w)) with
    | (Ok _, w2) => (mkResponse 200 (AuthenticationSuccessful platform), w2)
    | (Throw message, w2) => (mkResponse 500 (AuthenticationError message), w2)
    end.
Proof.
  intros Hp He Hc Hs Hsome. unfold handle.
  destruct (String.eqb (pathname req) "/health") eqn:Eh.
  - apply health_is_no_callback in Eh. congruence.
  - rewrite Hp, He, Hc, Hs. unfold verifyState. now rewrite Hsome.
Qed.

(** C4. The first callback made with an issued state token finds the
    session, removes it and goes on to the code exchange, answering 200
    when the exchange succeeds (500 when it throws).  Whatever requests
    the server then serves, whichever timers run and whichever handshakes
    are begun (the generator not issuing the same token again), every
    later callback with that token is answered 400 "Invalid State" and
    leaves the server, the database and the network untouched. *)
Theorem state_token_single_use now req w platform c token :
  Runs.not_reissued randomBytes (draws (server w)) token ->
  callback_platform (pathname req) = Some platform ->
  truthy (error req) = None ->
  truthy (code req) = Some c ->
  truthy (state req) = Some token ->
  is_Some (oauthStates (server w) !! token) ->
  (status (fst (handle fetch env now req w)) = 200
   \/ status (fst (handle fetch env now req w)) = 500)
  /\ (status (fst (handle fetch env now req w)) = 200
      <-> exists w',
            exchange fetch env now platform c token
              (mkWorld (mkServer (delete token (oauthStates (server w)))
                          (timers (server w)) (draws (server w)))
                 (store w) (sent w))
            = (Ok tt, w'))
  /\ oauthStates (server (snd (handle fetch env now req w))) !! token = None
  /\ (forall events now' req' platform' c',
        callback_platform (pathname req') = Some platform' ->
        truthy (error req') = None ->
        truthy (code req') = Some c' ->
        truthy (state req') = Some token ->
        handle fetch env now' req'
          (Runs.run randomBytes fetch env events (snd (handle fetch env now req w)))
        = (mkResponse 400 InvalidState,
           Runs.run randomBytes fetch env events (snd (handle fetch env now req w)))).
Proof.
  intros Hfresh Hp He Hc Hs [data Hdata].
  pose proof (handle_known_state now req w platform c token data Hp He Hc Hs Hdata) as Hh.
  set (w1 := mkWorld (mkServer (delete token (oauthStates (server w)))
                        (timers (server w)) (draws (server w)))
               (store w) (sent w)) in *.
  pose proof (exchange_server now platform c token w1) as Hsrv.
  destruct (exchange fetch env now platform c token w1) as [[[]|message] w2] eqn:Ex;
    rewrite Hh; simpl in *.
  - assert (Hgone : Runs.consumed (draws (server w)) token (server w2)).
    { rewrite Hsrv. split; simpl; [apply lookup_delete_eq | lia]. }
    split; [now left|]. split; [|split].
    + split; [eauto | reflexivity].
    + exact (proj1 Hgone).
    + intros events now' req' platform' c' Hp' He' Hc' Hs'.
      apply (handle_unknown_state now' req' _ platform' c' token); try assumption.
      now apply (run_consumed (draws (server w)) token events Hfresh w2 Hgone).
  - assert (Hgone : Runs.consumed (draws (server w)) token (server w2)).
    { rewrite Hsrv. split; simpl; [apply lookup_delete_eq | lia]. }
    split; [now right|]. split; [|split].
    + split; [discriminate | intros [w' [=]]].
    + exact (proj1 Hgone).
    + intros events now' req' platform' c' Hp' He' Hc' Hs'.
      apply (handle_unknown_state now' req' _ platform' c' token); try assumption.
      now apply (run_consumed (draws (server w)) token events Hfresh w2 Hgone).
Qed.

Lemma settle_sent now platform keep reply w :
  sent (snd (settle now platform keep reply w)) = sent w.
Proof.
  unfold settle. destruct reply as [|[] text [data|]]; try reflexivity.
  destruct (access_token data); reflexivity.
Qed.

(** By the time the exchange runs, [verifyState] has deleted the session
    it looks the code verifier up in: no request the handler sends carries
    a [code_verifier]. *)
Lemma callback_never_sends_verifier now req w rq :
  rq ∈ sent (snd (handle fetch env now req w)) ->
  rq ∈ sent w \/ get_param "code_verifier" (fields rq) = None.
Proof.
  unfold handle.
  destruct (String.eqb (pathname req) "/health"); [now left|].
  destruct (callback_platform (pathname req)) as [platform|]; [|now left].
  destruct (truthy (error req)); [now left|].
  destruct (truthy (code req)) as [c|]; [|now left].
  destruct (truthy (state req)) as [token|]; [|now left].
  unfold verifyState.
  destruct (oauthStates (server w) !! token) as [data|] eqn:E; [|now left].
  set (w1 := mkWorld _ (store w) (sent w)).
  assert (Hex : rq ∈ sent (snd (exchange fetch env now platform c token w1)) ->
                rq ∈ sent w \/ get_param "code_verifier" (fields rq) = None).
  { unfold exchange, exchangeYouTubeCode, exchangeFacebookCode, exchangeTikTokCode.
    subst w1. simpl. rewrite lookup_delete_eq. simpl.
    repeat match goal with
           | |- context [if ?b then _ else _] => destruct b
           | |- context [match truthy ?o with _ => _ end] => destruct (truthy o)
           | |- context [match fetch ?r with _ => _ end] => destruct (fetch r)
           end;
      rewrite ?settle_sent; simpl; rewrite ?elem_of_cons;
      intuition (subst; auto). }
  destruct (exchange fetch env now platform c token w1) as [[[]|message] w2];
    simpl in *; exact Hex.
Qed.

End HandshakeFacts.

Section PKCEFacts.
Import OAuth.

Variable randomBytes : nat -> nat -> list Byte.byte.
Variable env : Env.

(** The challenge put in the authorization URL is the hash of the verifier
    of one [generatePKCE] call; the verifier stored under the state token
    is that of another, made two [randomBytes] calls later. *)
Lemma youtube_challenge_and_verifier now userId srv clientId redirectUri :
  truthy (YOUTUBE_CLIENT_ID env) = Some clientId ->
  truthy (YOUTUBE_REDIRECT_URI env) = Some redirectUri ->
  exists url srv',
    generateYouTubeAuthUrl randomBytes env now userId srv = (Ok url, srv')
    /\ get_param "state" (params url)
       = Some (Crypto.hex (randomBytes (S (draws srv)) 16))
    /\ get_param "code_challenge" (params url)
       = Some (Crypto.sha256_base64url
                 (Crypto.base64url (randomBytes (draws srv) 32)))
    /\ (oauthStates srv' !! Crypto.hex (randomBytes (S (draws srv)) 16)
          ≫= OAuthState.codeVerifier)
       = Some (Crypto.base64url (randomBytes (S (S (draws srv))) 32)).
Proof.
  intros Hid Huri. unfold generateYouTubeAuthUrl. rewrite Hid, Huri.
  unfold generatePKCE, generateState. simpl.
  rewrite lookup_insert_eq. simpl.
  eexists _, _. split; [reflexivity|]. simpl.
  rewrite lookup_insert_eq. simpl. auto.
Qed.

End PKCEFacts.

(* ================================================================== *)
(** * Worked instances *)
(* ================================================================== *)

Section Instances.
Import Time Db.

Ltac rows_cases H :=
  simpl in H;
  repeat (apply elem_of_cons in H as [-> | H]);
  [.. | now apply elem_of_nil in H].

Ltac in_range_now :=
  unfold in_range, in_range_s, min_ms, max_ms, min_s, max_s,
    Samples.noon, Samples.noon_s, Samples.hour, Samples.day; lia.

(** C1.  The ready set is not the one the selection predicate describes.
    A job that fell due two hours ago, earlier the same UTC day, is left
    out although its schedule time is not after now: the query compares
    the stored ISO text with the text of [datetime('now')].  And the
    ceiling is the constant 3 of the query, not the configured one: with
    a ceiling of 5 configured, a waiting job that has failed three times
    is left out, and with a ceiling of 2 configured, a waiting job that
    has failed twice is in. *)
Lemma ready_set_is_not_the_stated_one :
  (PostRow.status Samples.failed_thrice = pending
   /\ PostRow.scheduled_at Samples.failed_thrice = None
   /\ PostRow.retry_count Samples.failed_thrice < 5
   /\ getPendingJobs Samples.noon (Samples.steady Samples.noon)
        (Samples.store [Samples.failed_thrice]) = [])
  /\ (2 <= PostRow.retry_count Samples.failed_twice
      /\ getPendingJobs Samples.noon (Samples.steady Samples.noon)
           (Samples.store [Samples.failed_twice])
         = [rowToJob Samples.noon Samples.failed_twice])
  /\ (PostRow.status Samples.due_this_morning = pending
      /\ PostRow.scheduled_at Samples.due_this_morning
         = Some (Samples.noon - 2 * Samples.hour)
      /\ Samples.noon - 2 * Samples.hour <= Samples.noon
      /\ PostRow.retry_count Samples.due_this_morning < 3
      /\ getPendingJobs Samples.noon (Samples.steady Samples.noon)
           (Samples.store [Samples.due_this_morning]) = []).
Proof. vm_compute. intuition congruence. Qed.

(** The text comparison behind the last instance: the schedule time is
    stored as "2024-01-01T10:00:00.000Z", [datetime('now')] is
    "2024-01-01 12:00:00", and "T" sorts after " ". *)
Example due_this_morning_texts :
  toISOString (Samples.noon - 2 * Samples.hour) = "2024-01-01T10:00:00.000Z"
  /\ sqlite_datetime Samples.noon = "2024-01-01 12:00:00"
  /\ text_le "2024-01-01T10:00:00.000Z" "2024-01-01 12:00:00" = false.
Proof. vm_compute. auto. Qed.

(** A scheduled job does not become ready on the UTC day it is scheduled
    for, however late the clock reads on that day. *)
Lemma not_due_on_its_day now r t :
  in_range now -> in_range t ->
  PostRow.scheduled_at r = Some t ->
  t / 86400000 = now / 86400000 ->
  ready now r = false.
Proof.
  intros Hn Ht Hs Hday.
  destruct (ready now r) eqn:E; [|reflexivity].
  apply ready_spec in E; [|assumption|intros t' Ht'; congruence].
  destruct E as (_ & [Hnone | (t' & Ht' & Hlt)] & _); [congruence|].
  assert (t' = t) by congruence. subst t'. lia.
Qed.

(** [ready_set_fixed_ceiling] on a store of three waiting jobs, two of them
    scheduled days ago and one unscheduled. *)
Lemma ready_set_fixed_ceiling_witness :
  in_range Samples.noon
  /\ (forall r t,
        r ∈ posts (Samples.store [Samples.two_days_ago; Samples.unscheduled;
                                  Samples.three_days_ago]) ->
        PostRow.scheduled_at r = Some t -> in_range t)
  /\ (forall job,
        job ∈ getPendingJobs Samples.noon (Samples.steady Samples.noon)
                (Samples.store [Samples.two_days_ago; Samples.unscheduled;
                                Samples.three_days_ago]) ->
        ScheduledJob.status job = pending /\ ScheduledJob.retryCount job < 3).
Proof.
  assert (H1 : in_range Samples.noon) by in_range_now.
  assert (H2 : forall r t,
             r ∈ posts (Samples.store [Samples.two_days_ago; Samples.unscheduled;
                                       Samples.three_days_ago]) ->
             PostRow.scheduled_at r = Some t -> in_range t).
  { intros r t Hin Hs. rows_cases Hin; simpl in Hs; try discriminate;
      injection Hs as <-; in_range_now. }
  split; [exact H1|]. split; [exact H2|].
  exact (proj2 (proj2 (ready_set_fixed_ceiling Samples.noon
                         (Samples.steady Samples.noon) _ H1 H2))).
Defined.

(** [ready_set_is_ordered] on that store with one more job, added in
    the same second as the unscheduled one: the two unscheduled jobs are
    first, in the order of their ids; then the job scheduled three days
    ago, then the one scheduled two days ago, although that one was
    created first. *)
Lemma ready_set_is_ordered_witness :
  (forall r t,
     r ∈ posts Samples.four_waiting ->
     PostRow.scheduled_at r = Some t -> in_range t)
  /\ (forall r,
        r ∈ posts Samples.four_waiting ->
        in_range_s (PostRow.created_at r))
  /\ ready_rows Samples.noon Samples.four_waiting !! 0%nat = Some Samples.unscheduled
  /\ ready_rows Samples.noon Samples.four_waiting !! 1%nat = Some Samples.twin
  /\ ready_rows Samples.noon Samples.four_waiting !! 2%nat = Some Samples.three_days_ago
  /\ ready_rows Samples.noon Samples.four_waiting !! 3%nat = Some Samples.two_days_ago
  /\ PostRow.created_at Samples.unscheduled = PostRow.created_at Samples.twin
  /\ ((0 < 1)%nat
      /\ getPendingJobs Samples.noon (Samples.steady Samples.noon) Samples.four_waiting !! 0%nat
         = Some (rowToJob Samples.noon Samples.unscheduled)
      /\ getPendingJobs Samples.noon (Samples.steady Samples.noon) Samples.four_waiting !! 1%nat
         = Some (rowToJob Samples.noon Samples.twin))
  /\ ((2 < 3)%nat
      /\ getPendingJobs Samples.noon (Samples.steady Samples.noon) Samples.four_waiting !! 2%nat
         = Some (rowToJob Samples.noon Samples.three_days_ago)
      /\ getPendingJobs Samples.noon (Samples.steady Samples.noon) Samples.four_waiting !! 3%nat
         = Some (rowToJob Samples.noon Samples.two_days_ago)).
Proof.
  assert (H1 : forall r t,
             r ∈ posts Samples.four_waiting ->
             PostRow.scheduled_at r = Some t -> in_range t).
  { intros r t Hin Hs. rows_cases Hin; simpl in Hs; try discriminate;
      injection Hs as <-; in_range_now. }
  assert (H2 : forall r,
             r ∈ posts Samples.four_waiting ->
             in_range_s (PostRow.created_at r)).
  { intros r Hin. rows_cases Hin; simpl; in_range_now. }
  assert (R0 : ready_rows Samples.noon Samples.four_waiting !! 0%nat = Some Samples.unscheduled)
    by (vm_compute; reflexivity).
  assert (R1 : ready_rows Samples.noon Samples.four_waiting !! 1%nat = Some Samples.twin)
    by (vm_compute; reflexivity).
  assert (R2 : ready_rows Samples.noon Samples.four_waiting !! 2%nat = Some Samples.three_days_ago)
    by (vm_compute; reflexivity).
  assert (R3 : ready_rows Samples.noon Samples.four_waiting !! 3%nat = Some Samples.two_days_ago)
    by (vm_compute; reflexivity).
  split; [exact H1|]. split; [exact H2|]. split; [exact R0|]. split; [exact R1|].
  split; [exact R2|]. split; [exact R3|]. split; [reflexivity|]. split.
  - apply (ready_set_is_ordered Samples.noon (Samples.steady Samples.noon) _ 0 1
             Samples.unscheduled Samples.twin H1 H2 R0 R1).
    right. right. right.
    split; [reflexivity|]. split; [reflexivity|]. split; [|simpl; lia].
    unfold ids. simpl. repeat constructor; lia.
  - apply (ready_set_is_ordered Samples.noon (Samples.steady Samples.noon) _ 2 3
             Samples.three_days_ago Samples.two_days_ago H1 H2 R2 R3).
    right. left. exists (Samples.noon - 3 * Samples.day), (Samples.noon - 2 * Samples.day).
    split; [reflexivity|]. split; [reflexivity|].
    unfold Samples.noon, Samples.day. lia.
Defined.

(** [fail_counts_every_failure]: three failures of a fresh job leave its
    count at 3. *)
Lemma fail_counts_every_failure_witness :
  posts (Samples.store [Samples.unscheduled]) !! 0%nat = Some Samples.unscheduled
  /\ exists r',
       posts (Runs.fail_all 2
                [(Samples.noon, "timeout"); (Samples.noon + 60000, "timeout");
                 (Samples.noon + 120000, "quota exceeded")]
                (Samples.store [Samples.unscheduled])) !! 0%nat = Some r'
       /\ PostRow.retry_count r' = 3
       /\ PostRow.status r' = failed.
Proof.
  split; [reflexivity|].
  destruct (fail_counts_every_failure (Samples.store [Samples.unscheduled]) 0
              Samples.unscheduled eq_refl) as (_ & Hall & _).
  destruct (Hall [(Samples.noon, "timeout"); (Samples.noon + 60000, "timeout");
                  (Samples.noon + 120000, "quota exceeded")])
    as (r' & Hr' & Hcount & Hstatus).
  exists r'. split; [exact Hr'|]. split; [exact Hcount|].
  apply Hstatus. discriminate.
Defined.

(** [retry_only_from_failed]: retrying the failed job 1 succeeds and keeps
    its count of 1; retrying the unknown job 2 changes nothing. *)
Lemma retry_only_from_failed_witness :
  fst (retryJob Samples.noon 1 (Samples.store [Samples.once_failed])) = true
  /\ fst (retryJob Samples.noon 2 (Samples.store [Samples.once_failed])) = false
  /\ snd (retryJob Samples.noon 2 (Samples.store [Samples.once_failed]))
     = Samples.store [Samples.once_failed]
  /\ exists r',
       posts (snd (retryJob Samples.noon 1 (Samples.store [Samples.once_failed])))
         !! 0%nat = Some r'
       /\ PostRow.status r' = pending
       /\ PostRow.error_message r' = None
       /\ PostRow.retry_count r' = 1.
Proof.
  destruct (retry_only_from_failed Samples.noon 1 (Samples.store [Samples.once_failed]))
    as (Hiff & _ & Hhit & _).
  destruct (retry_only_from_failed Samples.noon 2 (Samples.store [Samples.once_failed]))
    as (_ & Hsame & _).
  split.
  { apply Hiff. exists Samples.once_failed.
    split; [apply list_elem_of_here | split; reflexivity]. }
  split; [reflexivity|]. split; [now apply Hsame|].
  destruct (Hhit 0%nat Samples.once_failed eq_refl eq_refl eq_refl)
    as (r' & H1 & H2 & H3 & _ & H4 & _).
  exists r'. auto.
Defined.

(** [purge_exactly_old_terminal] with a retention of 7 days: of an old
    completed job, an old waiting job and a recent failed job, only the
    first is removed. *)
Lemma purge_exactly_old_terminal_witness :
  0 <= 7
  /\ in_range (Samples.noon - 7 * 86400000)
  /\ (forall r,
        r ∈ posts (Samples.store [Samples.old_completed; Samples.old_pending;
                                  Samples.recent_failed]) ->
        in_range_s (PostRow.created_at r))
  /\ posts (snd (deleteOldPosts Samples.noon 7
                   (Samples.store [Samples.old_completed; Samples.old_pending;
                                   Samples.recent_failed])))
     = [Samples.old_pending; Samples.recent_failed]
  /\ fst (deleteOldPosts Samples.noon 7
            (Samples.store [Samples.old_completed; Samples.old_pending;
                            Samples.recent_failed])) = 1.
Proof.
  assert (H1 : 0 <= 7) by lia.
  assert (H2 : in_range (Samples.noon - 7 * 86400000)) by in_range_now.
  assert (H3 : forall r,
             r ∈ posts (Samples.store [Samples.old_completed; Samples.old_pending;
                                       Samples.recent_failed]) ->
             in_range_s (PostRow.created_at r)).
  { intros r Hin. rows_cases Hin; simpl; in_range_now. }
  destruct (purge_exactly_old_terminal Samples.noon 7 _ H1 H2 H3) as (Hkept & Hcount & _).
  split; [exact H1|]. split; [exact H2|]. split; [exact H3|].
  split; [rewrite Hkept | rewrite Hcount]; reflexivity.
Defined.

(** [null_schedule_reads_as_now]: the same unscheduled row read by id at
    noon and five seconds later, and reported by the ready set and by the
    listing, each with the clock reading of its own conversion. *)
Lemma null_schedule_reads_as_now_witness :
  PostRow.scheduled_at Samples.unscheduled = None
  /\ (ScheduledJob.scheduledAt <$>
        getJobById Samples.noon 2 (Samples.store [Samples.unscheduled]))
     = Some Samples.noon
  /\ (ScheduledJob.scheduledAt <$>
        getJobById (Samples.noon + 5000) 2 (Samples.store [Samples.unscheduled]))
     = Some (Samples.noon + 5000)
  /\ ScheduledJob.scheduledAt (rowToJob Samples.noon Samples.unscheduled)
     <> ScheduledJob.scheduledAt (rowToJob (Samples.noon + 5000) Samples.unscheduled)
  /\ (exists (k : nat) job,
        getPendingJobs Samples.noon (Samples.steady (Samples.noon + 1000))
          (Samples.store [Samples.unscheduled]) !! k = Some job
        /\ ScheduledJob.id job = 2
        /\ ScheduledJob.scheduledAt job = Samples.noon + 1000)
  /\ (exists (k : nat) job,
        listJobs (Samples.steady (Samples.noon + 2000)) None
          (Samples.store [Samples.unscheduled]) !! k = Some job
        /\ ScheduledJob.id job = 2
        /\ ScheduledJob.scheduledAt job = Samples.noon + 2000).
Proof.
  destruct (null_schedule_reads_as_now (Samples.store [Samples.unscheduled]))
    as (_ & Hget & _ & _ & _ & Hdiffer & Hbyid & Hready & Hlist).
  assert (Hin : Samples.unscheduled ∈ posts (Samples.store [Samples.unscheduled]))
    by apply list_elem_of_here.
  split; [reflexivity|].
  assert (Hread : forall now,
            (ScheduledJob.scheduledAt <$>
               getJobById now 2 (Samples.store [Samples.unscheduled])) = Some now).
  { intros now.
    destruct (Hbyid now Samples.unscheduled (NoDup_singleton _) Hin eq_refl)
      as (job & Hjob & _ & Hnow).
    change (PostRow.id Samples.unscheduled) with 2 in Hjob.
    rewrite Hjob. simpl. now rewrite Hnow. }
  split; [apply Hread|]. split; [apply Hread|].
  split; [apply Hdiffer; [reflexivity|]; unfold Samples.noon; lia|].
  split.
  - destruct (Hready Samples.noon (Samples.steady (Samples.noon + 1000))
                Samples.unscheduled Hin eq_refl eq_refl ltac:(simpl; lia))
      as (k & job & Hk & -> & Hnow).
    exists k, (rowToJob (Samples.steady (Samples.noon + 1000) k) Samples.unscheduled).
    split; [exact Hk|]. split; [reflexivity|exact Hnow].
  - destruct (Hlist (Samples.steady (Samples.noon + 2000)) Samples.unscheduled
                Hin eq_refl)
      as (k & job & Hk & -> & Hnow).
    exists k, (rowToJob (Samples.steady (Samples.noon + 2000) k) Samples.unscheduled).
    split; [exact Hk|]. split; [reflexivity|exact Hnow].
Defined.

(** [needsAuth_counts_as_failure]: one tick over a fresh job whose skill
    reports that authentication is needed. *)
Lemma needsAuth_counts_as_failure_witness :
  valid (Samples.store [Samples.unscheduled])
  /\ Queue.getReadyJobs Samples.noon (Samples.steady Samples.noon)
       (Samples.store [Samples.unscheduled]) !! 0%nat
     = Some (rowToJob Samples.noon Samples.unscheduled)
  /\ ScheduledJob.retryCount (rowToJob Samples.noon Samples.unscheduled) < 3
  /\ Scheduler.executeSkill Samples.unauthenticated Samples.content_ok Samples.parse
       (rowToJob Samples.noon Samples.unscheduled)
     = Scheduler.Returned (Samples.result false (Some "token expired") (Some true))
  /\ exists (p : nat) r',
       posts (Scheduler.db
                (Scheduler.processJobs 3 Samples.unauthenticated Samples.content_ok
                   Samples.parse Samples.stringify
                   Samples.noon (Samples.steady Samples.noon)
                   (Samples.steady (Samples.noon + 2000))
                   (Scheduler.mkWorld (Samples.store [Samples.unscheduled]) [])))
         !! p = Some r'
       /\ PostRow.id r' = 2
       /\ PostRow.status r' = failed
       /\ PostRow.error_message r' = Some "Authentication required: token expired"
       /\ PostRow.retry_count r' = 1.
Proof.
  assert (H1 : valid (Samples.store [Samples.unscheduled])).
  { split; [apply NoDup_singleton|]. repeat constructor. simpl. lia. }
  assert (H2 : Queue.getReadyJobs Samples.noon (Samples.steady Samples.noon)
                 (Samples.store [Samples.unscheduled]) !! 0%nat
               = Some (rowToJob Samples.noon Samples.unscheduled)) by reflexivity.
  assert (H3 : ScheduledJob.retryCount (rowToJob Samples.noon Samples.unscheduled) < 3)
    by (simpl; lia).
  split; [exact H1|]. split; [exact H2|]. split; [exact H3|]. split; [reflexivity|].
  destruct (needsAuth_counts_as_failure 3 Samples.unauthenticated Samples.content_ok
              Samples.parse Samples.stringify
              Samples.noon (Samples.steady Samples.noon)
              (Samples.steady (Samples.noon + 2000))
              (Scheduler.mkWorld (Samples.store [Samples.unscheduled]) [])
              0 (rowToJob Samples.noon Samples.unscheduled)
              (Samples.result false (Some "token expired") (Some true))
              H1 H2 H3 eq_refl eq_refl eq_refl)
    as (_ & (p & r & r' & _ & _ & _ & Hr' & Hid & Hst & Hmsg & Hcount & _) & _).
  exists p, r'. auto.
Defined.

(** [getValidToken_cases]: a credential expiring in one minute, with a
    refresh token and a refresh function that resolves to a new one. *)
Lemma getValidToken_cases_witness :
  Db.getToken "youtube"
    (Samples.with_token (Samples.token (Some (Samples.noon + 60000)) (Some "refresh-0")))
  = Some (TokenData.mk "youtube" "access-0" (Some "refresh-0")
            (Some (Samples.noon + 60000)) (Some (Time.local Samples.noon_s)))
  /\ Samples.noon + 60000 - Samples.noon < TokenManager.REFRESH_BUFFER_MS
  /\ TokenManager.getValidToken (Samples.steady Samples.noon) "youtube"
       (Some Samples.renew)
       (Samples.with_token (Samples.token (Some (Samples.noon + 60000)) (Some "refresh-0")))
     = (Some Samples.renewed,
        Db.saveToken Samples.noon Samples.renewed
          (Samples.with_token
             (Samples.token (Some (Samples.noon + 60000)) (Some "refresh-0"))),
        [TokenData.mk "youtube" "access-0" (Some "refresh-0")
           (Some (Samples.noon + 60000)) (Some (Time.local Samples.noon_s))]).
Proof.
  assert (H1 : Db.getToken "youtube"
                 (Samples.with_token
                    (Samples.token (Some (Samples.noon + 60000)) (Some "refresh-0")))
               = Some (TokenData.mk "youtube" "access-0" (Some "refresh-0")
                         (Some (Samples.noon + 60000)) (Some (Time.local Samples.noon_s))))
    by (vm_compute; reflexivity).
  assert (H2 : Samples.noon + 60000 - Samples.noon < TokenManager.REFRESH_BUFFER_MS)
    by (unfold TokenManager.REFRESH_BUFFER_MS; lia).
  split; [exact H1|]. split; [exact H2|].
  destruct (getValidToken_cases (Samples.steady Samples.noon) "youtube"
              (Some Samples.renew)
              (Samples.with_token
                 (Samples.token (Some (Samples.noon + 60000)) (Some "refresh-0"))))
    as (_ & Hstored & _).
  destruct (Hstored _ H1) as (_ & Hstale).
  destruct (Hstale (Samples.noon + 60000) eq_refl (or_introl H2)) as (_ & Hrefresh).
  destruct (Hrefresh Samples.renew (ex_intro _ "refresh-0" eq_refl) eq_refl)
    as (_ & Hok & _).
  exact (proj1 (Hok Samples.renewed eq_refl)).
Defined.

(** [state_token_single_use]: the callback for session "s1" succeeds; after
    another handshake has been begun, the same callback is refused. *)
Lemma state_token_single_use_witness :
  (forall k : nat,
     (OAuth.draws (OAuth.server Samples.waiting) <= k)%nat ->
     Crypto.hex (Samples.entropy k 16) <> "s1")
  /\ OAuth.callback_platform (OAuth.pathname (Samples.callback "s1")) = Some "youtube"
  /\ truthy (OAuth.error (Samples.callback "s1")) = None
  /\ truthy (OAuth.code (Samples.callback "s1")) = Some "code-1"
  /\ truthy (OAuth.state (Samples.callback "s1")) = Some "s1"
  /\ is_Some (OAuth.oauthStates (OAuth.server Samples.waiting) !! "s1")
  /\ OAuth.status
       (fst (OAuth.handle Samples.network Samples.env Samples.noon
               (Samples.callback "s1") Samples.waiting)) = 200
  /\ OAuth.handle Samples.network Samples.env (Samples.noon + 2000)
       (Samples.callback "s1")
       (Runs.run Samples.entropy Samples.network Samples.env
          [Runs.Begin (Samples.noon + 1000) "youtube" "user-2"]
          (snd (OAuth.handle Samples.network Samples.env Samples.noon
                  (Samples.callback "s1") Samples.waiting)))
     = (OAuth.mkResponse 400 OAuth.InvalidState,
        Runs.run Samples.entropy Samples.network Samples.env
          [Runs.Begin (Samples.noon + 1000) "youtube" "user-2"]
          (snd (OAuth.handle Samples.network Samples.env Samples.noon
                  (Samples.callback "s1") Samples.waiting))).
Proof.
  assert (H0 : forall k : nat,
             (OAuth.draws (OAuth.server Samples.waiting) <= k)%nat ->
             Crypto.hex (Samples.entropy k 16) <> "s1").
  { intros k _. destruct k as [|[|k]]; vm_compute; discriminate. }
  assert (H1 : OAuth.callback_platform (OAuth.pathname (Samples.callback "s1"))
               = Some "youtube") by reflexivity.
  assert (H5 : is_Some (OAuth.oauthStates (OAuth.server Samples.waiting) !! "s1")).
  { eexists. vm_compute. reflexivity. }
  destruct (state_token_single_use Samples.entropy Samples.network Samples.env
              Samples.noon (Samples.callback "s1") Samples.waiting "youtube" "code-1"
              "s1" H0 H1 eq_refl eq_refl eq_refl H5)
    as (_ & Hok & _ & Hlater).
  split; [exact H0|]. split; [exact H1|]. split; [reflexivity|]. split; [reflexivity|].
  split; [reflexivity|]. split; [exact H5|]. split.
  - apply Hok. eexists. vm_compute. reflexivity.
  - exact (Hlater [Runs.Begin (Samples.noon + 1000) "youtube" "user-2"]
             (Samples.noon + 2000) (Samples.callback "s1") "youtube" "code-1"
             H1 eq_refl eq_refl eq_refl).
Defined.

(** C3 on a concrete handshake.  The authorization URL carries the
    challenge of one verifier while another verifier is stored under the
    state token: the stored one hashes to a different challenge.  And the
    token request made by the callback carries no [code_verifier] at all,
    the session having been deleted before the exchange looks it up. *)
Theorem youtube_pkce_pair_is_broken :
  let begun :=
    OAuth.generateYouTubeAuthUrl Samples.entropy Samples.env Samples.noon "user-1"
      (OAuth.server Samples.idle) in
  let completed :=
    OAuth.handle Samples.network Samples.env (Samples.noon + 1000)
      (Samples.callback "22222222222222222222222222222222")
      (OAuth.mkWorld (snd begun) (Samples.store []) []) in
  fst begun
  = OAuth.Ok
      (OAuth.mkUrl "https://accounts.google.com/o/oauth2/v2/auth"
         [("client_id", "client-id");
          ("redirect_uri", "http://localhost:3000/auth/youtube/callback");
          ("response_type", "code");
          ("scope", "https://www.googleapis.com/auth/youtube.upload https://www.googleapis.com/auth/youtube.readonly");
          ("access_type", "offline");
          ("state", "22222222222222222222222222222222");
          ("code_challenge", "tZ5lxAKmKebFsoNVx2KKEAImK1W0OlL5QcAnQOO9-vw");
          ("code_challenge_method", "S256");
          ("prompt", "consent")])
  /\ (OAuth.oauthStates (snd begun) !! "22222222222222222222222222222222"
        ≫= OAuthState.codeVerifier)
     = Some "MzMzMzMzMzMzMzMzMzMzMzMzMzMzMzMzMzMzMzMzMzM"
  /\ Crypto.sha256_base64url "MzMzMzMzMzMzMzMzMzMzMzMzMzMzMzMzMzMzMzMzMzM"
     = "KPlDz_s5_TfmJIOULW1xN9xQeIvZ3e0Wj3nQKHXecd8"
  /\ fst completed = OAuth.mkResponse 200 (OAuth.AuthenticationSuccessful "youtube")
  /\ OAuth.sent (snd completed)
     = [OAuth.mkRequest "https://oauth2.googleapis.com/token" "POST"
          [("client_id", "client-id");
           ("client_secret", "client-secret");
           ("code", "code-1");
           ("redirect_uri", "http://localhost:3000/auth/youtube/callback");
           ("grant_type", "authorization_code")]].
Proof. vm_compute. repeat split. Qed.

End Instances.
(* ================================================================== *)
(** * The job store: further transitions and histories *)
(* ================================================================== *)

Section QueueFacts.
Import Time Db.

Lemma id_and_status_spec id s (r : PostRow.t) :
  id_and_status id s r = true <-> PostRow.id r = id /\ PostRow.status r = s.
Proof.
  unfold id_and_status. rewrite andb_true_iff, has_id_true, bool_decide_eq_true.
  reflexivity.
Qed.

Lemma update_where_hit p f rows (k : nat) r :
  rows !! k = Some r -> p r = true -> update_where p f rows !! k = Some (f r).
Proof. intros Hk Hp. rewrite update_where_lookup, Hk. simpl. now rewrite Hp. Qed.

Lemma update_where_miss p f rows (k : nat) r :
  rows !! k = Some r -> p r = false -> update_where p f rows !! k = Some r.
Proof. intros Hk Hp. rewrite update_where_lookup, Hk. simpl. now rewrite Hp. Qed.

Lemma update_where_elem p f rows r' :
  r' ∈ update_where p f rows ->
  exists r, r ∈ rows /\ r' = (if p r then f r else r).
Proof.
  unfold update_where. intros H. apply list_elem_of_fmap in H.
  destruct H as (r & -> & Hin). eauto.
Qed.

Lemma update_where_length p f rows : length (update_where p f rows) = length rows.
Proof. unfold update_where. apply length_map. Qed.

(** X1. [cancelJob] answers [true] exactly when a job with that id is
    [pending]; that job becomes [failed] with the message "Cancelled by
    user", its [retry_count] and every other column but [updated_at]
    unchanged; any other job is left as it was, and when the answer is
    [false] the database is unchanged.  A cancelled job is an ordinary
    failed job: [retryJob] on it answers [true]. *)
Theorem cancel_only_from_pending now id db :
  (fst (cancelJob now id db) = true
   <-> exists r, r ∈ posts db /\ PostRow.id r = id /\ PostRow.status r = pending)
  /\ (fst (cancelJob now id db) = false -> snd (cancelJob now id db) = db)
  /\ (forall (k : nat) r,
        posts db !! k = Some r ->
        PostRow.id r = id -> PostRow.status r = pending ->
        exists r',
          posts (snd (cancelJob now id db)) !! k = Some r'
          /\ PostRow.status r' = failed
          /\ PostRow.error_message r' = Some "Cancelled by user"
          /\ PostRow.updated_at r' = unix_seconds now
          /\ PostRow.retry_count r' = PostRow.retry_count r
          /\ PostRow.result_json r' = PostRow.result_json r
          /\ Ops.same_job r r'
          /\ forall now', fst (retryJob now' id (snd (cancelJob now id db))) = true)
  /\ (forall (k : nat) r,
        posts db !! k = Some r ->
        ~ (PostRow.id r = id /\ PostRow.status r = pending) ->
        posts (snd (cancelJob now id db)) !! k = Some r)
  /\ tokens (snd (cancelJob now id db)) = tokens db
  /\ posts_seq (snd (cancelJob now id db)) = posts_seq db.
Proof.
  unfold cancelJob. simpl. split; [split|split; [|split; [|split; [|split]]]].
  - intros H. apply changes_pos in H. destruct H as (r & Hin & Hp).
    apply id_and_status_spec in Hp. exists r. tauto.
  - intros (r & Hin & Hid & Hst). apply changes_pos. exists r. split; [assumption|].
    now apply id_and_status_spec.
  - intros H. rewrite update_where_none; [apply set_posts_same|].
    now apply changes_zero.
  - intros k r Hk Hid Hst.
    assert (Hhit : update_where (id_and_status id pending) (cancel_row now) (posts db) !! k
                   = Some (cancel_row now r)).
    { apply update_where_hit; [assumption|]. now apply id_and_status_spec. }
    exists (cancel_row now r). split; [exact Hhit|].
    simpl. repeat split; try reflexivity.
    intros now'. unfold retryJob. simpl. apply changes_pos.
    exists (cancel_row now r). split.
    + eapply list_elem_of_lookup_2. exact Hhit.
    + apply id_and_status_spec. simpl. auto.
  - intros k r Hk Hno. apply update_where_miss; [assumption|].
    destruct (id_and_status id pending r) eqn:E; [|reflexivity].
    apply id_and_status_spec in E. contradiction.
  - reflexivity.
  - reflexivity.
Qed.

(** X2. [markComplete] looks at the id only: whatever its status, the job
    with that id becomes [completed] with the given result; its
    [retry_count] and its [error_message] stay as they were, so a job that
    has failed before keeps its last error after it succeeds.  Every other
    job is untouched, and an unknown id changes nothing. *)
Theorem markComplete_by_id_only now id json db :
  (forall (k : nat) r,
     posts db !! k = Some r -> PostRow.id r = id ->
     exists r',
       posts (markComplete now id json db) !! k = Some r'
       /\ PostRow.status r' = completed
       /\ PostRow.result_json r' = Some json
       /\ PostRow.updated_at r' = unix_seconds now
       /\ PostRow.retry_count r' = PostRow.retry_count r
       /\ PostRow.error_message r' = PostRow.error_message r
       /\ Ops.same_job r r')
  /\ (forall (k : nat) r,
        posts db !! k = Some r -> PostRow.id r <> id ->
        posts (markComplete now id json db) !! k = Some r)
  /\ (id ∉ ids db -> markComplete now id json db = db)
  /\ length (posts (markComplete now id json db)) = length (posts db)
  /\ tokens (markComplete now id json db) = tokens db
  /\ posts_seq (markComplete now id json db) = posts_seq db.
Proof.
  unfold markComplete. simpl. split; [|split; [|split; [|split; [|split]]]].
  - intros k r Hk Hid. eexists. split.
    + apply update_where_hit; [exact Hk|]. now apply has_id_true.
    + simpl. repeat split.
  - intros k r Hk Hid. apply update_where_miss; [assumption|].
    destruct (has_id id r) eqn:E; [|reflexivity]. apply has_id_true in E. contradiction.
  - intros Hno. rewrite update_where_none; [apply set_posts_same|].
    intros r Hin. destruct (has_id id r) eqn:E; [|reflexivity].
    apply has_id_true in E. exfalso. apply Hno. unfold ids.
    apply list_elem_of_fmap. exists r. auto.
  - apply update_where_length.
  - reflexivity.
  - reflexivity.
Qed.

(** X3. In a store that satisfies the key constraint, the id [addPost]
    returns is new and one above the counter, the job reads back under it
    as written (pending, no retries, no result, an empty file path read as
    none), and every other id reads as before.  Its creation time reads
    back as the UTC second of the insertion taken as local time: the
    instant of the insertion, cut to the second, for a process in UTC,
    and that many minutes earlier for a process so many minutes east. *)
Theorem added_job_reads_back now now' platform action content scheduledAt filePath db :
  valid db ->
  let id := fst (addPost now platform action content scheduledAt filePath db) in
  let db' := snd (addPost now platform action content scheduledAt filePath db) in
  id = posts_seq db + 1
  /\ (id ∉ ids db)
  /\ posts_seq db' = id
  /\ getJobById now' id db'
     = Some {| ScheduledJob.id := id;
               ScheduledJob.platform := platform;
               ScheduledJob.action := action;
               ScheduledJob.status := pending;
               ScheduledJob.scheduledAt := default now' scheduledAt;
               ScheduledJob.contentJson := content;
               ScheduledJob.filePath := truthy filePath;
               ScheduledJob.resultJson := None;
               ScheduledJob.errorMessage := None;
               ScheduledJob.retryCount := 0;
               ScheduledJob.createdAt := local (unix_seconds now);
               ScheduledJob.updatedAt := local (unix_seconds now) |}
  /\ (forall job,
        getJobById now' id db' = Some job ->
        instant utc (ScheduledJob.createdAt job) = unix_seconds now * 1000
        /\ forall minutes,
             instant (east minutes) (ScheduledJob.createdAt job)
             = unix_seconds now * 1000 - minutes * 60000)
  /\ (forall id', id' <> id -> getJobById now' id' db' = getJobById now' id' db)
  /\ tokens db' = tokens db.
Proof.
  intros [Hnd Hle]. simpl.
  assert (Hfresh : posts_seq db + 1 ∉ ids db).
  { intros Hin. rewrite Forall_forall in Hle. apply Hle in Hin. lia. }
  split; [reflexivity|]. split; [exact Hfresh|]. split; [reflexivity|].
  assert (Hread : filter (fun r => PostRow.id r = posts_seq db + 1) (posts db) = []).
  { destruct (filter (fun r => PostRow.id r = posts_seq db + 1) (posts db)) as [|x l] eqn:E;
      [reflexivity|]. exfalso. apply Hfresh.
    assert (Hx : x ∈ filter (fun r => PostRow.id r = posts_seq db + 1) (posts db))
      by (rewrite E; apply list_elem_of_here).
    apply list_elem_of_filter in Hx. destruct Hx as [Hid Hx].
    unfold ids. apply list_elem_of_fmap. exists x. auto. }
  split; [|split; [|split; [|reflexivity]]].
  - unfold getJobById. simpl. rewrite filter_app, Hread. simpl.
    rewrite filter_cons_True by reflexivity. simpl.
    unfold rowToJob. simpl. now destruct scheduledAt.
  - intros job. unfold getJobById. simpl. rewrite filter_app, Hread. simpl.
    rewrite filter_cons_True by reflexivity. simpl.
    intros [= <-]. simpl. unfold instant, utc, east. simpl. auto.
  - intros id' Hne. unfold getJobById. simpl. rewrite filter_app.
    rewrite filter_cons_False by (simpl; congruence).
    rewrite filter_nil, app_nil_r. reflexivity.
Qed.

(** ** Histories *)

Lemma same_job_refl r : Ops.same_job r r.
Proof. unfold Ops.same_job. tauto. Qed.

Lemma same_job_trans a b c : Ops.same_job a b -> Ops.same_job b c -> Ops.same_job a c.
Proof. unfold Ops.same_job. intuition congruence. Qed.

Lemma descends_same_posts db db' :
  posts db' = posts db -> posts_seq db' = posts_seq db -> Ops.descends db db'.
Proof.
  intros Hp Hs. split; [lia|]. rewrite Hp. intros r Hin. left. exists r.
  split; [assumption|]. split; [apply same_job_refl|lia].
Qed.

Lemma descends_trans a b c : Ops.descends a b -> Ops.descends b c -> Ops.descends a c.
Proof.
  intros [Hab1 Hab2] [Hbc1 Hbc2]. split; [lia|].
  intros r'' Hin. destruct (Hbc2 r'' Hin) as [(r' & Hin' & Hs' & Hc')|Hnew].
  - destruct (Hab2 r' Hin') as [(r & Hr & Hs & Hc)|Hnew].
    + left. exists r. split; [assumption|]. split; [eapply same_job_trans; eassumption|lia].
    + right. destruct Hs' as [Hid _]. lia.
  - right. lia.
Qed.

Lemma descends_update p f db :
  (forall r, Ops.same_job r (f r) /\ PostRow.retry_count r <= PostRow.retry_count (f r)) ->
  Ops.descends db (set_posts (update_where p f (posts db)) db).
Proof.
  intros Hf. split; [simpl; lia|]. simpl. intros r' Hin.
  apply update_where_elem in Hin. destruct Hin as (r & Hr & ->).
  left. exists r. split; [assumption|].
  destruct (p r); [apply Hf|]. split; [apply same_job_refl|lia].
Qed.

Lemma descends_apply db op : valid db -> Ops.descends db (Ops.apply db op).
Proof.
  intros Hv. destruct op; simpl.
  - split; [simpl; lia|]. simpl. intros r' Hin.
    apply elem_of_app in Hin. destruct Hin as [Hin|Hin].
    + left. exists r'. split; [assumption|]. split; [apply same_job_refl|lia].
    + apply list_elem_of_singleton in Hin. subst r'. right. simpl. lia.
  - apply descends_update. intros r. split; [|simpl; lia].
    unfold Ops.same_job. simpl. tauto.
  - apply descends_update. intros r. split; [|simpl; lia].
    unfold Ops.same_job. simpl. tauto.
  - apply descends_update. intros r. split; [|simpl; lia].
    unfold Ops.same_job. simpl. tauto.
  - apply descends_update. intros r. split; [|simpl; lia].
    unfold Ops.same_job. simpl. tauto.
  - split; [simpl; lia|]. simpl. intros r' Hin.
    apply list_elem_of_filter in Hin. destruct Hin as [_ Hin].
    left. exists r'. split; [assumption|]. split; [apply same_job_refl|lia].
  - now apply descends_same_posts.
  - now apply descends_same_posts.
Qed.

Lemma apply_valid db op : valid db -> valid (Ops.apply db op).
Proof.
  intros Hv. destruct op; simpl.
  - now apply addPost_valid.
  - now apply markComplete_valid.
  - now apply markFailed_valid.
  - now apply cancelJob_valid.
  - now apply retryJob_valid.
  - now apply deleteOldPosts_valid.
  - now apply (valid_same_ids db).
  - now apply (valid_same_ids db).
Qed.

Lemma run_valid ops : forall db, valid db -> valid (Ops.run ops db).
Proof.
  unfold Ops.run. induction ops as [|op ops IH]; intros db Hv; simpl; [assumption|].
  apply IH. now apply apply_valid.
Qed.

Lemma run_descends ops : forall db, valid db -> Ops.descends db (Ops.run ops db).
Proof.
  unfold Ops.run. induction ops as [|op ops IH]; intros db Hv; simpl.
  - now apply descends_same_posts.
  - eapply descends_trans; [apply descends_apply; exact Hv|].
    apply IH. now apply apply_valid.
Qed.

(** X4. Whatever sequence of writes the module's functions make on a
    store that satisfies the key constraint, the constraint still holds
    afterwards, the AUTOINCREMENT counter has not gone back, and the id
    the next [addPost] returns is above every id the store held before
    the sequence: an id is never given to a second job, also after the job
    was purged. *)
Theorem ids_are_never_reused ops db now platform action content scheduledAt filePath :
  valid db ->
  valid (Ops.run ops db)
  /\ posts_seq db <= posts_seq (Ops.run ops db)
  /\ (forall i, i ∈ ids (Ops.run ops db) -> i ∈ ids db \/ posts_seq db < i)
  /\ (forall i, i ∈ ids db ->
        i < fst (addPost now platform action content scheduledAt filePath (Ops.run ops db))).
Proof.
  intros Hv. pose proof (run_descends ops db Hv) as [Hseq Hrows].
  split; [now apply run_valid|]. split; [assumption|]. split.
  - intros i Hi. unfold ids in Hi. apply list_elem_of_fmap in Hi.
    destruct Hi as (r' & -> & Hin).
    destruct (Hrows r' Hin) as [(r & Hr & (Hid & _) & _)|Hnew]; [|now right].
    left. rewrite Hid. unfold ids. apply list_elem_of_fmap. exists r. auto.
  - intros i Hi. simpl. destruct Hv as [_ Hle].
    rewrite Forall_forall in Hle. apply Hle in Hi. lia.
Qed.

(** X5. No write ever lowers a job's [retry_count] or changes its
    platform, action, schedule, content, file path or creation time
    ([retryJob] included, which only resets the status).  So a job that
    has reached three retries is in no later ready set, at no time of
    asking. *)
Theorem retry_ceiling_is_permanent ops db r r' :
  valid db ->
  r ∈ posts db ->
  r' ∈ posts (Ops.run ops db) ->
  PostRow.id r' = PostRow.id r ->
  Ops.same_job r r'
  /\ PostRow.retry_count r <= PostRow.retry_count r'
  /\ (3 <= PostRow.retry_count r ->
      forall now clock job,
        job ∈ getPendingJobs now clock (Ops.run ops db) ->
        ScheduledJob.id job <> PostRow.id r).
Proof.
  intros Hv Hr Hr' Hid.
  pose proof (run_descends ops db Hv) as [Hseq Hrows].
  pose proof (run_valid ops db Hv) as Hv'.
  assert (Hfacts : forall x, x ∈ posts (Ops.run ops db) -> PostRow.id x = PostRow.id r ->
                     Ops.same_job r x /\ PostRow.retry_count r <= PostRow.retry_count x).
  { intros x Hx Hxid. destruct (Hrows x Hx) as [(r0 & Hr0 & Hs & Hc)|Hnew].
    - assert (r0 = r).
      { destruct Hv as [Hnd _]. apply (same_id_same_row (posts db)); try assumption.
        destruct Hs as [Hs _]. congruence. }
      subst r0. auto.
    - exfalso. destruct Hv as [_ Hle]. rewrite Forall_forall in Hle.
      assert (PostRow.id r <= posts_seq db).
      { apply Hle. unfold ids. apply list_elem_of_fmap. exists r. auto. }
      lia. }
  destruct (Hfacts r' Hr' Hid) as [Hs Hc]. split; [assumption|]. split; [assumption|].
  intros Hthree now clock job Hjob Hjid.
  apply list_elem_of_lookup in Hjob. destruct Hjob as [k Hk].
  rewrite getPendingJobs_lookup in Hk.
  destruct (ready_rows now (Ops.run ops db) !! k) as [x|] eqn:Ex; [|discriminate].
  simpl in Hk. injection Hk as <-. simpl in Hjid.
  apply list_elem_of_lookup_2 in Ex. apply ready_rows_elem in Ex.
  destruct Ex as [Hx Hready].
  destruct (Hfacts x Hx Hjid) as [_ Hcx].
  unfold ready in Hready. apply andb_true_iff in Hready. destruct Hready as [_ Hlt].
  apply Z.ltb_lt in Hlt. lia.
Qed.

End QueueFacts.
(* ================================================================== *)
(** * Listings, statistics and the schedule of added jobs *)
(* ================================================================== *)

Section ListingFacts.
Import Time Db.

Lemma rowsToJobs_cons clock r rows :
  rowsToJobs clock (r :: rows) = rowToJob (clock 0%nat) r :: rowsToJobs (clock ∘ S) rows.
Proof. reflexivity. Qed.

Lemma rowsToJobs_length clock rows : length (rowsToJobs clock rows) = length rows.
Proof. unfold rowsToJobs. apply length_imap. Qed.

Lemma rowsToJobs_take rows : forall clock (n : nat),
  rowsToJobs clock (take n rows) = take n (rowsToJobs clock rows).
Proof.
  induction rows as [|r rows IH]; intros clock n.
  - now destruct n.
  - destruct n as [|n]; [reflexivity|].
    rewrite rowsToJobs_cons. simpl take. rewrite rowsToJobs_cons. now rewrite IH.
Qed.

Lemma rowsToJobs_count s rows : forall clock,
  length (filter (fun j => ScheduledJob.status j = s) (rowsToJobs clock rows))
  = length (filter (fun r => PostRow.status r = s) rows).
Proof.
  induction rows as [|r rows IH]; intros clock; [reflexivity|].
  rewrite rowsToJobs_cons, !filter_cons. simpl ScheduledJob.status.
  destruct (decide (PostRow.status r = s)); simpl; now rewrite IH.
Qed.

Lemma status_partition (rows : list PostRow.t) :
  length rows
  = (length (filter (fun r => PostRow.status r = pending) rows)
     + length (filter (fun r => PostRow.status r = completed) rows)
     + length (filter (fun r => PostRow.status r = failed) rows))%nat.
Proof.
  induction rows as [|r rows IH]; [reflexivity|].
  rewrite !filter_cons.
  destruct (PostRow.status r) eqn:E;
    repeat (destruct (decide _); try congruence); simpl; lia.
Qed.

Lemma sorted_lookup_le {A} (R : A -> A -> Prop) (l : list A) :
  StronglySorted R l ->
  forall (i j : nat) a b, l !! i = Some a -> l !! j = Some b -> (i < j)%nat -> R a b.
Proof.
  induction 1 as [|x l Hs IH Hall]; intros i j a b Hi Hj Hlt.
  - now rewrite lookup_nil in Hi.
  - destruct j as [|j]; [lia|]. simpl in Hj. destruct i as [|i].
    + simpl in Hi. injection Hi as <-.
      rewrite List.Forall_forall in Hall. apply Hall.
      apply list_elem_of_In. eapply list_elem_of_lookup_2. exact Hj.
    + simpl in Hi. apply (IH i j); [assumption|assumption|lia].
Qed.

Lemma sorted_take {A} (R : A -> A -> Prop) (l : list A) (n : nat) :
  StronglySorted R l -> StronglySorted R (take n l).
Proof.
  intros Hs. revert n. induction Hs as [|x l Hs IH Hall]; intros n.
  - rewrite take_nil. constructor.
  - destruct n as [|n]; [constructor|]. simpl. constructor; [apply IH|].
    rewrite List.Forall_forall in *. intros y Hy. apply Hall.
    apply list_elem_of_In in Hy. apply list_elem_of_In.
    eapply subseteq_take. exact Hy.
Qed.

(** The rows [listJobs] selects before the limit is applied. *)
Lemma listJobs_selection clock options db :
  exists rows,
    (forall r,
       r ∈ rows
       <-> r ∈ posts db
           /\ (forall s, options ≫= QueueListOptions.status = Some s ->
                         PostRow.status r = s)
           /\ (forall p, truthy (options ≫= QueueListOptions.platform) = Some p ->
                         PostRow.platform r = p))
    /\ StronglySorted (cmp_le newest_first) rows
    /\ listJobs clock options db
       = rowsToJobs clock
           match options ≫= QueueListOptions.limit with
           | Some n => if 0 <? n then take (Z.to_nat n) rows else rows
           | None => rows
           end.
Proof.
  unfold listJobs.
  set (st := options ≫= QueueListOptions.status).
  set (pf := truthy (options ≫= QueueListOptions.platform)).
  exists (order_by newest_first
            match pf with
            | Some p =>
                filter (fun r => PostRow.platform r = p)
                  match st with
                  | Some s => filter (fun r => PostRow.status r = s) (posts db)
                  | None => posts db
                  end
            | None =>
                match st with
                | Some s => filter (fun r => PostRow.status r = s) (posts db)
                | None => posts db
                end
            end).
  split; [|split; [apply order_by_sorted; apply _|]].
  - intros r. rewrite order_by_perm.
    destruct st as [s|], pf as [p|]; rewrite ?list_elem_of_filter.
    + split.
      * intros (H2 & H1 & Hin). split; [assumption|].
        split; intros ? [= <-]; assumption.
      * intros (Hin & H1 & H2). auto.
    + split.
      * intros (H1 & Hin). split; [assumption|].
        split; [intros ? [= <-]; assumption|discriminate].
      * intros (Hin & H1 & _). auto.
    + split.
      * intros (H2 & Hin). split; [assumption|].
        split; [discriminate|intros ? [= <-]; assumption].
      * intros (Hin & _ & H2). auto.
    + split.
      * intros Hin. split; [assumption|]. split; discriminate.
      * tauto.
  - f_equal. destruct (options ≫= QueueListOptions.limit) as [n|]; [|reflexivity].
    rewrite Z.leb_antisym. now destruct (0 <? n).
Qed.

(** X6. [listJobs] lists only jobs of the store that pass the filters
    given: the status when one is given, the platform when a non-empty one
    is given.  Without a limit it lists every such job; a positive limit
    keeps the first so many of that listing, and a limit of zero or below
    is no limit. *)
Theorem listJobs_filters_and_limit clock o db :
  let unlimited :=
    Some (QueueListOptions.mk (QueueListOptions.status o) (QueueListOptions.platform o) None) in
  let passes (r : PostRow.t) :=
    (forall s, QueueListOptions.status o = Some s -> PostRow.status r = s)
    /\ (forall p, truthy (QueueListOptions.platform o) = Some p -> PostRow.platform r = p) in
  (forall (k : nat) job,
     listJobs clock (Some o) db !! k = Some job ->
     exists r, r ∈ posts db /\ passes r /\ job = rowToJob (clock k) r)
  /\ (forall r,
        r ∈ posts db -> passes r ->
        exists k : nat, listJobs clock unlimited db !! k = Some (rowToJob (clock k) r))
  /\ listJobs clock (Some o) db
     = match QueueListOptions.limit o with
       | Some n =>
           if 0 <? n then take (Z.to_nat n) (listJobs clock unlimited db)
           else listJobs clock unlimited db
       | None => listJobs clock unlimited db
       end
  /\ (forall n,
        QueueListOptions.limit o = Some n -> 0 < n ->
        (length (listJobs clock (Some o) db) <= Z.to_nat n)%nat)
  /\ listJobs clock None db
     = listJobs clock (Some (QueueListOptions.mk None None None)) db.
Proof.
  intros unlimited passes.
  destruct (listJobs_selection clock (Some o) db) as (rows & Hrows & _ & Heq).
  destruct (listJobs_selection clock unlimited db) as (rows' & Hrows' & _ & Heq').
  simpl in Hrows, Heq, Hrows', Heq'.
  assert (Hu : listJobs clock unlimited db = rowsToJobs clock (order_by newest_first
                 (match truthy (QueueListOptions.platform o) with
                  | Some p => filter (fun r => PostRow.platform r = p)
                  | None => fun l => l
                  end
                    (match QueueListOptions.status o with
                     | Some s => filter (fun r => PostRow.status r = s) (posts db)
                     | None => posts db
                     end)))).
  { unfold listJobs, unlimited. simpl.
    now destruct (truthy (QueueListOptions.platform o)). }
  split; [|split; [|split; [|split]]].
  - intros k job Hk. rewrite Heq, rowsToJobs_lookup in Hk.
    destruct (_ !! k) as [r|] eqn:Er; [|discriminate]. simpl in Hk. injection Hk as <-.
    exists r. split; [|split; [|reflexivity]].
    + apply list_elem_of_lookup_2 in Er.
      destruct (QueueListOptions.limit o) as [n|]; [destruct (0 <? n)|];
        try apply subseteq_take in Er; now apply Hrows in Er.
    + apply list_elem_of_lookup_2 in Er.
      destruct (QueueListOptions.limit o) as [n|]; [destruct (0 <? n)|];
        try apply subseteq_take in Er; now apply Hrows in Er.
  - intros r Hin Hp.
    assert (Hr : r ∈ rows') by (apply Hrows'; split; assumption).
    apply list_elem_of_lookup in Hr. destruct Hr as [k Hk]. exists k.
    rewrite Heq', rowsToJobs_lookup, Hk. reflexivity.
  - rewrite Hu. unfold listJobs. simpl.
    destruct (QueueListOptions.limit o) as [n|].
    + rewrite Z.leb_antisym.
      destruct (0 <? n); simpl; [rewrite <- rowsToJobs_take|];
        now destruct (truthy (QueueListOptions.platform o)).
    + now destruct (truthy (QueueListOptions.platform o)).
  - intros n Hn Hpos. rewrite Heq, Hn, rowsToJobs_length.
    apply Z.ltb_lt in Hpos. rewrite Hpos. rewrite length_take. lia.
  - reflexivity.
Qed.

(** X7. [listJobs] lists newest first by the [created_at] column: of two
    listed jobs, the wall-clock second the one listed earlier was created
    at is not before the other's (seconds of years 0000-9999).  The Dates
    the jobs carry are these seconds read as local time, so they are in
    the same order in any zone that reads later seconds as later
    instants, such as UTC and every zone at a fixed offset. *)
Theorem listJobs_newest_first clock options db (i j : nat) a b :
  (forall r, r ∈ posts db -> in_range_s (PostRow.created_at r)) ->
  listJobs clock options db !! i = Some a ->
  listJobs clock options db !! j = Some b ->
  (i < j)%nat ->
  wall (ScheduledJob.createdAt b) <= wall (ScheduledJob.createdAt a)
  /\ (forall zone : Z -> Z,
        (forall x y, x <= y -> zone x <= zone y) ->
        instant zone (ScheduledJob.createdAt b) <= instant zone (ScheduledJob.createdAt a))
  /\ (forall minutes,
        instant (east minutes) (ScheduledJob.createdAt b)
        <= instant (east minutes) (ScheduledJob.createdAt a)).
Proof.
  intros Hrange Hi Hj Hlt.
  destruct (listJobs_selection clock options db) as (rows & Hrows & Hsorted & Heq).
  rewrite Heq, rowsToJobs_lookup in Hi, Hj.
  set (shown := match options ≫= QueueListOptions.limit with
                | Some n => if 0 <? n then take (Z.to_nat n) rows else rows
                | None => rows
                end) in *.
  assert (Hs : StronglySorted (cmp_le newest_first) shown).
  { unfold shown. destruct (options ≫= QueueListOptions.limit) as [n|];
      [destruct (0 <? n)|]; try assumption. now apply sorted_take. }
  assert (Hsub : forall r, r ∈ shown -> r ∈ posts db).
  { intros r Hr. unfold shown in Hr.
    destruct (options ≫= QueueListOptions.limit) as [n|]; [destruct (0 <? n)|];
      try apply subseteq_take in Hr; now apply Hrows in Hr. }
  destruct (shown !! i) as [ra|] eqn:Ea; [|discriminate].
  destruct (shown !! j) as [rb|] eqn:Eb; [|discriminate].
  simpl in Hi, Hj. injection Hi as <-. injection Hj as <-. simpl.
  pose proof (sorted_lookup_le _ _ Hs i j ra rb Ea Eb Hlt) as Hle.
  unfold cmp_le, newest_first, created_text in Hle.
  rewrite compare_sql_text in Hle.
  - change (PostRow.created_at rb <= PostRow.created_at ra) in Hle.
    split; [exact Hle|]. split.
    + intros zone Hmono. unfold instant. simpl. now apply Hmono.
    + intros minutes. unfold instant, east. simpl. lia.
  - apply Hrange, Hsub. eapply list_elem_of_lookup_2. exact Eb.
  - apply Hrange, Hsub. eapply list_elem_of_lookup_2. exact Ea.
Qed.

(** X8. [getStats] counts every job of the store exactly once: the total
    is the number of rows, it is the sum of the three status counts, and
    it agrees with the counts [getDbStats] reads from the table. *)
Theorem stats_count_every_job_once clock db :
  let stats := Queue.getStats clock db in
  QueueStats.total stats = Z.of_nat (length (posts db))
  /\ QueueStats.total stats
     = QueueStats.pending stats + QueueStats.completed stats + QueueStats.failed stats
  /\ QueueStats.pending stats
     = Z.of_nat (length (filter (fun r => PostRow.status r = pending) (posts db)))
  /\ DbStats.posts (getDbStats db) = QueueStats.total stats
  /\ DbStats.pending (getDbStats db) = QueueStats.pending stats.
Proof.
  assert (Hall : Queue.getStats clock db
                 = let rows := order_by newest_first (posts db) in
                   {| QueueStats.total := Z.of_nat (length rows);
                      QueueStats.pending :=
                        Z.of_nat (length (filter (fun r => PostRow.status r = pending) rows));
                      QueueStats.completed :=
                        Z.of_nat (length (filter (fun r => PostRow.status r = completed) rows));
                      QueueStats.failed :=
                        Z.of_nat (length (filter (fun r => PostRow.status r = failed) rows)) |}).
  { unfold Queue.getStats, listJobs. simpl.
    now rewrite rowsToJobs_length, !rowsToJobs_count. }
  cbv zeta. rewrite Hall. cbv zeta. unfold getDbStats. simpl.
  pose proof (status_partition (order_by newest_first (posts db))) as Hp.
  pose proof (order_by_perm newest_first (posts db)) as Hperm.
  assert (Hlen : length (order_by newest_first (posts db)) = length (posts db))
    by now rewrite Hperm.
  assert (Hpen : length (filter (fun r => PostRow.status r = pending)
                           (order_by newest_first (posts db)))
                 = length (filter (fun r => PostRow.status r = pending) (posts db)))
    by now rewrite Hperm.
  repeat split; lia.
Qed.

(** X9. A job added through [addJob] is stored with a schedule: the one
    requested, or the time of adding.  It is in the ready set exactly when
    the UTC day of that schedule is before the UTC day of the asking; so a
    job added without a schedule is not ready on the day it is added. *)
Theorem added_job_waits_for_next_day jsNow now0 now clock request db :
  valid db ->
  in_range now ->
  in_range (default jsNow (QueueAddRequest.scheduledAt request)) ->
  let id := fst (Queue.addJob jsNow now0 request db) in
  let db' := snd (Queue.addJob jsNow now0 request db) in
  ((exists job, job ∈ Queue.getReadyJobs now clock db' /\ ScheduledJob.id job = id)
   <-> default jsNow (QueueAddRequest.scheduledAt request) / 86400000 < now / 86400000)
  /\ (QueueAddRequest.scheduledAt request = None ->
      forall job, job ∈ Queue.getReadyJobs jsNow clock db' -> ScheduledJob.id job <> id).
Proof.
  intros Hv Hnow Ht id db'.
  set (t := default jsNow (QueueAddRequest.scheduledAt request)) in *.
  assert (Ht' : match QueueAddRequest.scheduledAt request with
                | Some t0 => t0
                | None => jsNow
                end = t).
  { unfold t. now destruct (QueueAddRequest.scheduledAt request). }
  pose proof (addPost_valid now0 (QueueAddRequest.platform request)
                (QueueAddRequest.action request) (QueueAddRequest.content request)
                (Some t) (QueueAddRequest.filePath request) db Hv) as Hv'.
  pose proof (addPost_lookup now0 (QueueAddRequest.platform request)
                (QueueAddRequest.action request) (QueueAddRequest.content request)
                (Some t) (QueueAddRequest.filePath request) db) as Hnew.
  assert (Hadd : Queue.addJob jsNow now0 request db
                 = addPost now0 (QueueAddRequest.platform request)
                     (QueueAddRequest.action request) (QueueAddRequest.content request)
                     (Some t) (QueueAddRequest.filePath request) db).
  { unfold Queue.addJob. now rewrite Ht'. }
  unfold id, db'. rewrite Hadd. clear id db'.
  destruct (addPost now0 _ _ _ (Some t) _ db) as [id db'] eqn:Eadd.
  simpl in Hv' |- *.
  destruct Hnew as (r & Hr & Hid & Hst & Hcnt & Hsch).
  assert (Hin : r ∈ posts db') by (eapply list_elem_of_lookup_2; exact Hr).
  assert (Hready : ready now r = true <-> t / 86400000 < now / 86400000).
  { rewrite ready_spec; [|assumption|intros t0; rewrite Hsch; intros [= <-]; assumption].
    rewrite Hsch. split.
    - intros (_ & [Hn|(t0 & [= <-] & Hd)] & _); [discriminate|assumption].
    - intros Hd. split; [assumption|]. split; [right; eauto|lia]. }
  assert (Hiff : forall at_, (exists job, job ∈ Queue.getReadyJobs at_ clock db'
                                          /\ ScheduledJob.id job = id)
                             <-> ready at_ r = true).
  { intros at_. unfold Queue.getReadyJobs. split.
    - intros (job & Hjob & Hjid).
      apply list_elem_of_lookup in Hjob. destruct Hjob as [k Hk].
      rewrite getPendingJobs_lookup in Hk.
      destruct (ready_rows at_ db' !! k) as [x|] eqn:Ex; [|discriminate].
      simpl in Hk. injection Hk as <-. simpl in Hjid.
      apply list_elem_of_lookup_2 in Ex. apply ready_rows_elem in Ex.
      destruct Ex as [Hx Hrx].
      assert (x = r).
      { destruct Hv' as [Hnd _]. apply (same_id_same_row (posts db')); try assumption.
        congruence. }
      now subst x.
    - intros Hrr.
      assert (Hx : r ∈ ready_rows at_ db') by (apply ready_rows_elem; auto).
      apply list_elem_of_lookup in Hx. destruct Hx as [k Hk].
      exists (rowToJob (clock k) r). split; [|exact Hid].
      eapply list_elem_of_lookup_2. rewrite getPendingJobs_lookup, Hk. reflexivity. }
  split.
  - rewrite Hiff. exact Hready.
  - intros Hnone job Hjob Hjid.
    assert (Hex : exists job, job ∈ Queue.getReadyJobs jsNow clock db'
                              /\ ScheduledJob.id job = id) by eauto.
    apply Hiff in Hex.
    assert (Htj : t = jsNow) by (unfold t; now rewrite Hnone).
    rewrite ready_spec in Hex;
      [|now rewrite <- Htj|intros t0; rewrite Hsch; intros [= <-]; assumption].
    destruct Hex as (_ & [Hn|(t0 & Hs0 & Hd)] & _).
    + rewrite Hsch in Hn. discriminate.
    + rewrite Hsch in Hs0. injection Hs0 as Hs0. rewrite <- Hs0, Htj in Hd. lia.
Qed.

End ListingFacts.
(* ================================================================== *)
(** * The dispatch loop: a whole tick *)
(* ================================================================== *)

Section TickFacts.
Import Time Db Scheduler.

Variable MAX_RETRIES : Z.
Variable spawn : ScheduledJob.t -> Exited.
Variable parse_content : string -> option string.
Variable parse_result : string -> option SkillResult.t.
Variable JSON_stringify : SkillResult.t -> string.






(** X11. Files are removed only for a job whose skill reported success,
    and then only that job's own file; and after a reported success the
    job's row is completed with the skill's result as text, its retry
    count and its earlier error message unchanged. *)
Theorem success_completes_and_unlinks now job w :
  let w' := process_job MAX_RETRIES spawn parse_content parse_result
              JSON_stringify now job w in
  (unlinked w' = unlinked w
   \/ exists path result,
        truthy (ScheduledJob.filePath job) = Some path
        /\ unlinked w' = path :: unlinked w
        /\ ScheduledJob.retryCount job < MAX_RETRIES
        /\ executeSkill spawn parse_content parse_result job = Returned result
        /\ SkillResult.success result = true)
  /\ (forall result (p : nat) r,
        ScheduledJob.retryCount job < MAX_RETRIES ->
        executeSkill spawn parse_content parse_result job = Returned result ->
        SkillResult.success result = true ->
        posts (db w) !! p = Some r ->
        PostRow.id r = ScheduledJob.id job ->
        unlinked w' = match truthy (ScheduledJob.filePath job) with
                      | Some path => path :: unlinked w
                      | None => unlinked w
                      end
        /\ exists r',
             posts (db w') !! p = Some r'
             /\ PostRow.status r' = completed
             /\ PostRow.result_json r' = Some (JSON_stringify result)
             /\ PostRow.updated_at r' = unix_seconds now
             /\ PostRow.retry_count r' = PostRow.retry_count r
             /\ PostRow.error_message r' = PostRow.error_message r).
Proof.
  intros w'. subst w'. split.
  - unfold process_job.
    destruct (MAX_RETRIES <=? ScheduledJob.retryCount job) eqn:Eg; [now left|].
    apply Z.leb_gt in Eg.
    destruct (executeSkill spawn parse_content parse_result job) as [result|message] eqn:Ex;
      [|now left].
    destruct (SkillResult.success result) eqn:Es.
    + destruct (truthy (ScheduledJob.filePath job)) as [path|] eqn:Ef; [|now left].
      right. exists path, result. auto.
    + destruct (bool_decide (SkillResult.needsAuth result = Some true)); now left.
  - intros result p r Hlt Hx Hs Hp Hid. unfold process_job.
    apply Z.leb_gt in Hlt. rewrite Hlt, Hx, Hs.
    split; [now destruct (truthy (ScheduledJob.filePath job))|].
    assert (Hrow : exists r',
              posts (Queue.completeJob now (ScheduledJob.id job) (JSON_stringify result) (db w))
                !! p = Some r'
              /\ PostRow.status r' = completed
              /\ PostRow.result_json r' = Some (JSON_stringify result)
              /\ PostRow.updated_at r' = unix_seconds now
              /\ PostRow.retry_count r' = PostRow.retry_count r
              /\ PostRow.error_message r' = PostRow.error_message r).
    { unfold Queue.completeJob, markComplete. simpl. eexists. split.
      - apply update_where_hit; [exact Hp|]. now apply has_id_true.
      - simpl. repeat split. }
    now destruct (truthy (ScheduledJob.filePath job)).
Qed.

(** X12. When the skill is not run.  A job whose retry count has reached
    the configured ceiling, or whose content is not JSON, is failed
    without its skill being started, whatever process would have been
    spawned, and the failure is counted as a retry like any other.  Since
    the ready set holds only jobs with fewer than three retries, a
    configured ceiling of three or more never applies to a ready job:
    any such ceiling behaves as three. *)
Theorem when_the_skill_is_not_run now job w :
  (MAX_RETRIES <= ScheduledJob.retryCount job ->
   forall spawn' parse_content' parse_result',
     process_job MAX_RETRIES spawn' parse_content' parse_result' JSON_stringify now job w
     = Scheduler.fail now job "Max retries exceeded" w)
  /\ (forall message,
        ScheduledJob.retryCount job < MAX_RETRIES ->
        parse_content (ScheduledJob.contentJson job) = Some message ->
        forall spawn' parse_result',
          process_job MAX_RETRIES spawn' parse_content parse_result' JSON_stringify now job w
          = Scheduler.fail now job message w)
  /\ (forall at_ jsClock d,
        job ∈ Queue.getReadyJobs at_ jsClock d ->
        3 <= MAX_RETRIES ->
        process_job MAX_RETRIES spawn parse_content parse_result JSON_stringify now job w
        = process_job 3 spawn parse_content parse_result JSON_stringify now job w).
Proof.
  split; [|split].
  - intros Hge spawn' parse_content' parse_result'. unfold process_job.
    apply Z.leb_le in Hge. now rewrite Hge.
  - intros message Hlt Hparse spawn' parse_result'. unfold process_job, executeSkill.
    apply Z.leb_gt in Hlt. now rewrite Hlt, Hparse.
  - intros at_ jsClock d Hjob Hthree.
    apply list_elem_of_lookup in Hjob. destruct Hjob as [k Hk].
    apply ready_job_row in Hk. destruct Hk as (r & Hr & ->).
    apply list_elem_of_lookup_2 in Hr. apply ready_rows_elem in Hr.
    destruct Hr as [_ Hr]. unfold ready in Hr.
    apply andb_true_iff in Hr. destruct Hr as [_ Hr]. apply Z.ltb_lt in Hr.
    unfold process_job. simpl ScheduledJob.retryCount.
    assert (H1 : (MAX_RETRIES <=? PostRow.retry_count r) = false) by (apply Z.leb_gt; lia).
    assert (H2 : (3 <=? PostRow.retry_count r) = false) by (apply Z.leb_gt; lia).
    now rewrite H1, H2.
Qed.

(** X13. The branch for results that ask for authentication is taken
    only when the skill process exits with code 0 after printing a result
    that is not a success.  For a skill that exits as the skills' [main]
    functions do, with 0 only after a success, every failure is settled as
    a plain failure with the skill's own message. *)
Theorem needsAuth_needs_a_zero_exit now job w result :
  ScheduledJob.retryCount job < MAX_RETRIES ->
  executeSkill spawn parse_content parse_result job = Returned result ->
  SkillResult.success result = false ->
  (SkillResult.needsAuth result = Some true ->
   exitCode (spawn job) = 0 /\ parse_result (output (spawn job)) = Some result)
  /\ ((forall printed,
         exitCode (spawn job) = 0 ->
         parse_result (output (spawn job)) = Some printed ->
         SkillResult.success printed = true) ->
      SkillResult.needsAuth result = None
      /\ process_job MAX_RETRIES spawn parse_content parse_result JSON_stringify now job w
         = Scheduler.fail now job
             (default "Unknown error" (truthy (SkillResult.error result))) w).
Proof.
  intros Hlt Hx Hs.
  assert (Hcases : exitCode (spawn job) = 0 /\ parse_result (output (spawn job)) = Some result
                   \/ SkillResult.needsAuth result = None).
  { unfold executeSkill in Hx.
    destruct (parse_content (ScheduledJob.contentJson job)); [discriminate|].
    destruct (exitCode (spawn job) =? 0) eqn:Ec; simpl in Hx.
    - apply Z.eqb_eq in Ec.
      destruct (parse_result (output (spawn job))) as [printed|].
      + injection Hx as ->. now left.
      + injection Hx as <-. now right.
    - injection Hx as <-. now right. }
  split.
  - intros Hauth. destruct Hcases as [H|H]; [assumption|congruence].
  - intros Hconv.
    assert (Hnone : SkillResult.needsAuth result = None).
    { destruct Hcases as [[Hc Hp]|H]; [|assumption].
      specialize (Hconv result Hc Hp). congruence. }
    split; [assumption|].
    apply process_job_failure; try assumption. congruence.
Qed.

End TickFacts.
(* ================================================================== *)
(** * Credentials: staleness, the table, and the platforms' refreshes *)
(* ================================================================== *)

Section CredentialFacts.
Import Db TokenManager.

Lemma needsRefresh_true now token :
  needsRefresh now token = true
  <-> exists e, TokenData.expiresAt token = Some e /\ e < now + REFRESH_BUFFER_MS.
Proof.
  unfold needsRefresh. destruct (TokenData.expiresAt token) as [e|].
  - rewrite Z.ltb_lt. split.
    + intros H. exists e. split; [reflexivity|lia].
    + intros (e' & [= <-] & H). lia.
  - split; [discriminate|]. intros (e & H & _). discriminate.
Qed.

Lemma isExpired_true now token :
  isExpired now token = true
  <-> exists e, TokenData.expiresAt token = Some e /\ e <= now.
Proof.
  unfold isExpired. destruct (TokenData.expiresAt token) as [e|].
  - rewrite Z.leb_le. split.
    + intros H. eauto.
    + intros (e' & [= <-] & H). lia.
  - split; [discriminate|]. intros (e & H & _). discriminate.
Qed.

Lemma expired_is_due now token :
  isExpired now token = true -> needsRefresh now token = true.
Proof.
  rewrite isExpired_true, needsRefresh_true. intros (e & He & H).
  exists e. split; [assumption|]. unfold REFRESH_BUFFER_MS. lia.
Qed.

(** A credential is due for renewal from five minutes before its
    expiry; an expired credential is always due, both conditions persist
    as time passes, and a credential without an expiry is never due and
    never expired. *)
Theorem staleness_only_grows now now' token :
  now <= now' ->
  (needsRefresh now token = true
   <-> exists e, TokenData.expiresAt token = Some e /\ e < now + 300000)
  /\ (isExpired now token = true -> needsRefresh now token = true)
  /\ (needsRefresh now token = true -> needsRefresh now' token = true)
  /\ (isExpired now token = true -> isExpired now' token = true)
  /\ (TokenData.expiresAt token = None ->
      needsRefresh now token = false /\ isExpired now token = false).
Proof.
  intros Hle. split; [apply needsRefresh_true|]. split; [|split; [|split]].
  - apply expired_is_due.
  - rewrite !needsRefresh_true. intros (e & He & H). exists e. split; [assumption|lia].
  - rewrite !isExpired_true. intros (e & He & H). exists e. split; [assumption|lia].
  - intros Hnone. unfold needsRefresh, isExpired. now rewrite Hnone.
Qed.

(** X14. [createTokenData] reads a lifetime of zero seconds like an
    absent one: the credential then has no expiry and is never renewed.
    Any other lifetime [n] puts the expiry [n] seconds after the time of
    creation; the credential is due for renewal at once exactly when [n]
    is under 300, and expired at once exactly when [n] is negative. *)
Theorem createTokenData_expiry now platform accessToken refreshToken expiresIn :
  let token := createTokenData now platform accessToken refreshToken expiresIn in
  TokenData.platform token = platform
  /\ TokenData.accessToken token = accessToken
  /\ TokenData.refreshToken token = refreshToken
  /\ (expiresIn = None \/ expiresIn = Some 0 ->
      TokenData.expiresAt token = None
      /\ forall later, needsRefresh later token = false /\ isExpired later token = false)
  /\ (forall n,
        expiresIn = Some n -> n <> 0 ->
        TokenData.expiresAt token = Some (now + n * 1000)
        /\ (needsRefresh now token = true <-> n < 300)
        /\ (isExpired now token = true <-> n < 0)
        /\ forall later, isExpired later token = true <-> now + n * 1000 <= later).
Proof.
  simpl. split; [reflexivity|]. split; [reflexivity|]. split; [reflexivity|]. split.
  - intros [-> | ->]; unfold needsRefresh, isExpired; simpl; auto.
  - intros n -> Hn. pose proof Hn as Hn'. apply Z.eqb_neq in Hn.
    unfold needsRefresh, isExpired, calculateExpiration, REFRESH_BUFFER_MS. simpl.
    rewrite Hn. unfold calculateExpiration. split; [reflexivity|]. split; [|split].
    + rewrite Z.ltb_lt. lia.
    + rewrite Z.leb_le. lia.
    + intros later. rewrite Z.leb_le. lia.
Qed.

(** X15. The credential table holds one row per platform: saving
    replaces the row of that platform and touches no other, an empty
    refresh token is stored as none, deleting answers whether there was
    a row and removes only that one, and no operation on credentials
    touches the jobs.  Reading returns what was saved; its [updatedAt]
    is the UTC second of saving, written without a zone and read back as
    a local time: it is the instant of saving in a process whose zone is
    UTC, and lies [minutes] minutes before it in a process whose zone is
    that far east. *)
Theorem token_table_is_keyed_by_platform now data db platform :
  getToken platform (saveToken now data db)
  = (if decide (platform = TokenData.platform data)
     then Some {| TokenData.platform := TokenData.platform data;
                  TokenData.accessToken := TokenData.accessToken data;
                  TokenData.refreshToken := truthy (TokenData.refreshToken data);
                  TokenData.expiresAt := TokenData.expiresAt data;
                  TokenData.updatedAt := Some (Time.local (Time.unix_seconds now)) |}
     else getToken platform db)
  /\ (forall now0 data0,
        TokenData.platform data0 = TokenData.platform data ->
        saveToken now data (saveToken now0 data0 db) = saveToken now data db)
  /\ (fst (deleteToken platform db) = true <-> is_Some (getToken platform db))
  /\ (fst (deleteToken platform db) = false -> snd (deleteToken platform db) = db)
  /\ (forall other,
        getToken other (snd (deleteToken platform db))
        = if decide (other = platform) then None else getToken other db)
  /\ posts (saveToken now data db) = posts db
  /\ posts (snd (deleteToken platform db)) = posts db
  /\ (forall token,
        getToken (TokenData.platform data) (saveToken now data db) = Some token ->
        exists d, TokenData.updatedAt token = Some d
          /\ Time.wall d = Time.unix_seconds now
          /\ Time.instant Time.utc d = Time.unix_seconds now * 1000
          /\ forall minutes, Time.instant (Time.east minutes) d
                             = Time.unix_seconds now * 1000 - minutes * 60000).
Proof.
  split; [|split; [|split; [|split; [|split; [|split; [|split]]]]]].
  - destruct (decide (platform = TokenData.platform data)) as [->|Hne].
    + apply saveToken_getToken.
    + unfold getToken, saveToken, set_tokens. simpl.
      now rewrite lookup_insert_ne by congruence.
  - intros now0 data0 Heq. unfold saveToken, set_tokens. simpl.
    rewrite Heq. now rewrite insert_insert_eq.
  - unfold deleteToken, getToken. simpl. rewrite bool_decide_eq_true.
    now rewrite fmap_is_Some.
  - unfold deleteToken. simpl. intros H. apply bool_decide_eq_false in H.
    rewrite delete_id; [now destruct db|].
    destruct (tokens db !! platform) eqn:E; [|reflexivity].
    exfalso. apply H. eauto.
  - intros other. unfold deleteToken, getToken. simpl.
    destruct (decide (other = platform)) as [->|Hne].
    + now rewrite lookup_delete_eq.
    + now rewrite lookup_delete_ne by congruence.
  - reflexivity.
  - reflexivity.
  - intros token Ht. rewrite saveToken_getToken in Ht. injection Ht as <-.
    eexists. split; [reflexivity|]. repeat split; reflexivity.
Qed.

Lemma saveToken_keyed now data db : Ops.keyed db -> Ops.keyed (saveToken now data db).
Proof.
  intros Hk platform row. unfold saveToken, set_tokens. simpl.
  destruct (decide (platform = TokenData.platform data)) as [->|Hne].
  - rewrite lookup_insert_eq. now intros [= <-].
  - rewrite lookup_insert_ne by congruence. apply Hk.
Qed.

Lemma apply_keyed db op : Ops.keyed db -> Ops.keyed (Ops.apply db op).
Proof.
  intros Hk. destruct op; simpl; try exact Hk.
  - now apply saveToken_keyed.
  - intros p row. unfold set_tokens. simpl.
    destruct (decide (p = platform)) as [->|Hne].
    + now rewrite lookup_delete_eq.
    + rewrite lookup_delete_ne by congruence. apply Hk.
Qed.

Lemma run_keyed ops : forall db, Ops.keyed db -> Ops.keyed (Ops.run ops db).
Proof.
  unfold Ops.run. induction ops as [|op ops IH]; intros db Hk; simpl; [assumption|].
  apply IH. now apply apply_keyed.
Qed.

Lemma listTokens_rows db row :
  row ∈ order_by by_platform (snd <$> map_to_list (tokens db))
  <-> exists platform, tokens db !! platform = Some row.
Proof.
  rewrite order_by_perm, list_elem_of_fmap. split.
  - intros ([k v] & -> & Hin). apply elem_of_map_to_list in Hin. eauto.
  - intros (k & Hk). exists (k, row). split; [reflexivity|].
    now apply elem_of_map_to_list.
Qed.

(** X16. On a table whose rows are filed under their own platform, as
    every history of the store's operations from the empty table leaves
    it, [listTokens] lists exactly the stored credentials, each platform
    once, in ascending order of the platform name. *)
Theorem listTokens_lists_each_platform_once ops :
  let db := Ops.run ops empty in
  (forall token,
     token ∈ listTokens db <-> getToken (TokenData.platform token) db = Some token)
  /\ length (listTokens db) = size (tokens db)
  /\ (forall (i j : nat) a b,
        listTokens db !! i = Some a -> listTokens db !! j = Some b -> (i < j)%nat ->
        String.compare (TokenData.platform a) (TokenData.platform b) = Lt).
Proof.
  intros db.
  assert (Hk : Ops.keyed db).
  { apply run_keyed. intros p row. unfold empty. simpl. now rewrite lookup_empty. }
  split; [|split].
  - intros token. unfold listTokens, getToken. rewrite list_elem_of_fmap. split.
    + intros (row & -> & Hin). apply listTokens_rows in Hin. destruct Hin as (p & Hp).
      simpl. rewrite (Hk p row Hp), Hp. reflexivity.
    + intros H. destruct (tokens db !! TokenData.platform token) as [row|] eqn:E;
        [|discriminate].
      simpl in H. injection H as H. exists row. split; [now symmetry|].
      apply listTokens_rows. eauto.
  - unfold listTokens. rewrite length_fmap, order_by_perm, length_fmap.
    apply length_map_to_list.
  - intros i j a b Hi Hj Hlt. unfold listTokens in Hi, Hj.
    rewrite list_lookup_fmap in Hi, Hj.
    destruct (order_by by_platform (snd <$> map_to_list (tokens db)) !! i) as [ra|] eqn:Ea;
      [|discriminate].
    destruct (order_by by_platform (snd <$> map_to_list (tokens db)) !! j) as [rb|] eqn:Eb;
      [|discriminate].
    simpl in Hi, Hj. injection Hi as <-. injection Hj as <-. simpl.
    assert (Hsorted : StronglySorted (cmp_le by_platform)
                        (order_by by_platform (snd <$> map_to_list (tokens db)))).
    { apply order_by_sorted. unfold by_platform.
      apply (comparator_on TokenRow.platform String.compare). apply _. }
    pose proof (sorted_lookup_le _ _ Hsorted i j ra rb Ea Eb Hlt) as Hle.
    unfold cmp_le, by_platform in Hle.
    destruct (String.compare (TokenRow.platform ra) (TokenRow.platform rb)) eqn:Ec;
      [|reflexivity|congruence].
    exfalso. apply String.compare_eq_iff in Ec.
    assert (Hnd : NoDup (TokenRow.platform <$>
                           order_by by_platform (snd <$> map_to_list (tokens db)))).
    { rewrite order_by_perm, <- list_fmap_compose.
      erewrite list_fmap_ext; [apply NoDup_fst_map_to_list|].
      intros i0 [k v] Hin. simpl. apply list_elem_of_lookup_2 in Hin.
      apply elem_of_map_to_list in Hin. now apply Hk. }
    assert (i = j); [|lia].
    eapply NoDup_lookup; [exact Hnd| |].
    + rewrite list_lookup_fmap, Ea. reflexivity.
    + rewrite list_lookup_fmap, Eb. simpl. now rewrite Ec.
Qed.

(** X17. After [getValidToken] has renewed a credential, the renewed one
    is what the table holds for its platform, and while it is not yet due
    the next call returns it without calling the refresh function. *)
Theorem renewed_credential_is_served_next clock clock' platform fn fn' db token newToken :
  getToken platform db = Some token ->
  needsRefresh (clock 0%nat) token = true \/ isExpired (clock 1%nat) token = true ->
  is_Some (truthy (TokenData.refreshToken token)) ->
  fn token = Resolved (Some newToken) ->
  TokenData.platform newToken = platform ->
  needsRefresh (clock' 0%nat) newToken = false ->
  isExpired (clock' 1%nat) newToken = false ->
  let '(served, db', calls) := getValidToken clock platform (Some fn) db in
  served = Some newToken
  /\ calls = [token]
  /\ exists stored,
       getToken platform db' = Some stored
       /\ TokenData.accessToken stored = TokenData.accessToken newToken
       /\ TokenData.expiresAt stored = TokenData.expiresAt newToken
       /\ TokenData.refreshToken stored = truthy (TokenData.refreshToken newToken)
       /\ getValidToken clock' platform fn' db' = (Some stored, db', []).
Proof.
  intros Hget Hstale [rt Hrt] Hfn Hplat Hfresh Hlive.
  unfold getValidToken at 1. rewrite Hget.
  assert (Hc : negb (needsRefresh (clock 0%nat) token)
               && negb (isExpired (clock 1%nat) token) = false).
  { destruct Hstale as [-> | ->]; [reflexivity|]. apply andb_false_r. }
  rewrite Hc, Hrt, Hfn.
  split; [reflexivity|]. split; [reflexivity|].
  eexists. split; [rewrite <- Hplat; apply saveToken_getToken|].
  simpl. split; [reflexivity|]. split; [reflexivity|]. split; [reflexivity|].
  unfold getValidToken. rewrite <- Hplat at 1. rewrite saveToken_getToken.
  unfold needsRefresh, isExpired in *. simpl.
  now rewrite Hfresh, Hlive.
Qed.

(** X18. [getTokenStatus] and [getValidToken] read at one instant agree:
    no row means absent, expired and due; a credential reported as
    existing and not due is the one [getValidToken] returns, without a
    refresh and without a write; and whatever is reported expired is also
    reported due. *)
Theorem status_agrees_with_getValidToken t platform refreshFn db :
  let status := getTokenStatus (fun _ => t) platform db in
  (exists_ status = false <-> getToken platform db = None)
  /\ (exists_ status = false ->
      expired status = true /\ needsRefresh_ status = true
      /\ getValidToken (fun _ => t) platform refreshFn db = (None, db, []))
  /\ (exists_ status = true -> needsRefresh_ status = false ->
      is_Some (getToken platform db)
      /\ getValidToken (fun _ => t) platform refreshFn db = (getToken platform db, db, []))
  /\ (expired status = true -> needsRefresh_ status = true)
  /\ expiresAt status = getToken platform db ≫= TokenData.expiresAt.
Proof.
  unfold getTokenStatus, getValidToken.
  destruct (getToken platform db) as [token|]; simpl.
  - split; [split; discriminate|]. split; [discriminate|]. split; [|split; [|reflexivity]].
    + intros _ Hfresh. split; [eauto|]. rewrite Hfresh. simpl.
      destruct (isExpired t token) eqn:E; [|reflexivity].
      assert (needsRefresh t token = true); [|congruence].
      now apply (expired_is_due t token).
    + now apply (expired_is_due t token).
  - split; [split; reflexivity|]. split; [auto|]. split; [discriminate|]. auto.
Qed.

End CredentialFacts.
(* ================================================================== *)
(** * The platforms' refresh functions under [getValidToken] *)
(* ================================================================== *)

Section PlatformFacts.
Import Db TokenManager Platforms.

Lemma getValidToken_renews clock platform fn db token rt newToken :
  getToken platform db = Some token ->
  needsRefresh (clock 0%nat) token = true \/ isExpired (clock 1%nat) token = true ->
  truthy (TokenData.refreshToken token) = Some rt ->
  fn token = Resolved (Some newToken) ->
  getValidToken clock platform (Some fn) db
  = (Some newToken, saveToken (clock 2%nat) newToken db, [token]).
Proof.
  intros Hget Hstale Hrt Hfn. unfold getValidToken. rewrite Hget.
  assert (Hc : negb (needsRefresh (clock 0%nat) token)
               && negb (isExpired (clock 1%nat) token) = false).
  { destruct Hstale as [-> | ->]; [reflexivity|]. apply andb_false_r. }
  now rewrite Hc, Hrt, Hfn.
Qed.

Lemma getValidToken_gives_up clock platform fn db token rt :
  getToken platform db = Some token ->
  needsRefresh (clock 0%nat) token = true \/ isExpired (clock 1%nat) token = true ->
  truthy (TokenData.refreshToken token) = Some rt ->
  fn token = Resolved None ->
  getValidToken clock platform (Some fn) db = (None, db, [token]).
Proof.
  intros Hget Hstale Hrt Hfn. unfold getValidToken. rewrite Hget.
  assert (Hc : negb (needsRefresh (clock 0%nat) token)
               && negb (isExpired (clock 1%nat) token) = false).
  { destruct Hstale as [-> | ->]; [reflexivity|]. apply andb_false_r. }
  now rewrite Hc, Hrt, Hfn.
Qed.

Lemma getValidToken_without_refresh_token clock platform refreshFn db token :
  getToken platform db = Some token ->
  truthy (TokenData.refreshToken token) = None ->
  getValidToken clock platform refreshFn db
  = (if negb (needsRefresh (clock 0%nat) token) && negb (isExpired (clock 1%nat) token)
     then Some token else None, db, []).
Proof.
  intros Hget Hrt. unfold getValidToken. rewrite Hget, Hrt.
  now destruct (negb (needsRefresh (clock 0%nat) token)
                && negb (isExpired (clock 1%nat) token)).
Qed.

Lemma truthy_Some o s : truthy o = Some s -> o = Some s /\ s <> "".
Proof. destruct o as [[|c s']|]; simpl; intros [= <-]; split; congruence. Qed.

(** X19. Renewing a stale YouTube credential.  One call is made to the
    provider, with the stored refresh token.  When it answers, the new
    credential is stored under "youtube" with the provider's access token
    and with a refresh token in every case: the provider's when it sends a
    non-empty one, otherwise the one already held; so the credential can
    be renewed again.  Its expiry is the provider's, counted in whole
    seconds from the time of the call; an expiry less than a second away
    is read as none.  When the call fails nothing is stored and no client
    is returned. *)
Theorem youtube_refresh_keeps_refresh_token refreshAccessToken clock now db token rt :
  getToken "youtube" db = Some token ->
  needsRefresh (clock 0%nat) token = true \/ isExpired (clock 1%nat) token = true ->
  truthy (TokenData.refreshToken token) = Some rt ->
  (forall credentials,
     refreshAccessToken rt = Some credentials ->
     exists served db' stored,
       YouTube.getYouTubeClient refreshAccessToken clock now now db
       = (Some served, db', [token])
       /\ YouTube.isAuthenticated refreshAccessToken clock now now db = true
       /\ getToken "youtube" db' = Some stored
       /\ TokenData.accessToken stored = access_token credentials
       /\ TokenData.accessToken served = access_token credentials
       /\ TokenData.refreshToken stored
          = Some (default rt (truthy (refresh_token credentials)))
       /\ is_Some (truthy (TokenData.refreshToken stored))
       /\ TokenData.expiresAt stored = TokenData.expiresAt served
       /\ (forall e,
             expiry_date credentials = Some e -> e <> 0 ->
             (0 <= e - now < 1000 -> TokenData.expiresAt stored = None)
             /\ (~ 0 <= e - now < 1000 ->
                 exists e', TokenData.expiresAt stored = Some e' /\ e - 1000 < e' <= e))
       /\ (expiry_date credentials = None \/ expiry_date credentials = Some 0 ->
           TokenData.expiresAt stored = None))
  /\ (refreshAccessToken rt = None ->
      YouTube.getYouTubeClient refreshAccessToken clock now now db = (None, db, [token])
      /\ YouTube.isAuthenticated refreshAccessToken clock now now db = false).
Proof.
  intros Hget Hstale Hrt. destruct (truthy_Some _ _ Hrt) as [Hheld Hne]. split.
  - intros credentials Hcall.
    assert (Hfn : YouTube.refreshYouTubeToken refreshAccessToken now now token
                  = Resolved (Some
                      (createTokenData now "youtube" (access_token credentials)
                         (Some (default rt (truthy (refresh_token credentials))))
                         (match expiry_date credentials with
                          | Some e => if e =? 0 then None else Some ((e - now) / 1000)
                          | None => None
                          end)))).
    { unfold YouTube.refreshYouTubeToken. rewrite Hrt, Hcall, Hheld.
      now destruct (truthy (refresh_token credentials)). }
    pose proof (getValidToken_renews clock "youtube"
                  (YouTube.refreshYouTubeToken refreshAccessToken now now)
                  db token rt _ Hget Hstale Hrt Hfn) as Hv.
    eexists _, _, _. split; [exact Hv|].
    split; [unfold YouTube.isAuthenticated, YouTube.getYouTubeClient; now rewrite Hv|].
    split; [apply (saveToken_getToken (clock 2%nat)
                     (createTokenData now "youtube" _ _ _))|].
    unfold createTokenData.
    cbn [TokenData.accessToken TokenData.refreshToken TokenData.expiresAt].
    split; [reflexivity|]. split; [reflexivity|].
    assert (Hkept : truthy (Some (default rt (truthy (refresh_token credentials))))
                    = Some (default rt (truthy (refresh_token credentials)))).
    { destruct (truthy (refresh_token credentials)) as [r|] eqn:Er; simpl.
      - apply truthy_Some in Er. destruct Er as [_ Er]. now destruct r.
      - now destruct rt. }
    rewrite Hkept. split; [reflexivity|]. split; [eauto|]. split; [reflexivity|]. split.
    + intros e -> He. apply Z.eqb_neq in He. rewrite He. split.
      * intros Hnear.
        assert (Hz : (e - now) / 1000 = 0) by (apply Z.div_small; lia).
        now rewrite Hz.
      * intros Hfar.
        assert (Hz : (e - now) / 1000 <> 0).
        { intros Hz. apply Z.div_small_iff in Hz; lia. }
        apply Z.eqb_neq in Hz. rewrite Hz. unfold calculateExpiration.
        eexists. split; [reflexivity|].
        pose proof (Z.mod_pos_bound (e - now) 1000 ltac:(lia)).
        pose proof (Z.div_mod (e - now) 1000 ltac:(lia)). lia.
    + intros [-> | ->]; reflexivity.
  - intros Hcall.
    assert (Hfn : YouTube.refreshYouTubeToken refreshAccessToken now now token
                  = Resolved None).
    { unfold YouTube.refreshYouTubeToken. now rewrite Hrt, Hcall. }
    pose proof (getValidToken_gives_up clock "youtube"
                  (YouTube.refreshYouTubeToken refreshAccessToken now now)
                  db token rt Hget Hstale Hrt Hfn) as Hv.
    split; [exact Hv|].
    unfold YouTube.isAuthenticated, YouTube.getYouTubeClient. rewrite Hv. simpl.
    reflexivity.
Qed.

(** A TikTok credential is renewed with the refresh token the
    provider sends and nothing else: when the reply carries none, the
    stored credential has none, unlike the YouTube one. *)
Theorem tiktok_refresh_replaces_refresh_token refreshGrant clock now db token rt
    accessToken refreshToken expiresIn :
  getToken "tiktok" db = Some token ->
  needsRefresh (clock 0%nat) token = true \/ isExpired (clock 1%nat) token = true ->
  truthy (TokenData.refreshToken token) = Some rt ->
  refreshGrant rt = Some (accessToken, refreshToken, expiresIn) ->
  exists db' stored,
    TikTok.getAccessToken refreshGrant clock now db = (truthy (Some accessToken), db', [token])
    /\ getToken "tiktok" db' = Some stored
    /\ TokenData.accessToken stored = accessToken
    /\ TokenData.refreshToken stored = truthy refreshToken
    /\ (truthy refreshToken = None ->
        forall clock' now',
          needsRefresh (clock' 0%nat) stored = true \/ isExpired (clock' 1%nat) stored = true ->
          TikTok.getAccessToken refreshGrant clock' now' db' = (None, db', [])
          /\ TikTok.isAuthenticated refreshGrant clock' now' db' = false).
Proof.
  intros Hget Hstale Hrt Hcall.
  assert (Hfn : TikTok.refreshTikTokToken refreshGrant now token
                = Resolved (Some (createTokenData now "tiktok" accessToken
                                    refreshToken expiresIn))).
  { unfold TikTok.refreshTikTokToken. now rewrite Hrt, Hcall. }
  pose proof (getValidToken_renews clock "tiktok" (TikTok.refreshTikTokToken refreshGrant now)
                db token rt _ Hget Hstale Hrt Hfn) as Hv.
  eexists _, _. split; [unfold TikTok.getAccessToken; rewrite Hv; reflexivity|].
  split; [apply (saveToken_getToken (clock 2%nat)
                   (createTokenData now "tiktok" _ _ _))|].
  simpl. split; [reflexivity|]. split; [reflexivity|].
  intros Hnone clock' now' Hstale'.
  assert (Hv' : getValidToken clock' "tiktok"
                  (Some (TikTok.refreshTikTokToken refreshGrant now'))
                  (saveToken (clock 2%nat)
                     (createTokenData now "tiktok" accessToken refreshToken expiresIn) db)
                = (None,
                   saveToken (clock 2%nat)
                     (createTokenData now "tiktok" accessToken refreshToken expiresIn) db,
                   [])).
  { erewrite getValidToken_without_refresh_token;
      [|apply (saveToken_getToken (clock 2%nat) (createTokenData now "tiktok" _ _ _))|].
    - unfold needsRefresh, isExpired in Hstale' |- *. simpl in Hstale' |- *.
      destruct Hstale' as [-> | ->]; [reflexivity|]. now rewrite andb_false_r.
    - simpl. rewrite Hnone. reflexivity. }
  unfold TikTok.isAuthenticated, TikTok.getAccessToken. rewrite Hv'. simpl.
  split; reflexivity.
Qed.

End PlatformFacts.

Section FacebookFacts.
Import Db TokenManager Platforms OAuth.

Variable fetch : TokenRequest -> Fetched.
Variable env : Env.
Variable exchangeToken : string -> option (string * option Z).

Lemma settle_stores now platform keep reply w w' :
  settle now platform keep reply w = (Ok tt, w') ->
  exists data accessToken,
    reply = Replied true (match reply with Replied _ text _ => text | _ => "" end) (Some data)
    /\ access_token data = Some accessToken
    /\ w' = mkWorld (server w)
              (storeToken now
                 (createTokenData now platform accessToken
                    (if keep then refresh_token data else None) (expires_in data))
                 (store w))
              (sent w).
Proof.
  unfold settle. destruct reply as [|[] text [data|]]; try discriminate.
  destruct (access_token data) as [accessToken|] eqn:Ea; [|discriminate].
  intros [= <-]. exists data, accessToken. auto.
Qed.

(** X20. A Facebook credential is never renewed.  The exchange of the
    callback stores it without a refresh token, and so would
    [refreshFacebookToken]; [getValidToken] therefore never calls
    [refreshFacebookToken] for it: while it is not due it is served as
    stored, and from five minutes before its expiry on there is no access
    token at all, with no request to the provider and no write. *)
Theorem facebook_credentials_are_never_refreshed now code w w' clock at_ :
  exchangeFacebookCode fetch env now code w = (Ok tt, w') ->
  (exists stored,
     getToken "facebook" (store w') = Some stored
     /\ TokenData.refreshToken stored = None
     /\ Facebook.getAccessToken exchangeToken clock at_ (store w')
        = (if negb (needsRefresh (clock 0%nat) stored)
              && negb (isExpired (clock 1%nat) stored)
           then truthy (Some (TokenData.accessToken stored)) else None,
           store w', []))
  /\ (forall token newToken,
        Facebook.refreshFacebookToken exchangeToken at_ token = Resolved (Some newToken) ->
        TokenData.refreshToken newToken = None
        /\ TokenData.platform newToken = "facebook").
Proof.
  intros Hx. split.
  - unfold exchangeFacebookCode in Hx.
    destruct (truthy (FACEBOOK_APP_ID env)); [|discriminate].
    destruct (truthy (FACEBOOK_APP_SECRET env)); [|discriminate].
    destruct (truthy (FACEBOOK_REDIRECT_URI env)); [|discriminate].
    destruct (fetch _) in Hx; [discriminate|].
    apply settle_stores in Hx. destruct Hx as (data & accessToken & _ & _ & ->).
    simpl. unfold storeToken.
    eexists. split; [apply (saveToken_getToken now (createTokenData now "facebook" _ _ _))|].
    simpl. split; [reflexivity|].
    unfold Facebook.getAccessToken.
    erewrite getValidToken_without_refresh_token;
      [|apply (saveToken_getToken now (createTokenData now "facebook" _ _ _))|reflexivity].
    simpl. now destruct (negb _ && negb _).
  - intros token newToken. unfold Facebook.refreshFacebookToken.
    destruct (exchangeToken (TokenData.accessToken token)) as [[a e]|]; [|discriminate].
    intros [= <-]. split; reflexivity.
Qed.

End FacebookFacts.
(* ================================================================== *)
(** * The OAuth server: paths, requests without exchange, sessions *)
(* ================================================================== *)

Section PathFacts.
Import OAuth.

Lemma strip_prefix_spec p : forall s r, strip_prefix p s = Some r <-> s = p +:+ r.
Proof.
  induction p as [|a p IH]; intros s r; simpl.
  - split; [now intros [= ->]|now intros ->].
  - destruct s as [|b s].
    + split; discriminate.
    + destruct (Ascii.eqb a b) eqn:E.
      * apply Ascii.eqb_eq in E. subst b. rewrite IH. split; [now intros ->|now intros [= ->]].
      * apply Ascii.eqb_neq in E. split; [discriminate|]. intros [= -> _]. contradiction.
Qed.

Lemma span_word_spec s : forall w tail,
  span_word s = (w, tail) ->
  s = w +:+ tail
  /\ Forall (fun c => is_word c = true) (list_ascii_of_string w)
  /\ match tail with
     | String c _ => is_word c = false
     | EmptyString => True
     end.
Proof.
  induction s as [|c s IH]; intros w tail; simpl.
  - intros [= <- <-]. simpl. auto.
  - destruct (is_word c) eqn:E.
    + destruct (span_word s) as [w' tail'] eqn:Es. intros [= <- <-].
      destruct (IH w' tail' eq_refl) as (-> & Hall & Htail).
      simpl. split; [reflexivity|]. split; [|assumption]. now constructor.
    + intros [= <- <-]. simpl. auto.
Qed.

Lemma span_word_app w : forall tail,
  Forall (fun c => is_word c = true) (list_ascii_of_string w) ->
  match tail with
  | String c _ => is_word c = false
  | EmptyString => True
  end ->
  span_word (w +:+ tail) = (w, tail).
Proof.
  induction w as [|c w IH]; intros tail Hall Htail; simpl.
  - destruct tail as [|c t]; [reflexivity|]. simpl. now rewrite Htail.
  - simpl in Hall. apply Forall_cons in Hall. destruct Hall as [Hc Hall].
    rewrite Hc. now rewrite (IH tail Hall Htail).
Qed.

(** X21. The callback route.  A path is a provider callback exactly when
    it is "/auth/", a non-empty word of letters, digits and underscores,
    and "/callback", and the word is the platform the handler goes on
    with; nothing restricts it to the three providers. *)
Theorem callback_path_shape path platform :
  callback_platform path = Some platform
  <-> path = "/auth/" +:+ platform +:+ "/callback"
      /\ platform <> ""
      /\ Forall (fun c => is_word c = true) (list_ascii_of_string platform).
Proof.
  unfold callback_platform. split.
  - destruct (strip_prefix "/auth/" path) as [rest|] eqn:Ep; [|discriminate].
    apply strip_prefix_spec in Ep.
    destruct (span_word rest) as [w tail] eqn:Es.
    apply span_word_spec in Es. destruct Es as (-> & Hall & _).
    destruct (negb (String.eqb w "") && String.eqb tail "/callback") eqn:Ec; [|discriminate].
    apply andb_true_iff in Ec. destruct Ec as [Hw Ht].
    apply negb_true_iff, String.eqb_neq in Hw. apply String.eqb_eq in Ht.
    intros [= <-]. subst tail. auto.
  - intros (-> & Hne & Hall).
    assert (Hp : strip_prefix "/auth/" ("/auth/" +:+ platform +:+ "/callback")
                 = Some (platform +:+ "/callback")) by now apply strip_prefix_spec.
    rewrite Hp, (span_word_app platform "/callback" Hall eq_refl).
    apply String.eqb_neq in Hne. now rewrite Hne.
Qed.

End PathFacts.

Section RequestFacts.
Import Db TokenManager OAuth.

Variable randomBytes : nat -> nat -> list Byte.byte.
Variable fetch : TokenRequest -> Fetched.
Variable env : Env.

Lemma world_eta w : mkWorld (server w) (store w) (sent w) = w.
Proof. now destruct w. Qed.

(** X22. Requests that reach no exchange.  The health check, a path that
    is no callback, a callback carrying an error parameter, and a
    callback without a code or without a state are answered 200, 404, 400
    and 400 and change nothing: an error parameter is answered before the
    state is looked at, so it does not consume the session.  In general
    every answer is 200, 400, 404 or 500, and an answer of 400 or 404
    leaves the sessions, the credentials and the network untouched. *)
Theorem requests_without_exchange_change_nothing now req w :
  (pathname req = "/health" ->
   handle fetch env now req w = (mkResponse 200 HealthOk, w))
  /\ (pathname req <> "/health" -> callback_platform (pathname req) = None ->
      handle fetch env now req w = (mkResponse 404 NotFound, w))
  /\ (forall platform e,
        callback_platform (pathname req) = Some platform ->
        truthy (error req) = Some e ->
        handle fetch env now req w = (mkResponse 400 (AuthenticationFailed e), w))
  /\ (forall platform,
        callback_platform (pathname req) = Some platform ->
        truthy (error req) = None ->
        truthy (code req) = None \/ truthy (state req) = None ->
        handle fetch env now req w = (mkResponse 400 InvalidRequest, w))
  /\ (status (fst (handle fetch env now req w)) = 400
      \/ status (fst (handle fetch env now req w)) = 404 ->
      snd (handle fetch env now req w) = w)
  /\ (status (fst (handle fetch env now req w)) = 200
      \/ status (fst (handle fetch env now req w)) = 400
      \/ status (fst (handle fetch env now req w)) = 404
      \/ status (fst (handle fetch env now req w)) = 500).
Proof.
  split; [|split; [|split; [|split; [|split]]]].
  - intros Hp. unfold handle. apply String.eqb_eq in Hp. now rewrite Hp.
  - intros Hp Hc. unfold handle. apply String.eqb_neq in Hp. now rewrite Hp, Hc.
  - intros platform e Hc He. unfold handle.
    destruct (String.eqb (pathname req) "/health") eqn:Eh.
    + apply health_is_no_callback in Eh. congruence.
    + now rewrite Hc, He.
  - intros platform Hc He Hmiss. unfold handle.
    destruct (String.eqb (pathname req) "/health") eqn:Eh.
    + apply health_is_no_callback in Eh. congruence.
    + rewrite Hc, He. destruct Hmiss as [-> | Hs]; [reflexivity|].
      rewrite Hs. now destruct (truthy (code req)).
  - unfold handle.
    destruct (String.eqb (pathname req) "/health"); [simpl; intros [?|?]; discriminate|].
    destruct (callback_platform (pathname req)) as [platform|]; [|reflexivity].
    destruct (truthy (error req)); [reflexivity|].
    destruct (truthy (code req)) as [c|]; [|reflexivity].
    destruct (truthy (state req)) as [token|]; [|reflexivity].
    unfold verifyState. destruct (oauthStates (server w) !! token).
    + destruct (exchange fetch env now platform c token _) as [[[]|m] w2];
        simpl; intros [?|?]; discriminate.
    + simpl. intros _. apply world_eta.
  - unfold handle.
    destruct (String.eqb (pathname req) "/health"); [simpl; auto|].
    destruct (callback_platform (pathname req)) as [platform|]; [|simpl; auto].
    destruct (truthy (error req)); [simpl; auto|].
    destruct (truthy (code req)) as [c|]; [|simpl; auto].
    destruct (truthy (state req)) as [token|]; [|simpl; auto].
    unfold verifyState. destruct (oauthStates (server w) !! token); [|simpl; auto].
    destruct (exchange fetch env now platform c token _) as [[[]|m] w2]; simpl; auto.
Qed.

(** X23. The handler never reads what the session holds.  A callback
    with a code and a state is answered the same, and leaves the same
    server, credentials and network, whatever platform and user the
    session under that state was begun for: a state issued for one
    provider completes a callback on another provider's path. *)
Theorem callback_ignores_session_data now req w platform c token d1 d2 :
  callback_platform (pathname req) = Some platform ->
  truthy (error req) = None ->
  truthy (code req) = Some c ->
  truthy (state req) = Some token ->
  handle fetch env now req
    (mkWorld (mkServer (<[ token := d1 ]> (oauthStates (server w)))
                (timers (server w)) (draws (server w)))
       (store w) (sent w))
  = handle fetch env now req
      (mkWorld (mkServer (<[ token := d2 ]> (oauthStates (server w)))
                  (timers (server w)) (draws (server w)))
         (store w) (sent w)).
Proof.
  intros Hp He Hc Hs.
  rewrite (handle_known_state fetch env now req _ platform c token d1 Hp He Hc Hs)
    by (simpl; apply lookup_insert_eq).
  rewrite (handle_known_state fetch env now req _ platform c token d2 Hp He Hc Hs)
    by (simpl; apply lookup_insert_eq).
  simpl. now rewrite !delete_insert_eq.
Qed.

(** X24. A callback on the path of a platform that is none of the three
    providers still consumes the session named by its state, and is then
    answered 500 "Unknown platform"; no request is sent and nothing is
    stored. *)
Theorem unknown_platform_consumes_the_session now req w platform c token :
  callback_platform (pathname req) = Some platform ->
  platform <> "youtube" -> platform <> "facebook" -> platform <> "tiktok" ->
  truthy (error req) = None ->
  truthy (code req) = Some c ->
  truthy (state req) = Some token ->
  is_Some (oauthStates (server w) !! token) ->
  handle fetch env now req w
  = (mkResponse 500 (AuthenticationError ("Unknown platform: " +:+ platform)),
     mkWorld (mkServer (delete token (oauthStates (server w)))
                (timers (server w)) (draws (server w)))
       (store w) (sent w)).
Proof.
  intros Hp Hy Hf Ht He Hc Hs [data Hdata].
  rewrite (handle_known_state fetch env now req w platform c token data Hp He Hc Hs Hdata).
  unfold exchange.
  apply String.eqb_neq in Hy, Hf, Ht. now rewrite Hy, Hf, Ht.
Qed.




Lemma timers_absent now token : forall alarms (m : gmap string OAuthState.t),
  (exists due, (due, token) ∈ alarms /\ due <= now) ->
  foldr (fun '(due, state) m => if due <=? now then delete state m else m) m alarms
    !! token = None.
Proof.
  induction alarms as [|[d s] alarms IH]; intros m (due & Hin & Hdue).
  - now apply not_elem_of_nil in Hin.
  - simpl. apply elem_of_cons in Hin. destruct Hin as [Heq|Hin].
    + assert (Hd : d = due) by congruence. assert (Hs : s = token) by congruence.
      subst d s. apply Z.leb_le in Hdue. rewrite Hdue. apply lookup_delete_eq.
    + destruct (d <=? now).
      * destruct (decide (s = token)) as [->|Hne]; [apply lookup_delete_eq|].
        rewrite lookup_delete_ne by assumption. apply IH. eauto.
      * apply IH. eauto.
Qed.

Lemma timers_kept now token : forall alarms (m : gmap string OAuthState.t),
  (forall due, (due, token) ∈ alarms -> now < due) ->
  foldr (fun '(due, state) m => if due <=? now then delete state m else m) m alarms
    !! token = m !! token.
Proof.
  induction alarms as [|[d s] alarms IH]; intros m Hall; [reflexivity|].
  simpl.
  assert (IH' : foldr (fun '(due, state) m => if due <=? now then delete state m else m)
                  m alarms !! token = m !! token).
  { apply IH. intros due Hin. apply Hall. now apply list_elem_of_further. }
  destruct (d <=? now) eqn:E; [|assumption].
  destruct (decide (s = token)) as [->|Hne].
  - apply Z.leb_le in E. specialize (Hall d (list_elem_of_here _ _)). lia.
  - now rewrite lookup_delete_ne by assumption.
Qed.

(** X26. A session lives ten minutes.  [generateState] files the session
    under a token that is the hexadecimal text of the random bytes drawn,
    two characters a byte, and sets a timer: once the event loop has run
    the timers ten minutes later or more the session is gone, and until
    then it is there, unless an earlier timer set for the same token
    deletes it first. *)
Theorem session_lives_ten_minutes now platform userId srv later :
  let token := fst (generateState randomBytes now platform userId srv) in
  let srv' := snd (generateState randomBytes now platform userId srv) in
  token = Crypto.hex (randomBytes (draws srv) 16%nat)
  /\ String.length token = (2 * length (randomBytes (draws srv) 16%nat))%nat
  /\ oauthStates srv' !! token = Some (OAuthState.mk platform userId None None)
  /\ (now + 600000 <= later -> oauthStates (runTimers later srv') !! token = None)
  /\ (later < now + 600000 ->
      (forall due, (due, token) ∈ timers srv -> later < due) ->
      oauthStates (runTimers later srv') !! token
      = Some (OAuthState.mk platform userId None None)).
Proof.
  simpl. split; [reflexivity|]. split; [|split; [apply lookup_insert_eq|split]].
  - generalize (randomBytes (draws srv) 16%nat). intros bytes.
    induction bytes as [|b bytes IH]; simpl; [reflexivity|]. rewrite IH. lia.
  - intros Hlate. unfold runTimers. simpl. apply timers_absent.
    exists (now + 10 * 60 * 1000). split; [|lia].
    apply elem_of_app. right. apply list_elem_of_here.
  - intros Hearly Hold. unfold runTimers. simpl. rewrite timers_kept.
    + apply lookup_insert_eq.
    + intros due Hin. apply elem_of_app in Hin. destruct Hin as [Hin|Hin]; [now apply Hold|].
      apply list_elem_of_singleton in Hin. injection Hin as ->. lia.
Qed.

Lemma hex_length bytes : String.length (Crypto.hex bytes) = (2 * length bytes)%nat.
Proof. induction bytes as [|b bytes IH]; simpl; [reflexivity|]. rewrite IH. lia. Qed.

Lemma truthy_nonempty s : (0 < String.length s)%nat -> truthy (Some s) = Some s.
Proof. destruct s; simpl; [lia|reflexivity]. Qed.

(** A handshake begun for a session leaves it on file under the state
    token of the URL, a text of 32 characters. *)
Lemma generateAuthUrl_session now platform userId srv url srv' :
  (forall k n : nat, length (randomBytes k n) = n) ->
  generateAuthUrl randomBytes env now platform userId srv = (Ok url, srv') ->
  (platform = "youtube" \/ platform = "facebook" \/ platform = "tiktok")
  /\ exists token data,
       get_param "state" (params url) = Some token
       /\ String.length token = 32%nat
       /\ oauthStates srv' !! token = Some data
       /\ OAuthState.platform data = platform
       /\ OAuthState.userId data = userId.
Proof.
  intros Hlen. unfold generateAuthUrl.
  destruct (String.eqb platform "youtube") eqn:Ey.
  { apply String.eqb_eq in Ey. subst platform. unfold generateYouTubeAuthUrl.
    destruct (truthy (YOUTUBE_CLIENT_ID env)); [|discriminate].
    destruct (truthy (YOUTUBE_REDIRECT_URI env)); [|discriminate].
    unfold generatePKCE, generateState. simpl. rewrite lookup_insert_eq. simpl.
    intros [= <- <-]. split; [auto|]. eexists _, _.
    split; [reflexivity|]. split; [now rewrite hex_length, Hlen|].
    simpl. split; [apply lookup_insert_eq|]. split; reflexivity. }
  destruct (String.eqb platform "facebook") eqn:Ef.
  { apply String.eqb_eq in Ef. subst platform. unfold generateFacebookAuthUrl.
    destruct (truthy (FACEBOOK_APP_ID env)); [|discriminate].
    destruct (truthy (FACEBOOK_REDIRECT_URI env)); [|discriminate].
    unfold generateState. simpl.
    intros [= <- <-]. split; [auto|]. eexists _, _.
    split; [reflexivity|]. split; [now rewrite hex_length, Hlen|].
    simpl. split; [apply lookup_insert_eq|]. split; reflexivity. }
  destruct (String.eqb platform "tiktok") eqn:Et; [|discriminate].
  apply String.eqb_eq in Et. subst platform. unfold generateTikTokAuthUrl.
  destruct (truthy (TIKTOK_CLIENT_KEY env)); [|discriminate].
  destruct (truthy (TIKTOK_REDIRECT_URI env)); [|discriminate].
  unfold generateState. simpl.
  intros [= <- <-]. split; [auto|]. eexists _, _.
  split; [reflexivity|]. split; [now rewrite hex_length, Hlen|].
  simpl. split; [apply lookup_insert_eq|]. split; reflexivity.
Qed.

(** X27. A handshake from its beginning to the callback.  When
    [generateAuthUrl] returns a URL, the platform is one of the three
    providers, the URL carries a state token of 32 characters, and the
    session is on file under it for that platform and user; a callback on
    that platform's path with a code and this state is then never
    answered "Invalid State": it goes on to the exchange (200 or 500),
    and the session is gone afterwards.  When [generateAuthUrl] throws,
    for an unknown platform or missing configuration, it has drawn no
    random bytes and filed nothing. *)
Theorem handshake_round_trip now platform userId srv :
  (forall k n : nat, length (randomBytes k n) = n) ->
  (forall url srv',
     generateAuthUrl randomBytes env now platform userId srv = (Ok url, srv') ->
     (platform = "youtube" \/ platform = "facebook" \/ platform = "tiktok")
     /\ exists token data,
          get_param "state" (params url) = Some token
          /\ String.length token = 32%nat
          /\ oauthStates srv' !! token = Some data
          /\ OAuthState.platform data = platform
          /\ OAuthState.userId data = userId
          /\ forall now' req credentials requests c,
               pathname req = "/auth/" +:+ platform +:+ "/callback" ->
               truthy (error req) = None ->
               truthy (code req) = Some c ->
               state req = Some token ->
               (status (fst (handle fetch env now' req (mkWorld srv' credentials requests)))
                = 200
                \/ status (fst (handle fetch env now' req
                                  (mkWorld srv' credentials requests))) = 500)
               /\ oauthStates
                    (server (snd (handle fetch env now' req
                                    (mkWorld srv' credentials requests)))) !! token
                  = None)
  /\ (forall message srv',
        generateAuthUrl randomBytes env now platform userId srv = (Throw message, srv') ->
        srv' = srv).
Proof.
  intros Hlen. split.
  - intros url srv' Hgen.
    destruct (generateAuthUrl_session now platform userId srv url srv' Hlen Hgen)
      as (Hthree & token & data & Hstate & Htok & Hdata & Hplat & Huser).
    split; [assumption|]. exists token, data.
    split; [assumption|]. split; [assumption|]. split; [assumption|].
    split; [assumption|]. split; [assumption|].
    intros now' req credentials requests c Hpath He Hc Hs.
    assert (Hcb : callback_platform (pathname req) = Some platform).
    { rewrite Hpath. destruct Hthree as [-> | [-> | ->]]; reflexivity. }
    assert (Hst : truthy (state req) = Some token).
    { rewrite Hs. apply truthy_nonempty. lia. }
    rewrite (handle_known_state fetch env now' req (mkWorld srv' credentials requests)
               platform c token data Hcb He Hc Hst Hdata).
    simpl.
    destruct (exchange fetch env now' platform c token _) as [[[]|m] w2] eqn:Ex;
      apply (f_equal snd) in Ex; simpl in Ex; subst w2; simpl;
      rewrite exchange_server; simpl; (split; [auto|apply lookup_delete_eq]).
  - intros message srv'. unfold generateAuthUrl.
    destruct (String.eqb platform "youtube").
    { unfold generateYouTubeAuthUrl.
      destruct (truthy (YOUTUBE_CLIENT_ID env)); [|now intros [= _ <-]].
      destruct (truthy (YOUTUBE_REDIRECT_URI env)); [|now intros [= _ <-]].
      unfold generatePKCE, generateState. simpl. rewrite lookup_insert_eq. discriminate. }
    destruct (String.eqb platform "facebook").
    { unfold generateFacebookAuthUrl.
      destruct (truthy (FACEBOOK_APP_ID env)); [|now intros [= _ <-]].
      destruct (truthy (FACEBOOK_REDIRECT_URI env)); [|now intros [= _ <-]].
      discriminate. }
    destruct (String.eqb platform "tiktok"); [|now intros [= _ <-]].
    unfold generateTikTokAuthUrl.
    destruct (truthy (TIKTOK_CLIENT_KEY env)); [|now intros [= _ <-]].
    destruct (truthy (TIKTOK_REDIRECT_URI env)); [|now intros [= _ <-]].
    discriminate.
Qed.

End RequestFacts.
(* ================================================================== *)
(** * The scheduler skill's command line *)
(* ================================================================== *)

Section CommandFacts.
Import Db SchedulerSkill.

Variable show_jobs : list ScheduledJob.t -> string.
Variable show_job : ScheduledJob.t -> string.
Variable null_read : string.
Variable unbound : string.

Lemma update_without_match id s f db :
  (0 <? changes (id_and_status id s) (posts db)) = false ->
  set_posts (update_where (id_and_status id s) f (posts db)) db = db.
Proof.
  intros H. rewrite update_where_none; [apply set_posts_same|]. now apply changes_zero.
Qed.

Lemma cancel_refused now id db db' :
  Queue.cancel now id db = (false, db') -> db' = db.
Proof.
  unfold Queue.cancel, cancelJob. intros [= H <-]. now apply update_without_match.
Qed.

Lemma retry_refused now id db db' :
  Queue.retry now id db = (false, db') -> db' = db.
Proof.
  unfold Queue.retry, retryJob. intros [= H <-]. now apply update_without_match.
Qed.

(** X28. The process exits with code 0 exactly when the result it
    prints is a success, and with 1 otherwise; the result always names
    "scheduler" as its platform.  A command that fails has changed
    nothing in the database, and [list], [get], [stats] and unknown
    commands never change it. *)
Theorem failing_command_changes_nothing now clock verb parsed db :
  let '(exit, db') := main show_jobs show_job null_read unbound now clock verb parsed db in
  (code exit = 0 <-> SkillResult.success (result exit) = true)
  /\ (code exit = 0 \/ code exit = 1)
  /\ SkillResult.platform (result exit) = "scheduler"
  /\ (SkillResult.success (result exit) = false -> db' = db)
  /\ (is_verb verb "add" = false -> is_verb verb "cancel" = false ->
      is_verb verb "retry" = false -> is_verb verb "cleanup" = false -> db' = db).
Proof.
  assert (Hcode : forall b : bool,
            ((if b then 0 else 1) = 0 <-> b = true)
            /\ ((if b then 0 else 1) = 0 \/ (if b then 0 else 1) = 1)).
  { intros []; (split; [split; intros; congruence|auto]). }
  unfold main.
  destruct (run show_jobs show_job null_read unbound now clock verb parsed db)
    as [r db'] eqn:Erun.
  simpl. destruct (Hcode (SkillResult.success r)) as [H1 H2].
  split; [exact H1|]. split; [exact H2|]. clear H1 H2 Hcode.
  revert Erun. unfold run.
  repeat match goal with
         | |- context [if is_verb ?v ?n then _ else _] => destruct (is_verb v n) eqn:?
         end;
    repeat match goal with
           | |- context [match parsed with _ => _ end] => destruct parsed as [args| |m]
           | |- context [match truthy ?x with _ => _ end] => destruct (truthy x)
           | |- context [match truthy_num ?x with _ => _ end] => destruct (truthy_num x)
           | |- context [match scheduledAt ?a with _ => _ end] => destruct (scheduledAt a)
           | |- context [match content ?a with _ => _ end] => destruct (content a)
           | |- context [match Queue.getJob ?a ?b ?c with _ => _ end] =>
               destruct (Queue.getJob a b c)
           | |- context [let '(_, _) := Queue.addJob ?a ?b ?c ?d in _] =>
               destruct (Queue.addJob a b c d)
           | |- context [let '(_, _) := Queue.cleanup ?a ?b ?c in _] =>
               destruct (Queue.cleanup a b c)
           | |- context [let '(_, _) := Queue.cancel ?a ?b ?c in _] =>
               destruct (Queue.cancel a b c) as [[] ?] eqn:?
           | |- context [let '(_, _) := Queue.retry ?a ?b ?c in _] =>
               destruct (Queue.retry a b c) as [[] ?] eqn:?
           end;
    intros [= <- <-]; simpl;
    repeat split; try reflexivity; try discriminate; try congruence;
    intros; try discriminate;
    first [eapply cancel_refused; eassumption
          |eapply retry_refused; eassumption
          |idtac].
Qed.

Lemma deleteOldPosts_negative now days db :
  days < 0 -> deleteOldPosts now days db = (0, db).
Proof.
  intros Hneg. unfold deleteOldPosts.
  assert (Hp : forall r, purgeable now days r = false).
  { intros r. unfold purgeable, cutoff_seconds. apply Z.ltb_lt in Hneg. now rewrite Hneg. }
  f_equal.
  - unfold changes.
    assert (Hnil : filter (fun r => purgeable now days r = true) (posts db) = []).
    { induction (posts db) as [|r rows IH]; [reflexivity|].
      rewrite filter_cons_False; [assumption|]. rewrite Hp. discriminate. }
    now rewrite Hnil.
  - assert (Hall : filter (fun r => purgeable now days r = false) (posts db) = posts db).
    { induction (posts db) as [|r rows IH]; [reflexivity|].
      rewrite filter_cons_True by apply Hp. now rewrite IH. }
    rewrite Hall. apply set_posts_same.
Qed.

(** X29. Adding through the command line.  [add] without a platform or
    without an action (absent or empty) is refused and writes nothing.
    With both, a content and a readable schedule, it succeeds and reports
    the new job's id, one above the counter; [get] with that id then
    succeeds on the job just written: pending, with the platform, action
    and content given, scheduled at the time asked for or else at the
    time of adding. *)
Theorem add_then_get now now' clock clock' args db :
  valid db ->
  0 <= posts_seq db ->
  (truthy (platform args) = None \/ truthy (action args) = None ->
   main show_jobs show_job null_read unbound now clock (Some "add") (Object args) db
   = (mkExit (refuse "add" "Missing required fields: platform, action") 1, db))
  /\ (forall p a c,
        truthy (platform args) = Some p ->
        truthy (action args) = Some a ->
        content args = Some c ->
        scheduledAt args <> Unparsable ->
        exists db' job,
          main show_jobs show_job null_read unbound now clock (Some "add") (Object args) db
          = (mkExit (succeed "add"
                       ("Job " +:+ pretty (posts_seq db + 1) +:+ " added to queue")
                       (Some (posts_seq db + 1))) 0,
             db')
          /\ Queue.getJob (clock' 0%nat) (posts_seq db + 1) db' = Some job
          /\ ScheduledJob.id job = posts_seq db + 1
          /\ ScheduledJob.status job = pending
          /\ ScheduledJob.platform job = p
          /\ ScheduledJob.action job = a
          /\ ScheduledJob.contentJson job = c
          /\ ScheduledJob.retryCount job = 0
          /\ ScheduledJob.scheduledAt job
             = match scheduledAt args with
               | At t => t
               | _ => clock 0%nat
               end
          /\ main show_jobs show_job null_read unbound now' clock' (Some "get")
               (Object (mkArgs None None None Unscheduled None None None
                          (Some (posts_seq db + 1)) None)) db'
             = (mkExit (succeed "get" (show_job job) None) 0, db')).
Proof.
  intros [Hnd Hle] Hseq. split.
  - unfold main, run. simpl.
    intros [-> | Ha]; [reflexivity|]. rewrite Ha. now destruct (truthy (platform args)).
  - intros p a c Hp Ha Hc Hwhen.
    assert (Hfresh : forall rows,
              filter (fun r => PostRow.id r = posts_seq db + 1) (posts db) = rows ->
              rows = []).
    { intros rows <-.
      destruct (filter (fun r => PostRow.id r = posts_seq db + 1) (posts db)) as [|x l] eqn:E;
        [reflexivity|]. exfalso.
      assert (Hx : x ∈ filter (fun r => PostRow.id r = posts_seq db + 1) (posts db))
        by (rewrite E; apply list_elem_of_here).
      apply list_elem_of_filter in Hx. destruct Hx as [Hid Hx].
      rewrite Forall_forall in Hle.
      assert (PostRow.id x <= posts_seq db).
      { apply Hle. unfold ids. apply list_elem_of_fmap. exists x. auto. }
      lia. }
    assert (Hid : (posts_seq db + 1 =? 0) = false) by (apply Z.eqb_neq; lia).
    unfold main, run. simpl is_verb. cbv iota. rewrite Hp, Ha, Hc.
    unfold Queue.addJob, addPost. simpl.
    destruct (scheduledAt args) as [|t|]; [| |contradiction];
      (eexists _, _; split; [reflexivity|]).
    all: unfold truthy_num; simpl; rewrite Hid.
    all: unfold Queue.getJob, getJobById; simpl.
    all: rewrite filter_app, (Hfresh _ eq_refl); simpl.
    all: rewrite filter_cons_True by reflexivity; simpl.
    all: repeat (split; [reflexivity|]); reflexivity.
Qed.


(** X30. [cleanup] keeps seven days unless told otherwise: without
    [days], or with [days] zero, it purges as with seven, so the command
    line cannot ask for every settled job to be purged.  With a negative
    number it purges nothing, SQLite not reading the resulting modifier;
    in every case it reports success. *)
Theorem cleanup_keeps_seven_days_by_default now clock args db :
  (days args = None \/ days args = Some 0 ->
   main show_jobs show_job null_read unbound now clock (Some "cleanup") (Object args) db
   = (mkExit (succeed "cleanup"
                ("Cleaned up " +:+ pretty (fst (deleteOldPosts now 7 db)) +:+ " old posts")
                None) 0,
      snd (deleteOldPosts now 7 db)))
  /\ (forall n,
        days args = Some n -> n <> 0 ->
        main show_jobs show_job null_read unbound now clock (Some "cleanup") (Object args) db
        = (mkExit (succeed "cleanup"
                     ("Cleaned up " +:+ pretty (fst (deleteOldPosts now n db)) +:+ " old posts")
                     None) 0,
           snd (deleteOldPosts now n db))
        /\ (n < 0 -> deleteOldPosts now n db = (0, db)))
  /\ code (fst (main show_jobs show_job null_read unbound now clock (Some "cleanup")
                  (Object args) db)) = 0.
Proof.
  unfold main, run. simpl is_verb. cbv iota. unfold Queue.cleanup.
  split; [|split].
  - intros [-> | ->]; simpl; now destruct (deleteOldPosts now 7 db).
  - intros n -> Hn. split; [|apply deleteOldPosts_negative].
    unfold truthy_num. apply Z.eqb_neq in Hn. rewrite Hn. simpl.
    now destruct (deleteOldPosts now n db).
  - now destruct (deleteOldPosts now (default 7 (truthy_num (days args))) db).
Qed.

End CommandFacts.
(* ================================================================== *)
(** * Worked instances of the further properties *)
(* ================================================================== *)

Section MoreInstances.
Import Time Db.

Ltac range_now :=
  unfold in_range, in_range_s, min_ms, max_ms, min_s, max_s,
    Samples.noon, Samples.noon_s, Samples.hour, Samples.day; lia.

Lemma valid_one_row : valid (Samples.store [Samples.unscheduled]).
Proof. split; [apply NoDup_singleton|]. repeat constructor. simpl. lia. Qed.

Lemma valid_worn : valid (Samples.store [Samples.failed_thrice]).
Proof. split; [apply NoDup_singleton|]. repeat constructor. simpl. lia. Qed.

(** [added_job_reads_back] on a store holding job 2: the job added at
    noon gets the id 3 and reads back under it one second later,
    scheduled at the time of reading and created at the UTC wall time of
    noon, which five hours east of Greenwich is 07:00 UTC. *)
Lemma added_job_reads_back_witness :
  valid (Samples.store [Samples.unscheduled])
  /\ fst (addPost Samples.noon "youtube" "upload" "{}" None None
            (Samples.store [Samples.unscheduled])) = 3
  /\ getJobById (Samples.noon + 1000) 3
       (snd (addPost Samples.noon "youtube" "upload" "{}" None None
               (Samples.store [Samples.unscheduled])))
     = Some {| ScheduledJob.id := 3;
               ScheduledJob.platform := "youtube";
               ScheduledJob.action := "upload";
               ScheduledJob.status := pending;
               ScheduledJob.scheduledAt := Samples.noon + 1000;
               ScheduledJob.contentJson := "{}";
               ScheduledJob.filePath := None;
               ScheduledJob.resultJson := None;
               ScheduledJob.errorMessage := None;
               ScheduledJob.retryCount := 0;
               ScheduledJob.createdAt := Time.local Samples.noon_s;
               ScheduledJob.updatedAt := Time.local Samples.noon_s |}
  /\ (forall job,
        getJobById (Samples.noon + 1000) 3
          (snd (addPost Samples.noon "youtube" "upload" "{}" None None
                  (Samples.store [Samples.unscheduled]))) = Some job ->
        Time.instant Time.utc (ScheduledJob.createdAt job) = Samples.noon
        /\ Time.instant (Time.east 300) (ScheduledJob.createdAt job)
           = Samples.noon - 5 * Samples.hour)
  /\ getJobById (Samples.noon + 1000) 2
       (snd (addPost Samples.noon "youtube" "upload" "{}" None None
               (Samples.store [Samples.unscheduled])))
     = getJobById (Samples.noon + 1000) 2 (Samples.store [Samples.unscheduled]).
Proof.
  destruct (added_job_reads_back Samples.noon (Samples.noon + 1000) "youtube" "upload" "{}"
              None None _ valid_one_row) as (Hid & _ & _ & Hread & Hzone & Hother & _).
  split; [exact valid_one_row|]. split; [exact Hid|]. split; [exact Hread|].
  split.
  - intros job Hjob. destruct (Hzone job Hjob) as [Hutc Heast].
    split; [exact Hutc|exact (Heast 300)].
  - apply Hother. discriminate.
Defined.

(** [ids_are_never_reused]: job 2 is completed and purged ten days later;
    the job added next is not given the id 2 again. *)
Lemma ids_are_never_reused_witness :
  valid (Samples.store [Samples.unscheduled])
  /\ forall i,
       i ∈ ids (Samples.store [Samples.unscheduled]) ->
       i < fst (addPost (Samples.noon + 10 * Samples.day) "youtube" "upload" "{}" None None
                  (Ops.run [Ops.MarkComplete Samples.noon 2 "{}";
                            Ops.DeleteOldPosts (Samples.noon + 10 * Samples.day) 7]
                     (Samples.store [Samples.unscheduled]))).
Proof.
  split; [exact valid_one_row|].
  exact (proj2 (proj2 (proj2
           (ids_are_never_reused
              [Ops.MarkComplete Samples.noon 2 "{}";
               Ops.DeleteOldPosts (Samples.noon + 10 * Samples.day) 7]
              (Samples.store [Samples.unscheduled])
              (Samples.noon + 10 * Samples.day) "youtube" "upload" "{}" None None
              valid_one_row)))).
Defined.

(** [retry_ceiling_is_permanent]: a job with three retries fails once
    more and is retried; it is pending again, with four retries. *)
Lemma retry_ceiling_is_permanent_witness :
  valid (Samples.store [Samples.failed_thrice])
  /\ Samples.failed_thrice ∈ posts (Samples.store [Samples.failed_thrice])
  /\ Cases.worn_out
       ∈ posts (Ops.run [Ops.MarkFailed Samples.noon 1 "timeout";
                         Ops.RetryJob Samples.noon 1]
                  (Samples.store [Samples.failed_thrice]))
  /\ PostRow.id Cases.worn_out = PostRow.id Samples.failed_thrice
  /\ PostRow.status Cases.worn_out = pending
  /\ forall now clock job,
       job ∈ getPendingJobs now clock
               (Ops.run [Ops.MarkFailed Samples.noon 1 "timeout";
                         Ops.RetryJob Samples.noon 1]
                  (Samples.store [Samples.failed_thrice])) ->
       ScheduledJob.id job <> 1.
Proof.
  assert (H2 : Samples.failed_thrice ∈ posts (Samples.store [Samples.failed_thrice]))
    by apply list_elem_of_here.
  assert (H3 : Cases.worn_out
                 ∈ posts (Ops.run [Ops.MarkFailed Samples.noon 1 "timeout";
                                   Ops.RetryJob Samples.noon 1]
                            (Samples.store [Samples.failed_thrice])))
    by apply list_elem_of_here.
  split; [exact valid_worn|]. split; [exact H2|]. split; [exact H3|].
  split; [reflexivity|]. split; [reflexivity|].
  apply (proj2 (proj2 (retry_ceiling_is_permanent _ _ _ _ valid_worn H2 H3 eq_refl))).
  simpl. lia.
Defined.

(** [listJobs_newest_first] on three jobs created 300, 200 and 100
    seconds before noon. *)
Lemma listJobs_newest_first_witness :
  (forall r,
     r ∈ posts (Samples.store [Samples.two_days_ago; Samples.unscheduled;
                               Samples.three_days_ago]) ->
     in_range_s (PostRow.created_at r))
  /\ listJobs (Samples.steady Samples.noon) None
       (Samples.store [Samples.two_days_ago; Samples.unscheduled;
                       Samples.three_days_ago]) !! 0%nat
     = Some (rowToJob Samples.noon Samples.three_days_ago)
  /\ listJobs (Samples.steady Samples.noon) None
       (Samples.store [Samples.two_days_ago; Samples.unscheduled;
                       Samples.three_days_ago]) !! 2%nat
     = Some (rowToJob Samples.noon Samples.two_days_ago)
  /\ (0 < 2)%nat
  /\ wall (ScheduledJob.createdAt (rowToJob Samples.noon Samples.two_days_ago))
     <= wall (ScheduledJob.createdAt (rowToJob Samples.noon Samples.three_days_ago)).
Proof.
  assert (H1 : forall r,
             r ∈ posts (Samples.store [Samples.two_days_ago; Samples.unscheduled;
                                       Samples.three_days_ago]) ->
             in_range_s (PostRow.created_at r)).
  { intros r Hin. simpl in Hin.
    repeat (apply elem_of_cons in Hin as [-> | Hin]);
      [simpl; range_now ..|now apply elem_of_nil in Hin]. }
  assert (H2 : listJobs (Samples.steady Samples.noon) None
                 (Samples.store [Samples.two_days_ago; Samples.unscheduled;
                                 Samples.three_days_ago]) !! 0%nat
               = Some (rowToJob Samples.noon Samples.three_days_ago))
    by (vm_compute; reflexivity).
  assert (H3 : listJobs (Samples.steady Samples.noon) None
                 (Samples.store [Samples.two_days_ago; Samples.unscheduled;
                                 Samples.three_days_ago]) !! 2%nat
               = Some (rowToJob Samples.noon Samples.two_days_ago))
    by (vm_compute; reflexivity).
  assert (H4 : (0 < 2)%nat) by lia.
  split; [exact H1|]. split; [exact H2|]. split; [exact H3|]. split; [exact H4|].
  exact (proj1 (listJobs_newest_first _ None _ 0 2 _ _ H1 H2 H3 H4)).
Defined.

(** [added_job_waits_for_next_day]: a job added at noon without a
    schedule is not in the ready set at noon. *)
Lemma added_job_waits_for_next_day_witness :
  valid (Samples.store [])
  /\ in_range Samples.noon
  /\ in_range (default Samples.noon (QueueAddRequest.scheduledAt Cases.bare_request))
  /\ forall job,
       job ∈ Queue.getReadyJobs Samples.noon (Samples.steady Samples.noon)
               (snd (Queue.addJob Samples.noon Samples.noon Cases.bare_request
                       (Samples.store []))) ->
       ScheduledJob.id job
       <> fst (Queue.addJob Samples.noon Samples.noon Cases.bare_request (Samples.store [])).
Proof.
  assert (H1 : valid (Samples.store [])) by exact valid_empty.
  assert (H2 : in_range Samples.noon) by range_now.
  assert (H3 : in_range (default Samples.noon
                           (QueueAddRequest.scheduledAt Cases.bare_request)))
    by (simpl; range_now).
  split; [exact H1|]. split; [exact H2|]. split; [exact H3|].
  exact (proj2 (added_job_waits_for_next_day Samples.noon Samples.noon Samples.noon
                  (Samples.steady Samples.noon) Cases.bare_request (Samples.store [])
                  H1 H2 H3) eq_refl).
Defined.


(** [needsAuth_needs_a_zero_exit]: a skill that exits with code 1 is
    settled as a plain failure with what it wrote to stderr. *)
Lemma needsAuth_needs_a_zero_exit_witness :
  ScheduledJob.retryCount (rowToJob Samples.noon Samples.unscheduled) < 3
  /\ Scheduler.executeSkill Cases.over_quota Samples.content_ok Samples.parse
       (rowToJob Samples.noon Samples.unscheduled)
     = Scheduler.Returned
         (Scheduler.failure (rowToJob Samples.noon Samples.unscheduled) "quota exceeded")
  /\ SkillResult.success
       (Scheduler.failure (rowToJob Samples.noon Samples.unscheduled) "quota exceeded")
     = false
  /\ Scheduler.process_job 3 Cases.over_quota Samples.content_ok Samples.parse
       Samples.stringify Samples.noon (rowToJob Samples.noon Samples.unscheduled)
       (Scheduler.mkWorld (Samples.store [Samples.unscheduled]) [])
     = Scheduler.fail Samples.noon (rowToJob Samples.noon Samples.unscheduled)
         "quota exceeded"
         (Scheduler.mkWorld (Samples.store [Samples.unscheduled]) []).
Proof.
  assert (H1 : ScheduledJob.retryCount (rowToJob Samples.noon Samples.unscheduled) < 3)
    by (simpl; lia).
  split; [exact H1|]. split; [reflexivity|]. split; [reflexivity|].
  refine (proj2 (proj2 (needsAuth_needs_a_zero_exit 3 Cases.over_quota Samples.content_ok
                          Samples.parse Samples.stringify Samples.noon
                          (rowToJob Samples.noon Samples.unscheduled)
                          (Scheduler.mkWorld (Samples.store [Samples.unscheduled]) [])
                          _ H1 eq_refl eq_refl) _)).
  intros printed Hzero. discriminate Hzero.
Defined.

(** [renewed_credential_is_served_next]: a credential expiring in one
    minute is renewed at noon; a second later the renewed one is served
    without a refresh. *)
Lemma renewed_credential_is_served_next_witness :
  getToken "youtube"
    (Samples.with_token (Samples.token (Some (Samples.noon + 60000)) (Some "refresh-0")))
  = Some (TokenData.mk "youtube" "access-0" (Some "refresh-0")
            (Some (Samples.noon + 60000)) (Some (Time.local Samples.noon_s)))
  /\ TokenManager.needsRefresh Samples.noon
       (TokenData.mk "youtube" "access-0" (Some "refresh-0")
          (Some (Samples.noon + 60000)) (Some (Time.local Samples.noon_s))) = true
  /\ TokenManager.needsRefresh (Samples.noon + 1000) Samples.renewed = false
  /\ TokenManager.isExpired (Samples.noon + 1000) Samples.renewed = false
  /\ let '(served, db', calls) :=
       TokenManager.getValidToken (Samples.steady Samples.noon) "youtube"
         (Some Samples.renew)
         (Samples.with_token
            (Samples.token (Some (Samples.noon + 60000)) (Some "refresh-0"))) in
     served = Some Samples.renewed
     /\ calls = [TokenData.mk "youtube" "access-0" (Some "refresh-0")
                   (Some (Samples.noon + 60000)) (Some (Time.local Samples.noon_s))]
     /\ exists stored,
          getToken "youtube" db' = Some stored
          /\ TokenData.accessToken stored = TokenData.accessToken Samples.renewed
          /\ TokenData.expiresAt stored = TokenData.expiresAt Samples.renewed
          /\ TokenData.refreshToken stored = truthy (TokenData.refreshToken Samples.renewed)
          /\ TokenManager.getValidToken (Samples.steady (Samples.noon + 1000)) "youtube"
               (Some Samples.renew) db'
             = (Some stored, db', []).
Proof.
  assert (H1 : getToken "youtube"
                 (Samples.with_token
                    (Samples.token (Some (Samples.noon + 60000)) (Some "refresh-0")))
               = Some (TokenData.mk "youtube" "access-0" (Some "refresh-0")
                         (Some (Samples.noon + 60000)) (Some (Time.local Samples.noon_s))))
    by (vm_compute; reflexivity).
  assert (H2 : TokenManager.needsRefresh Samples.noon
                 (TokenData.mk "youtube" "access-0" (Some "refresh-0")
                    (Some (Samples.noon + 60000)) (Some (Time.local Samples.noon_s))) = true)
    by reflexivity.
  assert (H3 : TokenManager.needsRefresh (Samples.noon + 1000) Samples.renewed = false)
    by reflexivity.
  assert (H4 : TokenManager.isExpired (Samples.noon + 1000) Samples.renewed = false)
    by reflexivity.
  split; [exact H1|]. split; [exact H2|]. split; [exact H3|]. split; [exact H4|].
  exact (renewed_credential_is_served_next (Samples.steady Samples.noon)
           (Samples.steady (Samples.noon + 1000)) "youtube" Samples.renew
           (Some Samples.renew) _ _ Samples.renewed
           H1 (or_introl H2) (ex_intro _ "refresh-0" eq_refl) eq_refl eq_refl H3 H4).
Defined.

(** [youtube_refresh_keeps_refresh_token]: Google answers the refresh
    without a refresh token; the client is returned all the same. *)
Lemma youtube_refresh_keeps_refresh_token_witness :
  getToken "youtube"
    (Samples.with_token (Samples.token (Some (Samples.noon + 60000)) (Some "refresh-0")))
  = Some (TokenData.mk "youtube" "access-0" (Some "refresh-0")
            (Some (Samples.noon + 60000)) (Some (Time.local Samples.noon_s)))
  /\ TokenManager.needsRefresh Samples.noon
       (TokenData.mk "youtube" "access-0" (Some "refresh-0")
          (Some (Samples.noon + 60000)) (Some (Time.local Samples.noon_s))) = true
  /\ exists stored,
       getToken "youtube"
         (snd (fst (Platforms.YouTube.getYouTubeClient Cases.google
                      (Samples.steady Samples.noon) Samples.noon Samples.noon
                      (Samples.with_token
                         (Samples.token (Some (Samples.noon + 60000))
                            (Some "refresh-0"))))))
       = Some stored
       /\ TokenData.accessToken stored = "access-2"
       /\ TokenData.refreshToken stored = Some "refresh-0".
Proof.
  assert (H1 : getToken "youtube"
                 (Samples.with_token
                    (Samples.token (Some (Samples.noon + 60000)) (Some "refresh-0")))
               = Some (TokenData.mk "youtube" "access-0" (Some "refresh-0")
                         (Some (Samples.noon + 60000)) (Some (Time.local Samples.noon_s))))
    by (vm_compute; reflexivity).
  assert (H2 : TokenManager.needsRefresh Samples.noon
                 (TokenData.mk "youtube" "access-0" (Some "refresh-0")
                    (Some (Samples.noon + 60000)) (Some (Time.local Samples.noon_s))) = true)
    by reflexivity.
  split; [exact H1|]. split; [exact H2|].
  destruct (proj1 (youtube_refresh_keeps_refresh_token Cases.google
                     (Samples.steady Samples.noon) Samples.noon _ _ "refresh-0"
                     H1 (or_introl H2) eq_refl) _ eq_refl)
    as (served & db' & stored & Hclient & _ & Hstored & Haccess & _ & Hrefresh & _).
  exists stored. rewrite Hclient. simpl. auto.
Defined.

(** [facebook_credentials_are_never_refreshed]: after a successful
    exchange, whatever the Graph API would answer to a refresh carries no
    refresh token. *)
Lemma facebook_credentials_are_never_refreshed_witness :
  OAuth.exchangeFacebookCode Samples.network Cases.facebook_env Samples.noon "code-1"
    Samples.idle
  = (OAuth.Ok tt,
     snd (OAuth.exchangeFacebookCode Samples.network Cases.facebook_env Samples.noon
            "code-1" Samples.idle))
  /\ forall token newToken,
       Platforms.Facebook.refreshFacebookToken Cases.graph Samples.noon token
       = TokenManager.Resolved (Some newToken) ->
       TokenData.refreshToken newToken = None /\ TokenData.platform newToken = "facebook".
Proof.
  assert (H1 : OAuth.exchangeFacebookCode Samples.network Cases.facebook_env Samples.noon
                 "code-1" Samples.idle
               = (OAuth.Ok tt,
                  snd (OAuth.exchangeFacebookCode Samples.network Cases.facebook_env
                         Samples.noon "code-1" Samples.idle))) by reflexivity.
  split; [exact H1|].
  exact (proj2 (facebook_credentials_are_never_refreshed Samples.network Cases.facebook_env
                  Cases.graph Samples.noon "code-1" Samples.idle _
                  (Samples.steady Samples.noon) Samples.noon H1)).
Defined.

(** [callback_ignores_session_data]: the YouTube callback is answered
    the same whether the session under its state was begun for YouTube or
    for Facebook. *)
Lemma callback_ignores_session_data_witness :
  OAuth.callback_platform (OAuth.pathname (Samples.callback "s1")) = Some "youtube"
  /\ truthy (OAuth.error (Samples.callback "s1")) = None
  /\ truthy (OAuth.code (Samples.callback "s1")) = Some "code-1"
  /\ truthy (OAuth.state (Samples.callback "s1")) = Some "s1"
  /\ OAuth.handle Samples.network Samples.env Samples.noon (Samples.callback "s1")
       (OAuth.mkWorld
          (OAuth.mkServer
             (<[ "s1" := OAuthState.mk "youtube" "user-1" None None ]>
                (OAuth.oauthStates (OAuth.server Samples.idle)))
             (OAuth.timers (OAuth.server Samples.idle))
             (OAuth.draws (OAuth.server Samples.idle)))
          (OAuth.store Samples.idle) (OAuth.sent Samples.idle))
     = OAuth.handle Samples.network Samples.env Samples.noon (Samples.callback "s1")
         (OAuth.mkWorld
            (OAuth.mkServer
               (<[ "s1" := OAuthState.mk "facebook" "user-2" None None ]>
                  (OAuth.oauthStates (OAuth.server Samples.idle)))
               (OAuth.timers (OAuth.server Samples.idle))
               (OAuth.draws (OAuth.server Samples.idle)))
            (OAuth.store Samples.idle) (OAuth.sent Samples.idle)).
Proof.
  assert (H1 : OAuth.callback_platform (OAuth.pathname (Samples.callback "s1"))
               = Some "youtube") by reflexivity.
  split; [exact H1|]. split; [reflexivity|]. split; [reflexivity|]. split; [reflexivity|].
  exact (callback_ignores_session_data Samples.network Samples.env Samples.noon
           (Samples.callback "s1") Samples.idle "youtube" "code-1" "s1"
           (OAuthState.mk "youtube" "user-1" None None)
           (OAuthState.mk "facebook" "user-2" None None)
           H1 eq_refl eq_refl eq_refl).
Defined.

(** [unknown_platform_consumes_the_session]: a callback on
    "/auth/mastodon/callback" with the state of the waiting session. *)
Lemma unknown_platform_consumes_the_session_witness :
  OAuth.callback_platform (OAuth.pathname Cases.stray_callback) = Some "mastodon"
  /\ is_Some (OAuth.oauthStates (OAuth.server Samples.waiting) !! "s1")
  /\ OAuth.handle Samples.network Samples.env Samples.noon Cases.stray_callback
       Samples.waiting
     = (OAuth.mkResponse 500 (OAuth.AuthenticationError "Unknown platform: mastodon"),
        OAuth.mkWorld
          (OAuth.mkServer (delete "s1" (OAuth.oauthStates (OAuth.server Samples.waiting)))
             (OAuth.timers (OAuth.server Samples.waiting))
             (OAuth.draws (OAuth.server Samples.waiting)))
          (OAuth.store Samples.waiting) (OAuth.sent Samples.waiting)).
Proof.
  assert (H1 : OAuth.callback_platform (OAuth.pathname Cases.stray_callback)
               = Some "mastodon") by reflexivity.
  assert (H2 : is_Some (OAuth.oauthStates (OAuth.server Samples.waiting) !! "s1")).
  { eexists. vm_compute. reflexivity. }
  split; [exact H1|]. split; [exact H2|].
  apply (unknown_platform_consumes_the_session Samples.network Samples.env Samples.noon
           Cases.stray_callback Samples.waiting "mastodon" "code-1" "s1" H1);
    [discriminate|discriminate|discriminate|reflexivity|reflexivity|reflexivity|exact H2].
Defined.

(** [handshake_round_trip]: with the Facebook configuration, a handshake
    begun at noon returns a URL whose state token is the hexadecimal of
    the sixteen random bytes; the session is on file under it, and the
    callback that brings this token back a minute later is taken to the
    exchange and leaves no session behind. *)
Lemma handshake_round_trip_witness :
  (forall k n : nat, length (Samples.entropy k n) = n)
  /\ exists url srv',
       OAuth.generateAuthUrl Samples.entropy Cases.facebook_env Samples.noon "facebook"
         "user-1" (OAuth.server Samples.idle)
       = (OAuth.Ok url, srv')
       /\ OAuth.get_param "state" (OAuth.params url)
          = Some "11111111111111111111111111111111"
       /\ OAuthState.platform
            <$> OAuth.oauthStates srv' !! "11111111111111111111111111111111"
          = Some "facebook"
       /\ (OAuth.status
             (fst (OAuth.handle Samples.network Cases.facebook_env (Samples.noon + 60000)
                     (Cases.facebook_callback "11111111111111111111111111111111")
                     (OAuth.mkWorld srv' (Samples.store []) []))) = 200
           \/ OAuth.status
                (fst (OAuth.handle Samples.network Cases.facebook_env (Samples.noon + 60000)
                        (Cases.facebook_callback "11111111111111111111111111111111")
                        (OAuth.mkWorld srv' (Samples.store []) []))) = 500)
       /\ OAuth.oauthStates
            (OAuth.server
               (snd (OAuth.handle Samples.network Cases.facebook_env (Samples.noon + 60000)
                       (Cases.facebook_callback "11111111111111111111111111111111")
                       (OAuth.mkWorld srv' (Samples.store []) []))))
            !! "11111111111111111111111111111111"
          = None.
Proof.
  assert (H1 : forall k n : nat, length (Samples.entropy k n) = n).
  { intros k n. unfold Samples.entropy. apply repeat_length. }
  split; [exact H1|].
  eexists _, _. split; [reflexivity|].
  edestruct (proj1 (handshake_round_trip Samples.entropy Samples.network Cases.facebook_env
                      Samples.noon "facebook" "user-1" (OAuth.server Samples.idle) H1)
               _ _ eq_refl)
    as (_ & token & data & Hstate & _ & Hdata & Hplat & _ & Hcallback).
  assert (Htoken : token = "11111111111111111111111111111111").
  { vm_compute in Hstate. now injection Hstate as <-. }
  subst token.
  split; [reflexivity|].
  split; [rewrite Hdata; simpl; now rewrite Hplat|].
  exact (Hcallback (Samples.noon + 60000)
           (Cases.facebook_callback "11111111111111111111111111111111")
           (Samples.store []) [] "code-1" eq_refl eq_refl eq_refl eq_refl).
Defined.

(** [add_then_get]: on the empty store, [add] for a YouTube upload
    succeeds with the id 1, and [get] with that id then succeeds on a
    pending YouTube upload scheduled at the time of adding. *)
Lemma add_then_get_witness :
  valid (Samples.store [])
  /\ 0 <= posts_seq (Samples.store [])
  /\ exists db' job,
       SchedulerSkill.main Cases.show_jobs Cases.show_job "" "" Samples.noon
         (Samples.steady Samples.noon) (Some "add")
         (SchedulerSkill.Object Cases.upload_request) (Samples.store [])
       = (SchedulerSkill.mkExit
            (SchedulerSkill.succeed "add" "Job 1 added to queue" (Some 1)) 0, db')
       /\ Queue.getJob (Samples.noon + 1000) 1 db' = Some job
       /\ ScheduledJob.id job = 1
       /\ ScheduledJob.status job = pending
       /\ ScheduledJob.platform job = "youtube"
       /\ ScheduledJob.action job = "upload"
       /\ ScheduledJob.contentJson job = "{}"
       /\ ScheduledJob.retryCount job = 0
       /\ ScheduledJob.scheduledAt job = Samples.noon
       /\ SchedulerSkill.main Cases.show_jobs Cases.show_job "" "" (Samples.noon + 1000)
            (Samples.steady (Samples.noon + 1000)) (Some "get")
            (SchedulerSkill.Object
               (SchedulerSkill.mkArgs None None None SchedulerSkill.Unscheduled
                  None None None (Some 1) None)) db'
          = (SchedulerSkill.mkExit
               (SchedulerSkill.succeed "get" (Cases.show_job job) None) 0, db').
Proof.
  assert (H1 : valid (Samples.store [])) by exact valid_empty.
  assert (H2 : 0 <= posts_seq (Samples.store [])) by (simpl; lia).
  split; [exact H1|]. split; [exact H2|].
  assert (Hwhen : SchedulerSkill.scheduledAt Cases.upload_request
                  <> SchedulerSkill.Unparsable) by discriminate.
  exact (proj2 (add_then_get Cases.show_jobs Cases.show_job "" "" Samples.noon
                  (Samples.noon + 1000) (Samples.steady Samples.noon)
                  (Samples.steady (Samples.noon + 1000)) Cases.upload_request
                  (Samples.store []) H1 H2)
           "youtube" "upload" "{}" eq_refl eq_refl eq_refl Hwhen).
Defined.

End MoreInstances.
